(** * A shallow embedding of blockchain.py

    The Python module defines two classes, [Block] and [Blockchain].
    Blocks are mutable objects that are shared by reference between the
    chain's list and the local variables of the methods, so the embedding
    keeps a store of blocks addressed by location and threads it through
    every method.  A Python [str] is the list of its code points, so that
    [str.encode] can fail as it does on a lone surrogate, and
    [hashlib.sha256] is embedded as an executable function on bytes, so
    that every definition below can be evaluated.

    The memory of the machine is a parameter, [capacity]: the longest
    string that ["0" * difficulty] can build; allocations of the other
    strings and of the objects are taken to succeed.  The cap that recent
    interpreters put on the number of digits of [str(n)] is outside the
    embedding. *)

From Stdlib Require Import ZArith List Strings.String Strings.Ascii Strings.Byte DecimalString Bool Lia.
From stdpp Require Import base option list strings.
Import ListNotations.

Local Open Scope Z_scope.

(** * SHA-256 (FIPS 180-4), as computed by [hashlib.sha256] *)

Module SHA256.

Definition mask32 : Z := 0xffffffff.

(** Addition of 32-bit words wraps around. *)
Definition add32 (x y : Z) : Z := Z.land (x + y) mask32.

Definition rotr (n x : Z) : Z :=
  Z.lor (Z.shiftr x n) (Z.land (Z.shiftl x (32 - n)) mask32).

Definition shr (n x : Z) : Z := Z.shiftr x n.

Definition not32 (x : Z) : Z := Z.lxor x mask32.

Definition Ch (x y z : Z) : Z :=
  Z.lxor (Z.land x y) (Z.land (not32 x) z).

Definition Maj (x y z : Z) : Z :=
  Z.lxor (Z.lxor (Z.land x y) (Z.land x z)) (Z.land y z).

Definition bsig0 (x : Z) : Z := Z.lxor (Z.lxor (rotr 2 x) (rotr 13 x)) (rotr 22 x).
Definition bsig1 (x : Z) : Z := Z.lxor (Z.lxor (rotr 6 x) (rotr 11 x)) (rotr 25 x).
Definition ssig0 (x : Z) : Z := Z.lxor (Z.lxor (rotr 7 x) (rotr 18 x)) (shr 3 x).
Definition ssig1 (x : Z) : Z := Z.lxor (Z.lxor (rotr 17 x) (rotr 19 x)) (shr 10 x).

(** The first 64 prime numbers. *)
Definition is_prime (n : nat) : bool :=
  forallb (fun d => negb (n mod d =? 0)%nat) (seq 2 (n - 2)).

Definition primes : list Z :=
  Eval vm_compute in map Z.of_nat (filter is_prime (seq 2 310)).

(** Integer cube root: the largest [r] in [lo, hi) with [r ^ 3 <= n]. *)
Fixpoint cbrt_between (fuel : nat) (lo hi n : Z) : Z :=
  match fuel with
  | O => lo
  | S fuel' =>
      if hi - lo <=? 1 then lo
      else
        let mid := (lo + hi) / 2 in
        if mid * mid * mid <=? n then cbrt_between fuel' mid hi n
        else cbrt_between fuel' lo mid n
  end.

Definition frac32_cbrt (p : Z) : Z :=
  Z.land (cbrt_between 64 0 (2 ^ 36) (p * 2 ^ 96)) mask32.

Definition frac32_sqrt (p : Z) : Z :=
  Z.land (Z.sqrt (p * 2 ^ 64)) mask32.

(** The round constants: the first 32 bits of the fractional parts of the
    cube roots of the first 64 primes. *)
Definition K : list Z := Eval vm_compute in map frac32_cbrt primes.

(** The eight working words / the intermediate hash value. *)
Record state : Type := State {
  ha : Z; hb : Z; hc : Z; hd : Z; he : Z; hf : Z; hg : Z; hh : Z
}.

(** The initial hash value: the first 32 bits of the fractional parts of
    the square roots of the first 8 primes. *)
Definition H0 : state :=
  Eval vm_compute in
    State (frac32_sqrt 2) (frac32_sqrt 3) (frac32_sqrt 5) (frac32_sqrt 7)
          (frac32_sqrt 11) (frac32_sqrt 13) (frac32_sqrt 17) (frac32_sqrt 19).

(** ** Padding and parsing *)

Definition byte_val (b : byte) : Z := Z.of_N (Byte.to_N b).

(** The [n] low bytes of [x], most significant first. *)
Fixpoint be_bytes (n : nat) (x : Z) : list Z :=
  match n with
  | O => []
  | S n' => Z.land (Z.shiftr x (8 * Z.of_nat n')) 0xff :: be_bytes n' x
  end.

(** A single 1 bit, then zero bits up to 448 mod 512, then the message
    length in bits as a 64-bit big-endian number. *)
Definition pad (msg : list Z) : list Z :=
  let len := Z.of_nat (length msg) in
  msg ++ [0x80] ++ repeat 0 (Z.to_nat ((55 - len) mod 64)) ++ be_bytes 8 (8 * len).

(** Big-endian 32-bit words of a byte sequence. *)
Fixpoint words (bs : list Z) : list Z :=
  match bs with
  | b0 :: b1 :: b2 :: b3 :: rest =>
      Z.lor (Z.shiftl b0 24) (Z.lor (Z.shiftl b1 16) (Z.lor (Z.shiftl b2 8) b3))
      :: words rest
  | _ => []
  end.

(** 512-bit blocks of sixteen words each. *)
Fixpoint blocks (fuel : nat) (ws : list Z) : list (list Z) :=
  match fuel, ws with
  | S fuel', _ :: _ => firstn 16 ws :: blocks fuel' (skipn 16 ws)
  | _, _ => []
  end.

(** ** Message schedule: [w] holds W(t-1), W(t-2), ... most recent first. *)

Fixpoint extend (n : nat) (w : list Z) : list Z :=
  match n with
  | O => w
  | S n' =>
      let wt := add32 (add32 (add32 (ssig1 (nth 1 w 0)) (nth 6 w 0))
                              (ssig0 (nth 14 w 0))) (nth 15 w 0) in
      extend n' (wt :: w)
  end.

Definition schedule (block : list Z) : list Z := rev (extend 48 (rev block)).

(** ** Compression *)

Definition round (s : state) (kw : Z * Z) : state :=
  let '(k, w) := kw in
  let t1 := add32 (add32 (add32 (add32 (hh s) (bsig1 (he s)))
                                (Ch (he s) (hf s) (hg s))) k) w in
  let t2 := add32 (bsig0 (ha s)) (Maj (ha s) (hb s) (hc s)) in
  State (add32 t1 t2) (ha s) (hb s) (hc s) (add32 (hd s) t1) (he s) (hf s) (hg s).

Definition compress (h : state) (block : list Z) : state :=
  let s := fold_left round (combine K (schedule block)) h in
  State (add32 (ha h) (ha s)) (add32 (hb h) (hb s))
        (add32 (hc h) (hc s)) (add32 (hd h) (hd s))
        (add32 (he h) (he s)) (add32 (hf h) (hf s))
        (add32 (hg h) (hg s)) (add32 (hh h) (hh s)).

Definition digest (msg : list byte) : state :=
  let ws := words (pad (map byte_val msg)) in
  fold_left compress (blocks (length ws) ws) H0.

(** ** [hexdigest]: lowercase hexadecimal, eight digits per word *)

Definition hex_digit (n : Z) : ascii :=
  nth (Z.to_nat (Z.land n 0xf)) (list_ascii_of_string "0123456789abcdef") "0"%char.

Definition hex32 (x : Z) (k : string) : string :=
  String (hex_digit (Z.shiftr x 28)) (String (hex_digit (Z.shiftr x 24))
 (String (hex_digit (Z.shiftr x 20)) (String (hex_digit (Z.shiftr x 16))
 (String (hex_digit (Z.shiftr x 12)) (String (hex_digit (Z.shiftr x 8))
 (String (hex_digit (Z.shiftr x 4)) (String (hex_digit x) k))))))).

Definition hexdigest (s : state) : string :=
  hex32 (ha s) (hex32 (hb s) (hex32 (hc s) (hex32 (hd s)
 (hex32 (he s) (hex32 (hf s) (hex32 (hg s) (hex32 (hh s) EmptyString))))))).

(** [hashlib.sha256(data).hexdigest()] *)
Definition sha256_hex (data : list byte) : string := hexdigest (digest data).

End SHA256.

Local Open Scope string_scope.
Local Open Scope list_scope.
Local Open Scope Z_scope.

(** * Python strings *)

(** A [str] is a sequence of code points, each below [0x110000]; a list
    that holds a larger number stands for no string. *)
Definition pystr : Type := list N.

(** A literal of the source, or any text in ASCII: one code point per
    character. *)
Definition py (s : string) : pystr := map N_of_ascii (list_ascii_of_string s).

(** [a == b] *)
Fixpoint str_eqb (a b : pystr) : bool :=
  match a, b with
  | [], [] => true
  | x :: a', y :: b' => N.eqb x y && str_eqb a' b'
  | _, _ => false
  end.

(** [s.startswith(prefix)] *)
Fixpoint startswith (s prefix : pystr) {struct prefix} : bool :=
  match prefix, s with
  | [], _ => true
  | x :: prefix', y :: s' => N.eqb x y && startswith s' prefix'
  | _ :: _, [] => false
  end.

(** The value of [s * n] when it has one: [n] copies of [s], none when
    [n <= 0]. *)
Definition repeat_str (s : pystr) (n : Z) : pystr :=
  concat (repeat s (Z.to_nat n)).

(** [s * n] needs [n] to fit the index-sized integer of the interpreter
    (64 bits, signed). *)
Definition in_index_range (n : Z) : bool :=
  (- 2 ^ 63 <=? n) && (n <? 2 ^ 63).

(** [str(n)] for a Python [int]: decimal digits, with a leading minus
    sign for negative numbers. *)
Definition str_int (n : Z) : pystr := py (NilZero.string_of_int (Z.to_int n)).

(** Number of ["0"] characters at the start of a string. *)
Fixpoint leading_zeros (s : pystr) : nat :=
  match s with
  | c :: s' => if N.eqb c 48 then S (leading_zeros s') else O
  | [] => O
  end.

(** A digit of lowercase hexadecimal. *)
Definition is_lower_hex (c : N) : bool :=
  existsb (N.eqb c) (py "0123456789abcdef").

(** ** UTF-8 *)

(** The code points [U+D800] to [U+DFFF] are surrogates; the codec refuses
    them. *)
Definition is_surrogate (c : N) : bool := (0xD800 <=? c)%N && (c <=? 0xDFFF)%N.

Definition encodable (s : pystr) : bool := forallb (fun c => negb (is_surrogate c)) s.

Definition byte_of_N (n : N) : byte :=
  match Byte.of_N n with Some b => b | None => x00 end.

(** One to four bytes per code point. *)
Definition utf8_char (c : N) : list byte :=
  (if c <? 0x80 then
     [byte_of_N c]
   else if c <? 0x800 then
     [byte_of_N (N.lor 0xC0 (N.shiftr c 6));
      byte_of_N (N.lor 0x80 (N.land c 0x3F))]
   else if c <? 0x10000 then
     [byte_of_N (N.lor 0xE0 (N.shiftr c 12));
      byte_of_N (N.lor 0x80 (N.land (N.shiftr c 6) 0x3F));
      byte_of_N (N.lor 0x80 (N.land c 0x3F))]
   else
     [byte_of_N (N.lor 0xF0 (N.land (N.shiftr c 18) 0x7));
      byte_of_N (N.lor 0x80 (N.land (N.shiftr c 12) 0x3F));
      byte_of_N (N.lor 0x80 (N.land (N.shiftr c 6) 0x3F));
      byte_of_N (N.lor 0x80 (N.land c 0x3F))])%N.

Definition utf8 (s : pystr) : list byte := flat_map utf8_char s.

(** [hashlib.sha256(data).hexdigest()], as a [str]. *)
Definition sha256_hexdigest (data : list byte) : pystr := py (SHA256.sha256_hex data).

(** * Objects, store and effects *)

(** A reference to a [Block] object. *)
Definition loc : Type := nat.

(** Exceptions the module can raise: [IndexError] from a list index or from
    [tamper_with_block], [OverflowError] and [MemoryError] from
    ["0" * difficulty], [UnicodeEncodeError] from [str.encode] (its
    arguments, the codec and the position, are not recorded). *)
Inductive exn : Type :=
| IndexError (msg : string)
| OverflowError (msg : string)
| MemoryError
| UnicodeEncodeError.

(** Lines written by [print], kept as structured records:
    - [Mined index nonce hash attempts] for the line that [proof_of_work]
      prints when it returns; the elapsed time that this line also shows is
      read from the clock and is not recorded;
    - [PreviousHashMismatch i] for "Invalid: block i previous_hash mismatch";
    - [HashMismatch i] for "Invalid: block i hash mismatch (stored !=
      recalculated)";
    - [DifficultyNotSatisfied i prefix] for "Invalid: block i does not
      satisfy difficulty (prefix ...)". *)
Inductive event : Type :=
| Mined (index nonce : Z) (hash : pystr) (attempts : Z)
| PreviousHashMismatch (i : Z)
| HashMismatch (i : Z)
| DifficultyNotSatisfied (i : Z) (prefix : pystr).

Section Blockchain.

(** Python's [float], the type of [time.time()], and the text that [str]
    gives for one (digits, a sign, a point, an exponent, [inf] or [nan]:
    one code point per character of the text). *)
Context {float : Type} (str_float : float -> string).

(** The longest string that [*] can build on the machine at hand; asked
    for a longer one, the interpreter raises [MemoryError]. *)
Context (capacity : Z).

(** ** class Block: the attributes of one object *)
Record Block : Type := mkBlock {
  index : Z;
  timestamp : float;
  data : pystr;
  previous_hash : pystr;
  nonce : Z;
  hash : pystr
}.

Definition with_data (v : pystr) (b : Block) : Block :=
  mkBlock (index b) (timestamp b) v (previous_hash b) (nonce b) (hash b).
Definition with_nonce (v : Z) (b : Block) : Block :=
  mkBlock (index b) (timestamp b) (data b) (previous_hash b) v (hash b).
Definition with_hash (v : pystr) (b : Block) : Block :=
  mkBlock (index b) (timestamp b) (data b) (previous_hash b) (nonce b) v.

(** The store of [Block] objects and the standard output. *)
Record world : Type := mkWorld {
  heap : list Block;
  stdout : list event
}.

(** Outcome of running a method: a value, a raised exception (the store
    keeps whatever was written before the [raise]), a reference outside
    the store (no Python execution gets there), or a loop that is still
    running when the fuel is spent. *)
Inductive result (A : Type) : Type :=
| Ok (a : A) (w : world)
| Raise (e : exn) (w : world)
| Dangling
| OutOfFuel.
Global Arguments Ok {A} a w.
Global Arguments Raise {A} e w.
Global Arguments Dangling {A}.
Global Arguments OutOfFuel {A}.

Definition M (A : Type) : Type := world -> result A.

Definition ret {A} (a : A) : M A := fun w => Ok a w.

Definition bind {A B} (m : M A) (f : A -> M B) : M B :=
  fun w =>
    match m w with
    | Ok a w' => f a w'
    | Raise e w' => Raise e w'
    | Dangling => Dangling
    | OutOfFuel => OutOfFuel
    end.

Definition raise {A} (e : exn) : M A := fun w => Raise e w.

Definition print (e : event) : M unit :=
  fun w => Ok tt (mkWorld (heap w) (stdout w ++ [e])).

(** Object creation, attribute reads and attribute writes. *)
Definition alloc (b : Block) : M loc :=
  fun w => Ok (length (heap w)) (mkWorld (heap w ++ [b]) (stdout w)).

Definition load (l : loc) : M Block :=
  fun w => match heap w !! l with Some b => Ok b w | None => Dangling end.

Definition update (l : loc) (f : Block -> Block) : M unit :=
  fun w =>
    match heap w !! l with
    | Some b => Ok tt (mkWorld (<[l := f b]> (heap w)) (stdout w))
    | None => Dangling
    end.

Definition getattr {A} (l : loc) (field : Block -> A) : M A :=
  bind (load l) (fun b => ret (field b)).

(** [xs[i]] on a Python list: negative indices count from the end. *)
Definition getitem {A} (xs : list A) (i : Z) : M A :=
  let len := Z.of_nat (length xs) in
  let j := if i <? 0 then i + len else i in
  if (j <? 0) || (len <=? j) then raise (IndexError "list index out of range")
  else match xs !! Z.to_nat j with
       | Some x => ret x
       | None => raise (IndexError "list index out of range")
       end.

(** [s * n]: the count must fit an index-sized integer, and a result that
    is not empty must fit the memory. *)
Definition str_mul_error (s : pystr) (n : Z) : option exn :=
  let size := Z.of_nat (length s) * n in
  if negb (in_index_range n) then
    Some (OverflowError "cannot fit 'int' into an index-sized integer")
  else if (0 <? size) && (capacity <? size) then Some MemoryError
  else None.

Definition str_mul (s : pystr) (n : Z) : M pystr :=
  match str_mul_error s n with
  | Some e => raise e
  | None => ret (repeat_str s n)
  end.

(** [s.encode()] *)
Definition encode (s : pystr) : M (list byte) :=
  if encodable s then ret (utf8 s) else raise UnicodeEncodeError.

Notation "x <- m ;; k" := (bind m (fun x => k))
  (at level 100, m at next level, right associativity).
Notation "m ;;; k" := (bind m (fun _ => k))
  (at level 100, right associativity).

(** ** Block.calculate_hash *)

Definition block_string (b : Block) : pystr :=
  str_int (index b) ++ py (str_float (timestamp b)) ++ data b
  ++ previous_hash b ++ str_int (nonce b).

Definition calculate_hash (self : loc) : M pystr :=
  b <- load self ;;
  bytes <- encode (block_string b) ;;
  ret (sha256_hexdigest bytes).

(** The text of the block can be encoded. *)
Definition encodable_block (b : Block) : bool := encodable (block_string b).

(** The digest that [calculate_hash] returns on an object whose
    attributes are [b], when their text can be encoded. *)
Definition digest_of (b : Block) : pystr :=
  sha256_hexdigest (utf8 (block_string b)).

(** The attributes of [b] once mining has settled on the nonce
    [nonce b + k] and stored the digest. *)
Definition sealed (b : Block) (k : Z) : Block :=
  let b' := with_nonce (nonce b + k) b in
  with_hash (digest_of b') b'.

(** The attributes of an object that [Block(...)] has just built. *)
Definition new_block (index : Z) (timestamp : float) (data previous_hash : pystr)
  : Block :=
  let b := mkBlock index timestamp data previous_hash 0 [] in
  with_hash (digest_of b) b.

(** ** Block.__init__: the attribute [hash] does not exist until the
    last assignment; until then the field holds the empty string. *)
Definition Block_init (index : Z) (timestamp : float) (data previous_hash : pystr)
  : M loc :=
  self <- alloc (mkBlock index timestamp data previous_hash 0 []) ;;
  h <- calculate_hash self ;;
  update self (with_hash h) ;;;
  ret self.

(** ** class Blockchain: the attributes of the chain object.  Methods
    that assign to them return the new record. *)
Record Blockchain : Type := mkBlockchain {
  difficulty : Z;
  chain : list loc
}.

(** ** Blockchain.proof_of_work: the [while True] loop, one iteration
    per unit of fuel. *)
Fixpoint proof_of_work_loop (fuel : nat) (prefix : pystr) (block : loc)
    (attempts : Z) : M loc :=
  match fuel with
  | O => fun _ => OutOfFuel
  | S fuel' =>
      h <- calculate_hash block ;;
      update block (with_hash h) ;;;
      block_hash <- getattr block hash ;;
      if startswith block_hash prefix then
        i <- getattr block index ;;
        n <- getattr block nonce ;;
        h' <- getattr block hash ;;
        print (Mined i n h' attempts) ;;;
        ret block
      else
        n <- getattr block nonce ;;
        update block (with_nonce (n + 1)) ;;;
        proof_of_work_loop fuel' prefix block (attempts + 1)
  end.

Definition proof_of_work (fuel : nat) (self : Blockchain) (block : loc) : M loc :=
  prefix <- str_mul (py "0") (difficulty self) ;;
  proof_of_work_loop fuel prefix block 0.

(** ** Blockchain.create_genesis_block; [now] is what [time.time()]
    returns. *)
Definition create_genesis_block (fuel : nat) (self : Blockchain) (now : float)
  : M loc :=
  genesis <- Block_init 0 now (py "Genesis Block") (py "0") ;;
  genesis <- proof_of_work fuel self genesis ;;
  ret genesis.

(** ** Blockchain.__init__: [difficulty] is assigned first, and the list
    is assigned once the genesis block has been mined. *)
Definition Blockchain_init (fuel : nat) (difficulty : Z) (now : float)
  : M Blockchain :=
  let self := mkBlockchain difficulty [] in
  genesis <- create_genesis_block fuel self now ;;
  ret (mkBlockchain difficulty [genesis]).

(** ** Blockchain.get_last_block *)
Definition get_last_block (self : Blockchain) : M loc :=
  getitem (chain self) (-1).

(** ** Blockchain.add_block: returns the mined block and the chain
    object after [append]. *)
Definition add_block (fuel : nat) (self : Blockchain) (data : pystr) (now : float)
  : M (loc * Blockchain) :=
  last <- get_last_block self ;;
  last_hash <- getattr last hash ;;
  new_block <- Block_init (Z.of_nat (length (chain self))) now data last_hash ;;
  mined <- proof_of_work fuel self new_block ;;
  ret (mined, mkBlockchain (difficulty self) (chain self ++ [mined])).

(** ** Blockchain.is_chain_valid: the body of the [for] loop, then the
    loop over [range(1, len(self.chain))]. *)
Definition range (lo hi : Z) : list Z :=
  map (fun k => lo + Z.of_nat k) (seq 0 (Z.to_nat (hi - lo))).

Fixpoint is_chain_valid_loop (self : Blockchain) (prefix : pystr) (idxs : list Z)
  : M bool :=
  match idxs with
  | [] => ret true
  | i :: idxs' =>
      current <- getitem (chain self) i ;;
      previous <- getitem (chain self) (i - 1) ;;
      current_previous_hash <- getattr current previous_hash ;;
      previous_hash' <- getattr previous hash ;;
      if negb (str_eqb current_previous_hash previous_hash') then
        print (PreviousHashMismatch i) ;;;
        ret false
      else
        recalculated_hash <- calculate_hash current ;;
        current_hash <- getattr current hash ;;
        if negb (str_eqb current_hash recalculated_hash) then
          print (HashMismatch i) ;;;
          ret false
        else
          current_hash <- getattr current hash ;;
          if negb (startswith current_hash prefix) then
            print (DifficultyNotSatisfied i prefix) ;;;
            ret false
          else
            is_chain_valid_loop self prefix idxs'
  end.

Definition is_chain_valid (self : Blockchain) : M bool :=
  prefix <- str_mul (py "0") (difficulty self) ;;
  is_chain_valid_loop self prefix (range 1 (Z.of_nat (length (chain self)))).

(** ** Blockchain.tamper_with_block *)
Definition tamper_with_block (self : Blockchain) (index : Z) (new_data : pystr)
  : M unit :=
  if (index <=? 0) || (Z.of_nat (length (chain self)) <=? index) then
    raise (IndexError "Impossible de modifier ce bloc (index hors limites ou genesis).")
  else
    b <- getitem (chain self) index ;;
    update b (with_data new_data) ;;;
    b <- getitem (chain self) index ;;
    h <- calculate_hash b ;;
    b <- getitem (chain self) index ;;
    update b (with_hash h).

(** ** Reading a chain in a store *)

(** The attributes of [self.chain[i]], for a position [i] counted from
    the start of the list. *)
Definition block_at (w : world) (self : Blockchain) (i : Z) : option Block :=
  if i <? 0 then None
  else match chain self !! Z.to_nat i with
       | Some l => heap w !! l
       | None => None
       end.

(** Every reference held by the chain is in the store. *)
Definition live (w : world) (self : Blockchain) : Prop :=
  forallb (fun l : loc => (l <? length (heap w))%nat) (chain self) = true.

(** The prefix that mining and validation ask for, and the error, if any,
    that building it raises. *)
Definition target (self : Blockchain) : pystr := repeat_str (py "0") (difficulty self).

Definition prefix_error (self : Blockchain) : option exn :=
  str_mul_error (py "0") (difficulty self).

(** The three checks of [is_chain_valid] on position [i]; the second one
    needs the text of the block to be encoded. *)
Definition link_ok (w : world) (self : Blockchain) (i : Z) : bool :=
  match block_at w self i, block_at w self (i - 1) with
  | Some current, Some previous =>
      str_eqb (previous_hash current) (hash previous)
  | _, _ => false
  end.

Definition hash_ok (w : world) (self : Blockchain) (i : Z) : bool :=
  match block_at w self i with
  | Some current =>
      encodable_block current && str_eqb (hash current) (digest_of current)
  | None => false
  end.

Definition difficulty_ok (w : world) (self : Blockchain) (i : Z) : bool :=
  match block_at w self i with
  | Some current => startswith (hash current) (target self)
  | None => false
  end.

Definition block_ok (w : world) (self : Blockchain) (i : Z) : bool :=
  link_ok w self i && hash_ok w self i && difficulty_ok w self i.

(** Position [i] passes the first check and its text cannot be encoded:
    recomputing its hash raises. *)
Definition encoding_fails (w : world) (self : Blockchain) (i : Z) : bool :=
  link_ok w self i &&
  match block_at w self i with
  | Some current => negb (encodable_block current)
  | None => false
  end.

(** The line printed for position [i] when one of its checks fails. *)
Definition first_failure (w : world) (self : Blockchain) (i : Z) : event :=
  if negb (link_ok w self i) then PreviousHashMismatch i
  else if negb (hash_ok w self i) then HashMismatch i
  else DifficultyNotSatisfied i (target self).

(** The attributes of [b] after [tamper_with_block] has rewritten it. *)
Definition tampered (new_data : pystr) (b : Block) : Block :=
  let b' := with_data new_data b in
  with_hash (digest_of b') b'.

(** A chain object and a store produced by the constructor followed by
    any number of calls to [add_block] that returned, each with its own
    payload, clock reading and fuel. *)
Inductive built : Blockchain -> world -> Prop :=
| built_init (fuel : nat) (d : Z) (now : float) (w0 w : world) (self : Blockchain) :
    Blockchain_init fuel d now w0 = Ok self w ->
    built self w
| built_add (fuel : nat) (data : pystr) (now : float) (mined : loc)
    (self self' : Blockchain) (w w' : world) :
    built self w ->
    add_block fuel self data now w = Ok (mined, self') w' ->
    built self' w'.

(** The same, with calls to [add_block] that raised in between: the chain
    object is then the one the call was made on. *)
Inductive grown : Blockchain -> world -> Prop :=
| grown_init (fuel : nat) (d : Z) (now : float) (w0 w : world) (self : Blockchain) :
    Blockchain_init fuel d now w0 = Ok self w ->
    grown self w
| grown_add (fuel : nat) (data : pystr) (now : float) (mined : loc)
    (self self' : Blockchain) (w w' : world) :
    grown self w ->
    add_block fuel self data now w = Ok (mined, self') w' ->
    grown self' w'
| grown_raise (fuel : nat) (data : pystr) (now : float) (e : exn)
    (self : Blockchain) (w w' : world) :
    grown self w ->
    add_block fuel self data now w = Raise e w' ->
    grown self w'.

End Blockchain.

Arguments Ok {float A} a w.
Arguments Raise {float A} e w.
Arguments Dangling {float A}.
Arguments OutOfFuel {float A}.
Arguments digest_of : simpl never.
Arguments repeat_str : simpl never.
Arguments str_int : simpl never.
Arguments sha256_hexdigest : simpl never.
Arguments utf8 : simpl never.
Arguments py : simpl never.
Arguments target : simpl never.

(** * Concrete runs

    For the runs below a timestamp is given by the text that [str]
    prints for it, and the store starts empty. *)

Definition world_of {float A} (r : @result float A) : @world float :=
  match r with
  | Ok _ w | Raise _ w => w
  | _ => mkWorld [] []
  end.

Definition w_empty : @world string := mkWorld [] [].

(** The machine of these runs can build strings of 2^32 characters. *)
Definition memory : Z := 2 ^ 32.

(** A string that holds one lone surrogate. *)
Definition lone_surrogate : pystr := [0xD800%N].

(** A block with payload ["T"], built but not mined yet. *)
Definition w_T : @world string :=
  Eval vm_compute in world_of (Block_init id 5 "1700000000.5" (py "T") (py "0") w_empty).

(** Difficulty 1: the constructor, then [add_block("A")] and
    [add_block("B")]. *)
Definition bc1 : Blockchain := mkBlockchain 1 [0%nat].
Definition w1 : @world string :=
  Eval vm_compute in world_of (Blockchain_init id memory 32 1 "1700000000.5" w_empty).

Definition bc2 : Blockchain := mkBlockchain 1 [0%nat; 1%nat].
Definition w2 : @world string :=
  Eval vm_compute in world_of (add_block id memory 64 bc1 (py "A") "1700000001.25" w1).

Definition bc3 : Blockchain := mkBlockchain 1 [0%nat; 1%nat; 2%nat].
Definition w3 : @world string :=
  Eval vm_compute in world_of (add_block id memory 64 bc2 (py "B") "1700000002.75" w2).

(** The same chain after [tamper_with_block(1, "X")]. *)
Definition w3_tampered : @world string :=
  Eval vm_compute in world_of (tamper_with_block id bc3 1 (py "X") w3).

(** Difficulty 0 and difficulty -1. *)
Definition bc_zero : Blockchain := mkBlockchain 0 [0%nat].
Definition w_zero : @world string :=
  Eval vm_compute in world_of (Blockchain_init id memory 1 0 "1700000000.5" w_empty).

(** Difficulty 0 again, with two blocks added, before and after
    [tamper_with_block(1, "X")]. *)
Definition bc_zero3 : Blockchain := mkBlockchain 0 [0%nat; 1%nat; 2%nat].
Definition w_zero3 : @world string :=
  Eval vm_compute in
    world_of (add_block id memory 1 (mkBlockchain 0 [0%nat; 1%nat]) (py "B") "1700000002.75"
      (world_of (add_block id memory 1 bc_zero (py "A") "1700000001.25" w_zero))).
Definition w_zero3_tampered : @world string :=
  Eval vm_compute in world_of (tamper_with_block id bc_zero3 1 (py "X") w_zero3).

(** A one-block chain whose only block was never hashed nor mined. *)
Definition bc_bogus : Blockchain := mkBlockchain 3 [0%nat].
Definition w_bogus : @world string :=
  mkWorld [mkBlock 7 "yesterday" (py "junk") (py "not-a-digest") (-3) (py "ffff")] [].

Definition bc_negative : Blockchain := mkBlockchain (-1) [0%nat].
Definition w_negative : @world string :=
  Eval vm_compute in world_of (Blockchain_init id memory 1 (-1) "1700000000.5" w_empty).

(** The block with payload ["T"] after mining at difficulty 1. *)
Definition w_T_mined : @world string :=
  Eval vm_compute in world_of (proof_of_work id memory 16 bc1 0%nat w_T).

(** The chain of difficulty 1 with its last block rewritten, and then
    mined again. *)
Definition w3_last_tampered : @world string :=
  Eval vm_compute in world_of (tamper_with_block id bc3 2 (py "X") w3).
Definition w3_last_remined : @world string :=
  Eval vm_compute in world_of (proof_of_work id memory 64 bc3 2%nat w3_last_tampered).

(** The chain of difficulty 0 with its last block rewritten. *)
Definition w_zero3_last_tampered : @world string :=
  Eval vm_compute in world_of (tamper_with_block id bc_zero3 2 (py "X") w_zero3).

(** A block added to the chain of difficulty 1 whose block 1 was rewritten. *)
Definition bc4 : Blockchain := mkBlockchain 1 [0%nat; 1%nat; 2%nat; 3%nat].
Definition w4_tampered : @world string :=
  Eval vm_compute in world_of (add_block id memory 64 bc3 (py "C") "1700000003.5" w3_tampered).

(** The chain of difficulty 1 after [tamper_with_block(1, s)] with [s] a
    lone surrogate: the call raises once the data is written. *)
Definition w3_surrogate : @world string :=
  Eval vm_compute in world_of (tamper_with_block id bc3 1 lone_surrogate w3).

(** The store after [add_block(s)] has raised on the one-block chain. *)
Definition w1_surrogate : @world string :=
  Eval vm_compute in world_of (add_block id memory 64 bc1 lone_surrogate "1700000001.25" w1).

(** The chain of difficulty 1 with the stored hash of its genesis block
    replaced. *)
Definition w3_genesis_hash : @world string :=
  mkWorld (<[0%nat :=
             mkBlock 0 "1700000000.5" (py "Genesis Block") (py "0") 17 (py "00")]>
             (heap w3)) (stdout w3).

(** One-block chain objects whose difficulty does not fit an index-sized
    integer, and whose prefix does not fit the memory. *)
Definition bc_huge : Blockchain := mkBlockchain (2 ^ 63) [0%nat].
Definition bc_long : Blockchain := mkBlockchain (2 ^ 62) [0%nat].

(** The chain of difficulty 0 after [tamper_with_block(1, s)] has raised. *)
Definition w_zero3_surrogate : @world string :=
  Eval vm_compute in world_of (tamper_with_block id bc_zero3 1 lone_surrogate w_zero3).

Section Properties.

Context {float : Type} (str_float : float -> string) (capacity : Z).

Abbreviation Block := (@Block float).
Abbreviation world := (@world float).
Abbreviation M := (@M float).
Abbreviation block_string := (block_string str_float).
Abbreviation encodable_block := (encodable_block str_float).
Abbreviation digest_of := (digest_of str_float).
Abbreviation calculate_hash := (calculate_hash str_float).
Abbreviation sealed := (sealed str_float).
Abbreviation new_block := (new_block str_float).
Abbreviation hash_ok := (hash_ok str_float).
Abbreviation block_ok := (block_ok str_float).
Abbreviation encoding_fails := (encoding_fails str_float).
Abbreviation first_failure := (first_failure str_float).
Abbreviation tampered := (tampered str_float).
Abbreviation built := (built str_float capacity).
Abbreviation grown := (grown str_float capacity).
Abbreviation Block_init := (Block_init str_float).
Abbreviation proof_of_work_loop := (proof_of_work_loop str_float).
Abbreviation proof_of_work := (proof_of_work str_float capacity).
Abbreviation create_genesis_block := (create_genesis_block str_float capacity).
Abbreviation Blockchain_init := (Blockchain_init str_float capacity).
Abbreviation add_block := (add_block str_float capacity).
Abbreviation is_chain_valid_loop := (is_chain_valid_loop str_float).
Abbreviation is_chain_valid := (is_chain_valid str_float capacity).
Abbreviation tamper_with_block := (tamper_with_block str_float).
Abbreviation str_mul_error := (str_mul_error capacity).
Abbreviation str_mul := (str_mul capacity).
Abbreviation prefix_error := (prefix_error capacity).

(** The messages of the exceptions. *)
Abbreviation overflow :=
  (OverflowError "cannot fit 'int' into an index-sized integer").
Abbreviation out_of_range :=
  (IndexError "Impossible de modifier ce bloc (index hors limites ou genesis).").

(** ** Running the primitive actions *)

Lemma run_ret {A B} (a : A) (k : A -> M B) (w : world) :
  bind (ret a) k w = k a w.
Proof. reflexivity. Qed.

Lemma run_raise {A B} (e : exn) (k : A -> M B) (w : world) :
  bind (raise e) k w = Raise e w.
Proof. reflexivity. Qed.

Lemma run_print {B} (e : event) (k : unit -> M B) (w : world) :
  bind (print e) k w = k tt (mkWorld (heap w) (stdout w ++ [e])).
Proof. reflexivity. Qed.

Lemma run_alloc {B} (b : Block) (k : loc -> M B) (w : world) :
  bind (alloc b) k w = k (length (heap w)) (mkWorld (heap w ++ [b]) (stdout w)).
Proof. reflexivity. Qed.

Lemma run_load {B} (l : loc) (b : Block) (k : Block -> M B) (w : world) :
  heap w !! l = Some b -> bind (load l) k w = k b w.
Proof. intros H. unfold bind, load. now rewrite H. Qed.

Lemma run_getattr {A B} (l : loc) (field : Block -> A) (b : Block)
    (k : A -> M B) (w : world) :
  heap w !! l = Some b -> bind (getattr l field) k w = k (field b) w.
Proof. intros H. unfold bind, getattr, bind, load. now rewrite H. Qed.

Lemma run_update {B} (l : loc) (f : Block -> Block) (b : Block)
    (k : unit -> M B) (w : world) :
  heap w !! l = Some b ->
  bind (update l f) k w = k tt (mkWorld (<[l := f b]> (heap w)) (stdout w)).
Proof. intros H. unfold bind, update. now rewrite H. Qed.

Lemma run_dangling {A B} (m : M A) (k : A -> M B) (w : world) :
  m w = Dangling -> bind m k w = Dangling.
Proof. intros H. unfold bind. now rewrite H. Qed.

Lemma run_raised {A B} (m : M A) (k : A -> M B) (e : exn) (w w' : world) :
  m w = Raise e w' -> bind m k w = Raise e w'.
Proof. intros H. unfold bind. now rewrite H. Qed.

Lemma load_None (l : loc) (w : world) : heap w !! l = None -> load l w = Dangling.
Proof. intros H. unfold load. now rewrite H. Qed.

Lemma run_str_mul {B} (s : pystr) (n : Z) (k : pystr -> M B) (w : world) :
  bind (str_mul s n) k w
  = match str_mul_error s n with
    | Some e => Raise e w
    | None => k (repeat_str s n) w
    end.
Proof. unfold bind, str_mul. now destruct (str_mul_error s n). Qed.

(** ** Strings *)

Lemma str_eqb_refl (a : pystr) : str_eqb a a = true.
Proof. induction a as [|x a IH]; [reflexivity|]. cbn. now rewrite N.eqb_refl. Qed.

Lemma str_eqb_eq (a b : pystr) : str_eqb a b = true <-> a = b.
Proof.
  split; [|intros ->; apply str_eqb_refl].
  revert b. induction a as [|x a IH]; intros [|y b] H; try discriminate; [reflexivity|].
  cbn in H. apply andb_prop in H as [Hx Hab].
  apply N.eqb_eq in Hx. subst y. f_equal. now apply IH.
Qed.

Lemma str_eqb_neq (a b : pystr) : str_eqb a b = false <-> a <> b.
Proof.
  split.
  - intros H Heq. apply str_eqb_eq in Heq. congruence.
  - intros H. destruct (str_eqb a b) eqn:E; [|reflexivity].
    apply str_eqb_eq in E. contradiction.
Qed.

Lemma startswith_empty (s : pystr) : startswith s [] = true.
Proof. reflexivity. Qed.

Lemma repeat_str_nonpos (s : pystr) (n : Z) : n <= 0 -> repeat_str s n = [].
Proof.
  intros Hn. unfold repeat_str. replace (Z.to_nat n) with O by lia. reflexivity.
Qed.

Lemma repeat_str_zeros (d : Z) : repeat_str (py "0") d = repeat 48%N (Z.to_nat d).
Proof.
  unfold repeat_str. induction (Z.to_nat d) as [|n IH]; [reflexivity|].
  cbn [repeat concat]. now rewrite IH.
Qed.

Lemma startswith_zeros (n : nat) :
  forall s : pystr, startswith s (repeat 48%N n) = true -> (n <= leading_zeros s)%nat.
Proof.
  induction n as [|n IH]; intros s H; [lia|].
  cbn [repeat] in H. destruct s as [|c s']; [discriminate|].
  cbn [startswith] in H. apply andb_prop in H as [Hc Hs].
  apply N.eqb_eq in Hc. subst c. cbn [leading_zeros]. rewrite N.eqb_refl.
  apply le_n_S, IH, Hs.
Qed.

Lemma startswith_repeat_zeros (s : pystr) (d : Z) :
  startswith s (repeat_str (py "0") d) = true -> (Z.to_nat d <= leading_zeros s)%nat.
Proof. rewrite repeat_str_zeros. apply startswith_zeros. Qed.

Lemma startswith_length (s p : pystr) :
  startswith s p = true -> (length p <= length s)%nat.
Proof.
  revert s. induction p as [|a p IH]; intros s H; [cbn; lia|].
  destruct s as [|c s']; [discriminate|]. cbn [startswith] in H.
  apply andb_prop in H as [_ H]. cbn. apply le_n_S, IH, H.
Qed.

Lemma repeat_str_zeros_length (d : Z) : length (repeat_str (py "0") d) = Z.to_nat d.
Proof. rewrite repeat_str_zeros. apply repeat_length. Qed.

Lemma py_length (s : string) : length (py s) = String.length s.
Proof.
  unfold py. rewrite length_map. induction s as [|a s IH]; [reflexivity|].
  cbn. now rewrite IH.
Qed.

(** ** What can be encoded *)

Lemma encodable_app (a b : pystr) : encodable (a ++ b) = encodable a && encodable b.
Proof. apply forallb_app. Qed.

Lemma encodable_py (s : string) : encodable (py s) = true.
Proof.
  unfold encodable, py. apply forallb_forall. intros c Hc.
  apply in_map_iff in Hc as (a & <- & _).
  pose proof (N_ascii_bounded a) as Ha. unfold is_surrogate.
  destruct (N.leb_spec 0xD800 (N_of_ascii a)) as [Hle|_]; [lia|reflexivity].
Qed.

Lemma encodable_block_eq (b : Block) :
  encodable_block b = encodable (data b) && encodable (previous_hash b).
Proof.
  unfold encodable_block, block_string. rewrite !encodable_app.
  unfold str_int. rewrite !encodable_py. cbn [andb]. now rewrite andb_true_r.
Qed.

Lemma encodable_block_with_hash (h : pystr) (b : Block) :
  encodable_block (with_hash h b) = encodable_block b.
Proof. now rewrite !encodable_block_eq. Qed.

Lemma encodable_block_with_nonce (n : Z) (b : Block) :
  encodable_block (with_nonce n b) = encodable_block b.
Proof. now rewrite !encodable_block_eq. Qed.

Lemma encodable_digest (b : Block) : encodable (digest_of b) = true.
Proof. apply encodable_py. Qed.

(** ** Running [calculate_hash] *)

Lemma calculate_hash_Some (l : loc) (b : Block) (w : world) :
  heap w !! l = Some b ->
  calculate_hash l w
  = if encodable_block b then Ok (digest_of b) w else Raise UnicodeEncodeError w.
Proof.
  intros H. unfold calculate_hash, bind, load, encode. rewrite H.
  fold (encodable_block b). now destruct (encodable_block b).
Qed.

Lemma calculate_hash_None (l : loc) (w : world) :
  heap w !! l = None -> calculate_hash l w = Dangling.
Proof. intros H. unfold calculate_hash, bind, load. now rewrite H. Qed.

Lemma run_calculate_hash {B} (l : loc) (b : Block) (k : pystr -> M B) (w : world) :
  heap w !! l = Some b -> encodable_block b = true ->
  bind (calculate_hash l) k w = k (digest_of b) w.
Proof.
  intros H He. unfold bind at 1. now rewrite (calculate_hash_Some _ _ _ H), He.
Qed.

Lemma run_calculate_hash_raise {B} (l : loc) (b : Block) (k : pystr -> M B)
    (w : world) :
  heap w !! l = Some b -> encodable_block b = false ->
  bind (calculate_hash l) k w = Raise UnicodeEncodeError w.
Proof.
  intros H He. unfold bind at 1. now rewrite (calculate_hash_Some _ _ _ H), He.
Qed.

(** ** The digest depends on the five hashed attributes only *)

Lemma digest_of_ext (b b' : Block) :
  index b = index b' -> timestamp b = timestamp b' -> data b = data b' ->
  previous_hash b = previous_hash b' -> nonce b = nonce b' ->
  digest_of b = digest_of b'.
Proof.
  intros Hi Ht Hd Hp Hn. unfold digest_of, block_string.
  now rewrite Hi, Ht, Hd, Hp, Hn.
Qed.

Lemma digest_of_with_hash (h : pystr) (b : Block) :
  digest_of (with_hash h b) = digest_of b.
Proof. now apply digest_of_ext. Qed.

Lemma sealed_0 (b : Block) : sealed b 0 = with_hash (digest_of b) b.
Proof.
  unfold sealed. replace (with_nonce (nonce b + 0) b) with b; [reflexivity|].
  destruct b; unfold with_nonce; cbn. f_equal. lia.
Qed.

Lemma sealed_step (h : pystr) (b : Block) (k : Z) :
  sealed (with_nonce (nonce b + 1) (with_hash h b)) k = sealed b (1 + k).
Proof.
  unfold sealed. destruct b as [i t d p n h0]. unfold with_nonce, with_hash; cbn.
  replace (n + 1 + k) with (n + (1 + k)) by lia. f_equal.
Qed.

Lemma digest_of_step (h : pystr) (b : Block) (j : Z) :
  digest_of (with_nonce (nonce (with_nonce (nonce b + 1) (with_hash h b)) + j)
               (with_nonce (nonce b + 1) (with_hash h b)))
  = digest_of (with_nonce (nonce b + (1 + j)) b).
Proof. apply digest_of_ext; cbn; try reflexivity. lia. Qed.

Lemma sealed_hash (b : Block) (k : Z) : hash (sealed b k) = digest_of (sealed b k).
Proof. unfold sealed. cbn [hash with_hash]. now rewrite digest_of_with_hash. Qed.

Lemma sealed_digest (b : Block) (k : Z) :
  hash (sealed b k) = digest_of (with_nonce (nonce b + k) b).
Proof. reflexivity. Qed.

Lemma encodable_block_sealed (b : Block) (k : Z) :
  encodable_block (sealed b k) = encodable_block b.
Proof. now rewrite !encodable_block_eq. Qed.

Lemma lookup_insert_same (h : list Block) (l : loc) (b b' : Block) :
  h !! l = Some b -> <[l := b']> h !! l = Some b'.
Proof. intros H. apply list_lookup_insert_eq. eapply lookup_lt_Some, H. Qed.

Lemma lookup_snoc {A} (xs : list A) (x : A) : (xs ++ [x]) !! length xs = Some x.
Proof. rewrite lookup_app_r by lia. now rewrite Nat.sub_diag. Qed.

(** ** The digest is 64 lowercase hexadecimal digits *)

Lemma hex_digit_lower (n : Z) : is_lower_hex (N_of_ascii (SHA256.hex_digit n)) = true.
Proof.
  unfold SHA256.hex_digit. change 0xf with (Z.ones 4).
  rewrite Z.land_ones by lia.
  pose proof (Z.mod_pos_bound n (2 ^ 4) ltac:(lia)) as Hb.
  set (m := n mod 2 ^ 4) in *.
  assert (Hm : (Z.to_nat m < 16)%nat) by lia.
  generalize dependent (Z.to_nat m). intros k Hk.
  do 16 (destruct k as [|k]; [reflexivity|]). lia.
Qed.

Lemma hexdigest_length (s : SHA256.state) : length (py (SHA256.hexdigest s)) = 64%nat.
Proof. rewrite py_length. reflexivity. Qed.

Lemma hexdigest_lower (s : SHA256.state) :
  forallb is_lower_hex (py (SHA256.hexdigest s)) = true.
Proof.
  unfold py, SHA256.hexdigest, SHA256.hex32.
  cbn [list_ascii_of_string map forallb]. now rewrite !hex_digit_lower.
Qed.

Lemma sha256_hexdigest_length (bytes : list byte) :
  length (sha256_hexdigest bytes) = 64%nat.
Proof. apply hexdigest_length. Qed.

Lemma sha256_hexdigest_lower (bytes : list byte) :
  forallb is_lower_hex (sha256_hexdigest bytes) = true.
Proof. apply hexdigest_lower. Qed.

Lemma digest_of_length (b : Block) : length (digest_of b) = 64%nat.
Proof. apply hexdigest_length. Qed.

(** ** The mining loop, whatever its outcome *)

Lemma proof_of_work_loop_spec (fuel : nat) :
  forall (prefix : pystr) (l : loc) (att : Z) (w : world),
    match proof_of_work_loop fuel prefix l att w with
    | Ok r w' =>
        exists b k,
          heap w !! l = Some b /\ encodable_block b = true /\
          r = l /\ 0 <= k < Z.of_nat fuel /\
          (forall j, 0 <= j < k ->
             startswith (digest_of (with_nonce (nonce b + j) b)) prefix = false) /\
          startswith (hash (sealed b k)) prefix = true /\
          w' = mkWorld (<[l := sealed b k]> (heap w))
                 (stdout w ++ [Mined (index b) (nonce b + k) (hash (sealed b k)) (att + k)])
    | Raise e w' =>
        exists b,
          heap w !! l = Some b /\ encodable_block b = false /\
          e = UnicodeEncodeError /\ w' = w
    | Dangling => heap w !! l = None
    | OutOfFuel =>
        forall b, heap w !! l = Some b ->
          forall j, 0 <= j < Z.of_nat fuel ->
            encodable_block b = true /\
            startswith (digest_of (with_nonce (nonce b + j) b)) prefix = false
    end.
Proof.
  induction fuel as [|fuel IH]; intros prefix l att w.
  { cbn. intros b _ j Hj. lia. }
  cbn [proof_of_work_loop].
  destruct (heap w !! l) as [b|] eqn:Hl.
  2:{ rewrite run_dangling; [reflexivity | now apply calculate_hash_None]. }
  destruct (encodable_block b) eqn:Henc.
  2:{ rewrite (run_calculate_hash_raise _ _ _ _ Hl Henc). now exists b. }
  rewrite (run_calculate_hash _ _ _ _ Hl Henc).
  rewrite (run_update _ _ _ _ _ Hl). cbn [heap stdout].
  pose proof (lookup_insert_same _ _ _ (with_hash (digest_of b) b) Hl) as Hl1.
  set (w1 := mkWorld (<[l:=with_hash (digest_of b) b]> (heap w)) (stdout w)).
  change (heap w1 !! l = Some (with_hash (digest_of b) b)) in Hl1.
  rewrite (run_getattr _ _ _ _ _ Hl1). cbn [hash with_hash].
  destruct (startswith (digest_of b) prefix) eqn:Hp.
  - rewrite !(run_getattr _ _ _ _ _ Hl1), run_print. unfold ret.
    exists b, 0. rewrite sealed_0. cbn [heap stdout w1 index nonce hash with_hash].
    split; [reflexivity|]. split; [exact Henc|]. split; [reflexivity|]. split; [lia|].
    split; [intros j Hj; lia|]. split; [assumption|].
    now rewrite !Z.add_0_r.
  - rewrite (run_getattr _ _ _ _ _ Hl1), (run_update _ _ _ _ _ Hl1).
    cbn [heap stdout w1 nonce with_hash]. rewrite list_insert_insert_eq.
    set (b1 := with_nonce (nonce b + 1) (with_hash (digest_of b) b)).
    pose proof (lookup_insert_same _ _ _ b1 Hl) as Hl2.
    assert (Henc1 : encodable_block b1 = true).
    { unfold b1. now rewrite encodable_block_with_nonce, encodable_block_with_hash. }
    match goal with
    | |- match proof_of_work_loop _ _ _ _ ?w2 with _ => _ end =>
        specialize (IH prefix l (att + 1) w2);
        destruct (proof_of_work_loop fuel prefix l (att + 1) w2) as [r w'|e w'| |]
    end; cbn [heap stdout] in IH.
    + destruct IH as (b' & k & Hb' & _ & -> & Hk & Hmin & Hpre & ->).
      assert (Some b1 = Some b') as [= <-] by (rewrite <- Hl2; exact Hb').
      exists b, (1 + k). unfold b1 in *. rewrite sealed_step in *.
      split; [reflexivity|]. split; [exact Henc|]. split; [reflexivity|]. split; [lia|].
      split; [|split; [assumption|]].
      * intros j Hj. destruct (Z.eq_dec j 0) as [->|Hj0].
        { rewrite <- Hp. f_equal. apply digest_of_ext; cbn; try reflexivity. lia. }
        specialize (Hmin (j - 1) ltac:(lia)). rewrite digest_of_step in Hmin.
        now replace (1 + (j - 1)) with j in Hmin by lia.
      * cbn [index nonce with_nonce with_hash].
        rewrite list_insert_insert_eq. do 4 f_equal; lia.
    + destruct IH as (b' & Hb' & Hbad & _).
      assert (Some b1 = Some b') as [= <-] by (rewrite <- Hl2; exact Hb').
      rewrite Henc1 in Hbad. discriminate.
    + assert (Some b1 = None) as [=] by (rewrite <- Hl2; exact IH).
    + intros b' [= <-] j Hj. split; [exact Henc|].
      destruct (Z.eq_dec j 0) as [->|Hj0].
      { rewrite <- Hp. f_equal. apply digest_of_ext; cbn; try reflexivity. lia. }
      destruct (IH b1 Hl2 (j - 1) ltac:(lia)) as [_ IH']. unfold b1 in IH'.
      rewrite digest_of_step in IH'.
      now replace (1 + (j - 1)) with j in IH' by lia.
Qed.

(** ** [proof_of_work]: the prefix, then the loop *)

Lemma proof_of_work_unfold (fuel : nat) (self : Blockchain) (l : loc) (w : world) :
  proof_of_work fuel self l w
  = match prefix_error self with
    | Some e => Raise e w
    | None => proof_of_work_loop fuel (target self) l 0 w
    end.
Proof. unfold proof_of_work. now rewrite run_str_mul. Qed.

Lemma proof_of_work_spec (fuel : nat) (self : Blockchain) (l : loc) (w : world) :
  match proof_of_work fuel self l w with
  | Ok r w' =>
      prefix_error self = None /\
      exists b k,
        heap w !! l = Some b /\ encodable_block b = true /\
        r = l /\ 0 <= k < Z.of_nat fuel /\
        (forall j, 0 <= j < k ->
           startswith (digest_of (with_nonce (nonce b + j) b)) (target self) = false) /\
        startswith (hash (sealed b k)) (target self) = true /\
        w' = mkWorld (<[l := sealed b k]> (heap w))
               (stdout w ++ [Mined (index b) (nonce b + k) (hash (sealed b k)) k])
  | Raise e w' =>
      w' = w /\
      (prefix_error self = Some e \/
       (prefix_error self = None /\
        exists b, heap w !! l = Some b /\ encodable_block b = false /\
                  e = UnicodeEncodeError))
  | Dangling => prefix_error self = None /\ heap w !! l = None
  | OutOfFuel =>
      prefix_error self = None /\
      forall b, heap w !! l = Some b ->
        forall j, 0 <= j < Z.of_nat fuel ->
          encodable_block b = true /\
          startswith (digest_of (with_nonce (nonce b + j) b)) (target self) = false
  end.
Proof.
  rewrite proof_of_work_unfold.
  destruct (prefix_error self) as [e0|] eqn:Hr.
  { split; [reflexivity|]. now left. }
  pose proof (proof_of_work_loop_spec fuel (target self) l 0 w) as Hspec.
  destruct (proof_of_work_loop fuel (target self) l 0 w) as [r w'|e w'| |].
  - split; [reflexivity|].
    destruct Hspec as (b & k & Hb & Henc & -> & Hk & Hmin & Hpre & ->).
    exists b, k. now rewrite Z.add_0_l.
  - destruct Hspec as (b & Hb & Henc & -> & ->). split; [reflexivity|]. right.
    split; [reflexivity|]. now exists b.
  - now split.
  - now split.
Qed.

(** ** When the prefix can be built *)

Lemma prefix_error_eq (self : Blockchain) :
  prefix_error self
  = if negb (in_index_range (difficulty self)) then Some overflow
    else if (0 <? difficulty self) && (capacity <? difficulty self) then Some MemoryError
    else None.
Proof.
  unfold prefix_error, str_mul_error. cbv zeta.
  change (Z.of_nat (length (py "0"))) with 1. now rewrite Z.mul_1_l.
Qed.

Lemma in_index_range_spec (d : Z) :
  in_index_range d = true <-> - 2 ^ 63 <= d < 2 ^ 63.
Proof.
  unfold in_index_range.
  destruct (Z.leb_spec (- 2 ^ 63) d), (Z.ltb_spec d (2 ^ 63)); cbn [andb];
    split; intros Hd; try discriminate; try reflexivity; lia.
Qed.

Lemma in_index_range_false (d : Z) :
  d < - 2 ^ 63 \/ 2 ^ 63 <= d -> in_index_range d = false.
Proof.
  intros Hd. destruct (in_index_range d) eqn:E; [|reflexivity].
  apply in_index_range_spec in E. lia.
Qed.

Lemma prefix_error_overflow (self : Blockchain) :
  difficulty self < - 2 ^ 63 \/ 2 ^ 63 <= difficulty self ->
  prefix_error self = Some overflow.
Proof. intros Hd. now rewrite prefix_error_eq, in_index_range_false. Qed.

Lemma prefix_error_memory (self : Blockchain) :
  0 < difficulty self < 2 ^ 63 -> capacity < difficulty self ->
  prefix_error self = Some MemoryError.
Proof.
  intros Hd Hc. rewrite prefix_error_eq.
  rewrite (proj2 (in_index_range_spec _)) by lia. cbn [negb].
  destruct (Z.ltb_spec 0 (difficulty self)); [|lia].
  destruct (Z.ltb_spec capacity (difficulty self)); [reflexivity|lia].
Qed.

Lemma prefix_error_fits (self : Blockchain) :
  - 2 ^ 63 <= difficulty self < 2 ^ 63 ->
  difficulty self <= 0 \/ difficulty self <= capacity ->
  prefix_error self = None.
Proof.
  intros Hd Hc. rewrite prefix_error_eq.
  rewrite (proj2 (in_index_range_spec _)) by lia. cbn [negb].
  destruct (Z.ltb_spec 0 (difficulty self)), (Z.ltb_spec capacity (difficulty self));
    cbn [andb]; try reflexivity. lia.
Qed.

Lemma prefix_error_None (self : Blockchain) :
  prefix_error self = None ->
  - 2 ^ 63 <= difficulty self < 2 ^ 63 /\
  (difficulty self <= 0 \/ difficulty self <= capacity).
Proof.
  rewrite prefix_error_eq.
  destruct (in_index_range (difficulty self)) eqn:Hr; [|discriminate]. cbn [negb].
  apply in_index_range_spec in Hr.
  destruct (Z.ltb_spec 0 (difficulty self)), (Z.ltb_spec capacity (difficulty self));
    cbn [andb]; try discriminate; intros _; split; lia.
Qed.

Lemma prefix_error_nonpos (self : Blockchain) :
  - 2 ^ 63 <= difficulty self <= 0 -> prefix_error self = None.
Proof. intros Hd. apply prefix_error_fits; lia. Qed.

(** ** Mining against the empty prefix *)

Lemma target_nonpos (self : Blockchain) : difficulty self <= 0 -> target self = [].
Proof. intros H. unfold target. now apply repeat_str_nonpos. Qed.

Lemma proof_of_work_empty_prefix (fuel : nat) (self : Blockchain) (l : loc)
    (b : Block) (w : world) :
  - 2 ^ 63 <= difficulty self <= 0 ->
  heap w !! l = Some b ->
  proof_of_work (S fuel) self l w
  = if encodable_block b
    then Ok l (mkWorld (<[l := with_hash (digest_of b) b]> (heap w))
                 (stdout w ++ [Mined (index b) (nonce b) (digest_of b) 0]))
    else Raise UnicodeEncodeError w.
Proof.
  intros Hd Hl. rewrite proof_of_work_unfold.
  rewrite prefix_error_nonpos by lia. rewrite target_nonpos by lia.
  cbn [proof_of_work_loop].
  destruct (encodable_block b) eqn:Henc.
  2:{ now rewrite (run_calculate_hash_raise _ _ _ _ Hl Henc). }
  rewrite (run_calculate_hash _ _ _ _ Hl Henc), (run_update _ _ _ _ _ Hl).
  pose proof (lookup_insert_same _ _ _ (with_hash (digest_of b) b) Hl) as Hl1.
  set (w2 := mkWorld _ _).
  change (heap w2 !! l = Some (with_hash (digest_of b) b)) in Hl1.
  rewrite (run_getattr _ _ _ _ _ Hl1), startswith_empty.
  now rewrite !(run_getattr _ _ _ _ _ Hl1), run_print.
Qed.

(** Mining returns as soon as the fuel reaches a nonce whose digest has
    the prefix: running out of fuel means that no nonce tried so far
    qualifies. *)
Lemma proof_of_work_returns (self : Blockchain) (l : loc) (b : Block) (w : world)
    (k : Z) (fuel : nat) :
  prefix_error self = None ->
  heap w !! l = Some b ->
  encodable_block b = true ->
  0 <= k < Z.of_nat fuel ->
  startswith (digest_of (with_nonce (nonce b + k) b)) (target self) = true ->
  exists w', proof_of_work fuel self l w = Ok l w'.
Proof.
  intros Hr Hb Henc Hk Hpre.
  pose proof (proof_of_work_spec fuel self l w) as Hspec.
  destruct (proof_of_work fuel self l w) as [r w'|e w'| |].
  - destruct Hspec as (_ & _ & _ & _ & _ & -> & _). now exists w'.
  - destruct Hspec as (_ & [Hbad|(_ & b' & Hb' & Hbad & _)]); congruence.
  - destruct Hspec; congruence.
  - destruct Hspec as [_ Hspec]. destruct (Hspec b Hb k Hk). congruence.
Qed.

Lemma proof_of_work_out_of_fuel
    (fuel : nat) (self : Blockchain) (block : loc) (b : Block) (w : world) :
  prefix_error self = None ->
  heap w !! block = Some b ->
  encodable_block b = true ->
  (forall k, 0 <= k < Z.of_nat fuel ->
     startswith (digest_of (with_nonce (nonce b + k) b)) (target self) = false) ->
  proof_of_work fuel self block w = OutOfFuel.
Proof.
  intros Hr Hb Henc Hnone.
  pose proof (proof_of_work_spec fuel self block w) as Hspec.
  destruct (proof_of_work fuel self block w) as [r w'|e w'| |].
  - destruct Hspec as (_ & b0 & k & Hb0 & _ & _ & Hk & _ & Hpre & _).
    assert (b0 = b) as -> by congruence.
    rewrite sealed_digest, (Hnone k Hk) in Hpre. discriminate.
  - destruct Hspec as (_ & [Hbad|(_ & b' & Hb' & Hbad & _)]); congruence.
  - destruct Hspec; congruence.
  - reflexivity.
Qed.

(** ** Block construction *)

Lemma Block_init_spec (idx : Z) (ts : float) (d prev : pystr) (w : world) :
  Block_init idx ts d prev w
  = if encodable d && encodable prev
    then Ok (length (heap w))
           (mkWorld (heap w ++ [new_block idx ts d prev]) (stdout w))
    else Raise UnicodeEncodeError
           (mkWorld (heap w ++ [mkBlock idx ts d prev 0 []]) (stdout w)).
Proof.
  unfold Block_init. rewrite run_alloc.
  set (b := mkBlock idx ts d prev 0 []).
  assert (Hl : heap (mkWorld (heap w ++ [b]) (stdout w)) !! length (heap w) = Some b)
    by apply lookup_snoc.
  assert (Henc : encodable_block b = encodable d && encodable prev)
    by apply encodable_block_eq.
  destruct (encodable d && encodable prev).
  2:{ now rewrite (run_calculate_hash_raise _ _ _ _ Hl Henc). }
  rewrite (run_calculate_hash _ _ _ _ Hl Henc), (run_update _ _ _ _ _ Hl).
  unfold ret. cbn [heap stdout]. f_equal. f_equal.
  rewrite insert_app_r_alt by lia. now rewrite Nat.sub_diag.
Qed.

Lemma encodable_block_new_block (idx : Z) (ts : float) (d prev : pystr) :
  encodable_block (new_block idx ts d prev) = encodable d && encodable prev.
Proof. apply encodable_block_eq. Qed.

(** ** Lists and ranges *)

Lemma run_getitem {A B} (xs : list A) (i : Z) (x : A) (k : A -> M B) (w : world) :
  0 <= i -> xs !! Z.to_nat i = Some x -> bind (getitem xs i) k w = k x w.
Proof.
  intros Hi Hx. pose proof (lookup_lt_Some _ _ _ Hx) as Hlt.
  unfold getitem. cbv zeta.
  destruct (Z.ltb_spec i 0) as [|_]; [lia|].
  destruct (Z.ltb_spec i 0) as [|_]; [lia|].
  destruct (Z.leb_spec (Z.of_nat (length xs)) i) as [|_]; [lia|].
  cbn [orb]. now rewrite Hx.
Qed.

Lemma getitem_last {A} (xs : list A) (w : world) :
  getitem xs (-1) w
  = match xs !! (length xs - 1)%nat with
    | Some x => Ok x w
    | None => Raise (IndexError "list index out of range") w
    end.
Proof.
  unfold getitem. cbv zeta.
  destruct (Z.ltb_spec (-1) 0) as [_|]; [|lia].
  destruct xs as [|x xs'] eqn:Hxs; [reflexivity|]. rewrite <- Hxs.
  assert (Hlen : (0 < length xs)%nat) by (rewrite Hxs; cbn; lia).
  destruct (Z.ltb_spec (-1 + Z.of_nat (length xs)) 0) as [|_]; [lia|].
  destruct (Z.leb_spec (Z.of_nat (length xs)) (-1 + Z.of_nat (length xs))) as [|_];
    [lia|].
  cbn [orb]. replace (Z.to_nat (-1 + Z.of_nat (length xs))) with (length xs - 1)%nat by lia.
  destruct (lookup_lt_is_Some_2 xs (length xs - 1)%nat ltac:(lia)) as [y Hy].
  now rewrite Hy.
Qed.

Lemma range_nil (lo hi : Z) : hi <= lo -> range lo hi = [].
Proof. intros H. unfold range. now replace (Z.to_nat (hi - lo)) with O by lia. Qed.

Lemma range_cons (lo hi : Z) : lo < hi -> range lo hi = lo :: range (lo + 1) hi.
Proof.
  intros H. unfold range.
  replace (Z.to_nat (hi - lo)) with (S (Z.to_nat (hi - (lo + 1)))) by lia.
  cbn [seq map]. f_equal; [lia|].
  rewrite <- seq_shift, map_map. apply map_ext. intros k. lia.
Qed.

(** ** Reading blocks through the chain *)

Lemma block_at_Some (w : world) (self : Blockchain) (i : Z) (l : loc) (b : Block) :
  0 <= i -> chain self !! Z.to_nat i = Some l -> heap w !! l = Some b ->
  block_at w self i = Some b.
Proof.
  intros Hi Hl Hb. unfold block_at.
  replace (i <? 0) with false by (symmetry; apply Z.ltb_ge; lia).
  now rewrite Hl.
Qed.

Lemma block_at_inv (w : world) (self : Blockchain) (i : Z) (b : Block) :
  block_at w self i = Some b ->
  0 <= i < Z.of_nat (length (chain self)) /\
  exists l, chain self !! Z.to_nat i = Some l /\ heap w !! l = Some b.
Proof.
  unfold block_at. destruct (Z.ltb_spec i 0); [discriminate|].
  destruct (chain self !! Z.to_nat i) as [l|] eqn:Hl; [|discriminate].
  intros Hb. apply lookup_lt_Some in Hl as Hlt. split; [lia|]. now exists l.
Qed.

Lemma live_lookup (w : world) (self : Blockchain) (i : Z) :
  live w self -> 0 <= i < Z.of_nat (length (chain self)) ->
  exists l b, chain self !! Z.to_nat i = Some l /\ heap w !! l = Some b.
Proof.
  intros Hlive Hi.
  destruct (lookup_lt_is_Some_2 (chain self) (Z.to_nat i) ltac:(lia)) as [l Hl].
  unfold live in Hlive. rewrite forallb_forall in Hlive.
  assert (Hin : In l (chain self)).
  { apply list_elem_of_In, list_elem_of_lookup. eauto. }
  apply Hlive, Nat.ltb_lt in Hin.
  destruct (lookup_lt_is_Some_2 (heap w) l Hin) as [b Hb].
  now exists l, b.
Qed.

Lemma world_eta (w : world) : mkWorld (heap w) (stdout w ++ []) = w.
Proof. destruct w. cbn. now rewrite app_nil_r. Qed.

Lemma block_at_insert_ne (w : world) (self : Blockchain) (i : Z) (l0 : loc)
    (b0 : Block) (out : list event) :
  chain self !! Z.to_nat i <> Some l0 ->
  block_at (mkWorld (<[l0 := b0]> (heap w)) out) self i = block_at w self i.
Proof.
  intros Hne. unfold block_at. destruct (i <? 0); [reflexivity|].
  destruct (chain self !! Z.to_nat i) as [l|]; [|reflexivity].
  cbn [heap]. apply list_lookup_insert_ne. congruence.
Qed.

Lemma block_at_insert_eq (w : world) (self : Blockchain) (i : Z) (l0 : loc)
    (b b0 : Block) (out : list event) :
  0 <= i -> chain self !! Z.to_nat i = Some l0 -> heap w !! l0 = Some b ->
  block_at (mkWorld (<[l0 := b0]> (heap w)) out) self i = Some b0.
Proof.
  intros Hi Hl Hb. apply (block_at_Some _ _ _ l0); [lia|exact Hl|].
  cbn [heap]. now apply (lookup_insert_same _ _ b).
Qed.

Lemma live_insert (w : world) (self : Blockchain) (l : loc) (b : Block)
    (out : list event) :
  live w self -> live (mkWorld (<[l := b]> (heap w)) out) self.
Proof. unfold live. cbn [heap]. now rewrite length_insert. Qed.

(** The three checks read the blocks at [i] and [i - 1] only. *)
Lemma checks_agree (w w' : world) (self : Blockchain) (i : Z) :
  block_at w' self i = block_at w self i ->
  hash <$> block_at w' self (i - 1) = hash <$> block_at w self (i - 1) ->
  link_ok w' self i = link_ok w self i /\
  hash_ok w' self i = hash_ok w self i /\
  difficulty_ok w' self i = difficulty_ok w self i /\
  block_ok w' self i = block_ok w self i /\
  encoding_fails w' self i = encoding_fails w self i /\
  first_failure w' self i = first_failure w self i.
Proof.
  intros Hat Hprev.
  assert (Hlink : link_ok w' self i = link_ok w self i).
  { unfold link_ok. rewrite Hat. destruct (block_at w self i); [|reflexivity].
    destruct (block_at w' self (i - 1)), (block_at w self (i - 1));
      cbn in Hprev; try congruence. }
  assert (Hhash : hash_ok w' self i = hash_ok w self i).
  { unfold hash_ok. now rewrite Hat. }
  assert (Hdiff : difficulty_ok w' self i = difficulty_ok w self i).
  { unfold difficulty_ok. now rewrite Hat. }
  unfold block_ok, encoding_fails, first_failure.
  now rewrite Hlink, Hhash, Hdiff, Hat.
Qed.

(** ** The validation loop *)

Lemma is_chain_valid_loop_spec (self : Blockchain) (w : world) :
  live w self ->
  forall (n : nat) (lo : Z),
    1 <= lo -> lo + Z.of_nat n = Z.of_nat (length (chain self)) ->
    (is_chain_valid_loop self (target self)
       (range lo (Z.of_nat (length (chain self)))) w = Ok true w /\
     forall i, lo <= i < Z.of_nat (length (chain self)) -> block_ok w self i = true) \/
    (exists i, lo <= i < Z.of_nat (length (chain self)) /\
       (forall j, lo <= j < i -> block_ok w self j = true) /\
       block_ok w self i = false /\
       is_chain_valid_loop self (target self)
         (range lo (Z.of_nat (length (chain self)))) w
       = if encoding_fails w self i then Raise UnicodeEncodeError w
         else Ok false (mkWorld (heap w) (stdout w ++ [first_failure w self i]))).
Proof.
  intros Hlive.
  induction n as [|n IH]; intros lo Hlo Hlen.
  { rewrite range_nil by lia. left. split; [reflexivity|]. intros i Hi. lia. }
  rewrite range_cons by lia. cbn [is_chain_valid_loop].
  destruct (live_lookup w self lo Hlive ltac:(lia)) as (lc & c & Hlc & Hc).
  destruct (live_lookup w self (lo - 1) Hlive ltac:(lia)) as (lp & p & Hlp & Hp).
  pose proof (block_at_Some w self lo lc c ltac:(lia) Hlc Hc) as Hat.
  pose proof (block_at_Some w self (lo - 1) lp p ltac:(lia) Hlp Hp) as Hatp.
  rewrite (run_getitem _ lo _ _ _ ltac:(lia) Hlc).
  rewrite (run_getitem _ (lo - 1) _ _ _ ltac:(lia) Hlp).
  rewrite (run_getattr _ _ _ _ _ Hc), (run_getattr _ _ _ _ _ Hp).
  assert (Hlink : link_ok w self lo = str_eqb (previous_hash c) (hash p)).
  { unfold link_ok. now rewrite Hat, Hatp. }
  assert (Hhash : hash_ok w self lo
                  = encodable_block c && str_eqb (hash c) (digest_of c)).
  { unfold hash_ok. now rewrite Hat. }
  assert (Hdiff : difficulty_ok w self lo = startswith (hash c) (target self)).
  { unfold difficulty_ok. now rewrite Hat. }
  assert (Hfails : encoding_fails w self lo
                   = link_ok w self lo && negb (encodable_block c)).
  { unfold encoding_fails. now rewrite Hat. }
  assert (Hstop : forall r,
    block_ok w self lo = false ->
    r = (if encoding_fails w self lo then Raise UnicodeEncodeError w
         else Ok false (mkWorld (heap w) (stdout w ++ [first_failure w self lo]))) ->
    (r = Ok true w /\
     forall i, lo <= i < Z.of_nat (length (chain self)) -> block_ok w self i = true) \/
    (exists i, lo <= i < Z.of_nat (length (chain self)) /\
       (forall j, lo <= j < i -> block_ok w self j = true) /\
       block_ok w self i = false /\
       r = if encoding_fails w self i then Raise UnicodeEncodeError w
           else Ok false (mkWorld (heap w) (stdout w ++ [first_failure w self i])))).
  { intros r Hbad ->. right. exists lo. split; [lia|]. split; [intros j Hj; lia|].
    now split. }
  destruct (str_eqb (previous_hash c) (hash p)) eqn:E1; cbn [negb].
  2:{ rewrite run_print. unfold ret. apply Hstop.
      - unfold block_ok. now rewrite Hlink.
      - rewrite Hfails, Hlink. cbn [andb]. unfold first_failure. now rewrite Hlink. }
  destruct (encodable_block c) eqn:Ec.
  2:{ rewrite (run_calculate_hash_raise _ _ _ _ Hc Ec). apply Hstop.
      - unfold block_ok. rewrite Hlink, Hhash. reflexivity.
      - rewrite Hfails, Hlink. reflexivity. }
  rewrite (run_calculate_hash _ _ _ _ Hc Ec), (run_getattr _ _ _ _ _ Hc).
  cbn [andb] in Hhash.
  destruct (str_eqb (hash c) (digest_of c)) eqn:E2; cbn [negb].
  2:{ rewrite run_print. unfold ret. apply Hstop.
      - unfold block_ok. now rewrite Hlink, Hhash.
      - rewrite Hfails, Hlink. cbn [andb negb].
        unfold first_failure. now rewrite Hlink, Hhash. }
  rewrite (run_getattr _ _ _ _ _ Hc).
  destruct (startswith (hash c) (target self)) eqn:E3; cbn [negb].
  2:{ rewrite run_print. unfold ret. apply Hstop.
      - unfold block_ok. now rewrite Hlink, Hhash, Hdiff.
      - rewrite Hfails, Hlink. cbn [andb negb].
        unfold first_failure. now rewrite Hlink, Hhash. }
  assert (Hok : block_ok w self lo = true).
  { unfold block_ok. now rewrite Hlink, Hhash, Hdiff. }
  destruct (IH (lo + 1) ltac:(lia) ltac:(lia)) as [[Hrun Hall]|(i & Hi & Hbefore & Hbad & Hrun)].
  - left. split; [exact Hrun|].
    intros i Hi. destruct (Z.eq_dec i lo) as [->|Hne]; [exact Hok|]. apply Hall. lia.
  - right. exists i. split; [lia|]. split; [|now split].
    intros j Hj. destruct (Z.eq_dec j lo) as [->|Hne]; [exact Hok|]. apply Hbefore. lia.
Qed.

Lemma is_chain_valid_unfold (self : Blockchain) (w : world) :
  is_chain_valid self w
  = match prefix_error self with
    | Some e => Raise e w
    | None => is_chain_valid_loop self (target self)
                (range 1 (Z.of_nat (length (chain self)))) w
    end.
Proof. unfold is_chain_valid. now rewrite run_str_mul. Qed.

Lemma is_chain_valid_outcome (self : Blockchain) (w : world) :
  live w self ->
  prefix_error self = None ->
  (is_chain_valid self w = Ok true w /\
   forall i, 1 <= i < Z.of_nat (length (chain self)) -> block_ok w self i = true) \/
  (exists i, 1 <= i < Z.of_nat (length (chain self)) /\
     (forall j, 1 <= j < i -> block_ok w self j = true) /\
     block_ok w self i = false /\
     is_chain_valid self w
     = if encoding_fails w self i then Raise UnicodeEncodeError w
       else Ok false (mkWorld (heap w) (stdout w ++ [first_failure w self i]))).
Proof.
  intros Hlive Hr. rewrite is_chain_valid_unfold, Hr.
  destruct (chain self) as [|l0 ls] eqn:Hch.
  - left. split; [reflexivity|]. cbn. intros i Hi. lia.
  - rewrite <- Hch.
    apply (is_chain_valid_loop_spec self w Hlive (length ls) 1); [lia|].
    rewrite Hch. cbn [length]. lia.
Qed.

Lemma is_chain_valid_all_ok (self : Blockchain) (w : world) :
  live w self ->
  prefix_error self = None ->
  (forall i, 1 <= i < Z.of_nat (length (chain self)) -> block_ok w self i = true) ->
  is_chain_valid self w = Ok true w.
Proof.
  intros Hlive Hr Hall.
  destruct (is_chain_valid_outcome self w Hlive Hr)
    as [[Hrun _]|(i & Hi & _ & Hbad & _)]; [exact Hrun|].
  rewrite (Hall i Hi) in Hbad. discriminate.
Qed.

Lemma is_chain_valid_first_bad (self : Blockchain) (w : world) (i : Z) :
  live w self ->
  prefix_error self = None ->
  1 <= i < Z.of_nat (length (chain self)) ->
  (forall j, 1 <= j < i -> block_ok w self j = true) ->
  block_ok w self i = false ->
  is_chain_valid self w
  = if encoding_fails w self i then Raise UnicodeEncodeError w
    else Ok false (mkWorld (heap w) (stdout w ++ [first_failure w self i])).
Proof.
  intros Hlive Hr Hi Hbefore Hbad.
  destruct (is_chain_valid_outcome self w Hlive Hr)
    as [[_ Hall]|(i' & Hi' & Hbefore' & Hbad' & Hrun)].
  { rewrite (Hall i Hi) in Hbad. discriminate. }
  assert (i' = i) as ->; [|exact Hrun].
  destruct (Z.lt_trichotomy i' i) as [Hlt|[Heq|Hgt]]; [|exact Heq|].
  - rewrite (Hbefore i') in Hbad' by lia. discriminate.
  - rewrite (Hbefore' i) in Hbad by lia. discriminate.
Qed.

(** What a returned [True] tells. *)
Lemma is_chain_valid_true (self : Blockchain) (w w' : world) :
  live w self ->
  is_chain_valid self w = Ok true w' ->
  prefix_error self = None /\
  forall i, 1 <= i < Z.of_nat (length (chain self)) -> block_ok w self i = true.
Proof.
  intros Hlive Hrun.
  destruct (prefix_error self) as [e0|] eqn:Hr.
  { rewrite is_chain_valid_unfold, Hr in Hrun. discriminate. }
  split; [reflexivity|].
  destruct (is_chain_valid_outcome self w Hlive Hr)
    as [[_ Hall]|(i & Hi & _ & Hbad & Hrun')]; [exact Hall|].
  rewrite Hrun in Hrun'. destruct (encoding_fails w self i); discriminate.
Qed.

Lemma block_ok_parts (w : world) (self : Blockchain) (i : Z) :
  block_ok w self i = true ->
  link_ok w self i = true /\ hash_ok w self i = true /\ difficulty_ok w self i = true.
Proof.
  unfold block_ok. intros H. apply andb_prop in H as [H H3].
  apply andb_prop in H as [H1 H2]. auto.
Qed.

Lemma link_ok_eq (w : world) (self : Blockchain) (i : Z) (c p : Block) :
  block_at w self i = Some c -> block_at w self (i - 1) = Some p ->
  link_ok w self i = true -> previous_hash c = hash p.
Proof.
  intros Hc Hp H. unfold link_ok in H. rewrite Hc, Hp in H. now apply str_eqb_eq.
Qed.

Lemma hash_ok_eq (w : world) (self : Blockchain) (i : Z) (c : Block) :
  block_at w self i = Some c -> hash_ok w self i = true ->
  encodable_block c = true /\ hash c = digest_of c.
Proof.
  intros Hc H. unfold hash_ok in H. rewrite Hc in H.
  apply andb_prop in H as [He Hh]. split; [exact He|]. now apply str_eqb_eq.
Qed.

(** Two stores that give the same answers to the checks give the same
    verdict and the same printed line, or raise the same error. *)
Lemma is_chain_valid_agree (self : Blockchain) (w w' : world) :
  live w self -> live w' self ->
  (forall i, 1 <= i < Z.of_nat (length (chain self)) ->
     block_ok w' self i = block_ok w self i /\
     encoding_fails w' self i = encoding_fails w self i /\
     first_failure w' self i = first_failure w self i) ->
  (forall v out,
     is_chain_valid self w = Ok v (mkWorld (heap w) (stdout w ++ out)) ->
     is_chain_valid self w' = Ok v (mkWorld (heap w') (stdout w' ++ out))) /\
  (forall e, is_chain_valid self w = Raise e w -> is_chain_valid self w' = Raise e w').
Proof.
  intros Hlive Hlive' Hagree.
  destruct (prefix_error self) as [e0|] eqn:Hr.
  { rewrite !is_chain_valid_unfold, Hr. split; [discriminate|].
    intros e [= <-]. reflexivity. }
  destruct (is_chain_valid_outcome self w Hlive Hr)
    as [[Hrun Hall]|(i & Hi & Hbefore & Hbad & Hrun)].
  - assert (Hrun' : is_chain_valid self w' = Ok true w').
    { apply is_chain_valid_all_ok; [assumption..|].
      intros i Hi. destruct (Hagree i Hi) as [-> _]. now apply Hall. }
    rewrite Hrun, Hrun'. split; [|discriminate].
    intros v out [= <- Hw]. apply (f_equal stdout) in Hw. cbn [stdout] in Hw.
    rewrite <- (app_nil_r (stdout w)) in Hw at 1.
    apply app_inv_head in Hw. subst out. now rewrite world_eta.
  - assert (Hrun' : is_chain_valid self w'
              = if encoding_fails w' self i then Raise UnicodeEncodeError w'
                else Ok false (mkWorld (heap w') (stdout w' ++ [first_failure w' self i]))).
    { apply is_chain_valid_first_bad; [assumption..| |].
      - intros j Hj. destruct (Hagree j ltac:(lia)) as [-> _]. now apply Hbefore.
      - destruct (Hagree i Hi) as [-> _]. exact Hbad. }
    destruct (Hagree i Hi) as (_ & Hf & Hff). rewrite Hf, Hff in Hrun'.
    rewrite Hrun, Hrun'. destruct (encoding_fails w self i).
    + split; [discriminate|]. intros e [= <-]. reflexivity.
    + split; [|discriminate]. intros v out [= <- Hw].
      apply app_inv_head in Hw. now subst out.
Qed.

(** ** Tampering *)

Lemma update_Some (l : loc) (f : Block -> Block) (b : Block) (w : world) :
  heap w !! l = Some b ->
  update l f w = Ok tt (mkWorld (<[l := f b]> (heap w)) (stdout w)).
Proof. intros H. unfold update. now rewrite H. Qed.

Lemma run_update_None {B} (l : loc) (f : Block -> Block) (k : unit -> M B)
    (w : world) :
  heap w !! l = None -> bind (update l f) k w = Dangling.
Proof. intros H. unfold bind, update. now rewrite H. Qed.

Lemma tamper_guard_true (self : Blockchain) (index : Z) (new_data : pystr)
    (w : world) :
  index <= 0 \/ Z.of_nat (length (chain self)) <= index ->
  tamper_with_block self index new_data w = Raise out_of_range w.
Proof.
  intros H. unfold tamper_with_block.
  destruct (Z.leb_spec index 0), (Z.leb_spec (Z.of_nat (length (chain self))) index);
    cbn [orb]; try reflexivity. lia.
Qed.

Lemma tamper_guard_false (self : Blockchain) (index : Z) :
  0 < index < Z.of_nat (length (chain self)) ->
  (index <=? 0) || (Z.of_nat (length (chain self)) <=? index) = false.
Proof.
  intros H.
  destruct (Z.leb_spec index 0), (Z.leb_spec (Z.of_nat (length (chain self))) index);
    cbn [orb]; try reflexivity; lia.
Qed.

Lemma tamper_run (self : Blockchain) (index : Z) (new_data : pystr) (w : world)
    (l : loc) (b : Block) :
  0 < index < Z.of_nat (length (chain self)) ->
  chain self !! Z.to_nat index = Some l ->
  heap w !! l = Some b ->
  tamper_with_block self index new_data w
  = if encodable_block (with_data new_data b)
    then Ok tt (mkWorld (<[l := tampered new_data b]> (heap w)) (stdout w))
    else Raise UnicodeEncodeError
           (mkWorld (<[l := with_data new_data b]> (heap w)) (stdout w)).
Proof.
  intros Hi Hl Hb. unfold tamper_with_block.
  rewrite (tamper_guard_false self index Hi).
  rewrite (run_getitem _ index _ _ _ ltac:(lia) Hl), (run_update _ _ _ _ _ Hb).
  pose proof (lookup_insert_same _ _ _ (with_data new_data b) Hb) as Hb1.
  set (w1 := mkWorld _ _).
  change (heap w1 !! l = Some (with_data new_data b)) in Hb1.
  rewrite (run_getitem _ index _ _ _ ltac:(lia) Hl).
  destruct (encodable_block (with_data new_data b)) eqn:Henc.
  2:{ now rewrite (run_calculate_hash_raise _ _ _ _ Hb1 Henc). }
  rewrite (run_calculate_hash _ _ _ _ Hb1 Henc).
  rewrite (run_getitem _ index _ _ _ ltac:(lia) Hl), (update_Some _ _ _ _ Hb1).
  unfold w1, tampered. cbn [heap stdout]. now rewrite list_insert_insert_eq.
Qed.

Lemma tamper_returned (self : Blockchain) (index : Z) (new_data : pystr)
    (w w1 : world) (l : loc) (b : Block) :
  0 < index < Z.of_nat (length (chain self)) ->
  chain self !! Z.to_nat index = Some l ->
  heap w !! l = Some b ->
  tamper_with_block self index new_data w = Ok tt w1 ->
  encodable_block (tampered new_data b) = true /\
  w1 = mkWorld (<[l := tampered new_data b]> (heap w)) (stdout w).
Proof.
  intros Hi Hl Hb Hrun. rewrite (tamper_run self index new_data w l b Hi Hl Hb) in Hrun.
  unfold tampered. rewrite encodable_block_with_hash.
  destruct (encodable_block (with_data new_data b)); [|discriminate].
  injection Hrun as <-. now split.
Qed.

Lemma tamper_dangling (self : Blockchain) (index : Z) (new_data : pystr) (w : world)
    (l : loc) :
  0 < index < Z.of_nat (length (chain self)) ->
  chain self !! Z.to_nat index = Some l ->
  heap w !! l = None ->
  tamper_with_block self index new_data w = Dangling.
Proof.
  intros Hi Hl Hb. unfold tamper_with_block.
  rewrite (tamper_guard_false self index Hi).
  rewrite (run_getitem _ index _ _ _ ltac:(lia) Hl).
  now apply run_update_None.
Qed.

Lemma tampered_hash (new_data : pystr) (b : Block) :
  hash (tampered new_data b) = digest_of (tampered new_data b).
Proof. unfold tampered. cbn [hash with_hash]. now rewrite digest_of_with_hash. Qed.

(** ** The constructor and [add_block] *)

Lemma encodable_genesis (now : float) :
  encodable_block (new_block 0 now (py "Genesis Block") (py "0")) = true.
Proof. rewrite encodable_block_new_block, !encodable_py. reflexivity. Qed.

Lemma create_genesis_block_spec (fuel : nat) (self : Blockchain) (now : float)
    (w : world) :
  match create_genesis_block fuel self now w with
  | Ok g w' =>
      prefix_error self = None /\
      exists k,
        g = length (heap w) /\ 0 <= k < Z.of_nat fuel /\
        let b := sealed (new_block 0 now (py "Genesis Block") (py "0")) k in
        startswith (hash b) (target self) = true /\
        (k = 0 <-> startswith (digest_of (new_block 0 now (py "Genesis Block") (py "0")))
                     (target self) = true) /\
        w' = mkWorld (heap w ++ [b]) (stdout w ++ [Mined 0 k (hash b) k])
  | Raise e w' =>
      prefix_error self = Some e /\
      w' = mkWorld (heap w ++ [new_block 0 now (py "Genesis Block") (py "0")]) (stdout w)
  | Dangling => False
  | OutOfFuel =>
      prefix_error self = None /\
      forall j, 0 <= j < Z.of_nat fuel ->
        startswith
          (digest_of (with_nonce j (new_block 0 now (py "Genesis Block") (py "0"))))
          (target self) = false
  end.
Proof.
  unfold create_genesis_block. unfold bind at 1. rewrite Block_init_spec.
  rewrite !encodable_py. cbn [andb].
  set (b0 := new_block 0 now (py "Genesis Block") (py "0")).
  set (w1 := mkWorld (heap w ++ [b0]) (stdout w)).
  assert (Hb0 : heap w1 !! length (heap w) = Some b0) by apply lookup_snoc.
  assert (Henc0 : encodable_block b0 = true) by apply encodable_genesis.
  unfold bind.
  pose proof (proof_of_work_spec fuel self (length (heap w)) w1) as Hspec.
  destruct (proof_of_work fuel self (length (heap w)) w1) as [r w'|e w'| |].
  - destruct Hspec as (Hr & b & k & Hb & _ & -> & Hk & Hmin & Hpre & ->).
    assert (Some b0 = Some b) as [= <-] by (rewrite <- Hb0; exact Hb).
    unfold ret. split; [exact Hr|]. exists k. split; [reflexivity|]. split; [lia|].
    cbv zeta. split; [exact Hpre|]. split.
    + split.
      * intros ->. rewrite sealed_0 in Hpre. exact Hpre.
      * intros Hfirst. destruct (Z.eq_dec k 0) as [->|Hne]; [reflexivity|].
        specialize (Hmin 0 ltac:(lia)).
        assert (Hd : digest_of (with_nonce (nonce b0 + 0) b0) = digest_of b0)
          by (apply digest_of_ext; cbn; try reflexivity; lia).
        rewrite Hd in Hmin. congruence.
    + unfold w1. cbn [heap stdout]. f_equal.
      rewrite insert_app_r_alt by lia. now rewrite Nat.sub_diag.
  - destruct Hspec as (-> & [Hr|(_ & b & Hb & Hbad & _)]).
    + now split.
    + assert (Some b0 = Some b) as [= <-] by (rewrite <- Hb0; exact Hb). congruence.
  - destruct Hspec as [_ Hnone].
    assert (Some b0 = None) as [=] by (rewrite <- Hb0; exact Hnone).
  - destruct Hspec as [Hr Hnone]. split; [exact Hr|]. intros j Hj.
    destruct (Hnone b0 Hb0 j Hj) as [_ Hf].
    rewrite <- Hf. f_equal.
Qed.

Lemma add_block_spec (fuel : nat) (self : Blockchain) (payload : pystr)
    (now : float) (w : world) :
  match add_block fuel self payload now w with
  | Ok (mined, self') w' =>
      exists llast blast k,
        chain self !! (length (chain self) - 1)%nat = Some llast /\
        heap w !! llast = Some blast /\
        encodable payload && encodable (hash blast) = true /\
        prefix_error self = None /\
        mined = length (heap w) /\
        self' = mkBlockchain (difficulty self) (chain self ++ [mined]) /\
        0 <= k < Z.of_nat fuel /\
        let b0 := new_block (Z.of_nat (length (chain self))) now payload (hash blast) in
        let b := sealed b0 k in
        (forall j, 0 <= j < k ->
           startswith (digest_of (with_nonce j b0)) (target self) = false) /\
        startswith (hash b) (target self) = true /\
        w' = mkWorld (heap w ++ [b])
               (stdout w ++ [Mined (Z.of_nat (length (chain self))) k (hash b) k])
  | Raise e w' =>
      (chain self = [] /\ e = IndexError "list index out of range" /\ w' = w) \/
      (exists llast blast,
         chain self !! (length (chain self) - 1)%nat = Some llast /\
         heap w !! llast = Some blast /\
         ((encodable payload && encodable (hash blast) = false /\
           e = UnicodeEncodeError /\
           w' = mkWorld
                  (heap w ++ [mkBlock (Z.of_nat (length (chain self))) now payload
                                (hash blast) 0 []])
                  (stdout w)) \/
          (encodable payload && encodable (hash blast) = true /\
           prefix_error self = Some e /\
           w' = mkWorld
                  (heap w ++ [new_block (Z.of_nat (length (chain self))) now payload
                                (hash blast)])
                  (stdout w))))
  | Dangling =>
      exists llast,
        chain self !! (length (chain self) - 1)%nat = Some llast /\
        heap w !! llast = None
  | OutOfFuel =>
      exists llast blast,
        chain self !! (length (chain self) - 1)%nat = Some llast /\
        heap w !! llast = Some blast /\
        encodable payload && encodable (hash blast) = true /\
        prefix_error self = None /\
        forall j, 0 <= j < Z.of_nat fuel ->
          startswith
            (digest_of (with_nonce j (new_block (Z.of_nat (length (chain self))) now
                                        payload (hash blast))))
            (target self) = false
  end.
Proof.
  unfold add_block, get_last_block. unfold bind at 1. rewrite getitem_last.
  destruct (chain self !! (length (chain self) - 1)%nat) as [llast|] eqn:Hlast.
  2:{ left. split; [|now split]. apply lookup_ge_None in Hlast.
      destruct (chain self); [reflexivity|]. cbn in Hlast. lia. }
  destruct (heap w !! llast) as [blast|] eqn:Hblast.
  2:{ rewrite run_dangling; [now exists llast|].
      unfold getattr. apply run_dangling. now apply load_None. }
  rewrite (run_getattr _ _ _ _ _ Hblast).
  unfold bind at 1. rewrite Block_init_spec.
  destruct (encodable payload && encodable (hash blast)) eqn:Henc.
  2:{ right. exists llast, blast. split; [reflexivity|]. split; [exact Hblast|].
      left. now split. }
  set (b0 := new_block (Z.of_nat (length (chain self))) now payload (hash blast)).
  set (w1 := mkWorld (heap w ++ [b0]) (stdout w)).
  assert (Hb0 : heap w1 !! length (heap w) = Some b0) by apply lookup_snoc.
  unfold bind.
  pose proof (proof_of_work_spec fuel self (length (heap w)) w1) as Hspec.
  destruct (proof_of_work fuel self (length (heap w)) w1) as [r w'|e w'| |].
  - destruct Hspec as (Hr & b & k & Hb & _ & -> & Hk & Hmin & Hpre & ->).
    assert (Some b0 = Some b) as [= <-] by (rewrite <- Hb0; exact Hb).
    unfold ret. exists llast, blast, k.
    split; [reflexivity|]. split; [exact Hblast|].
    split; [first [reflexivity | exact Henc]|].
    split; [exact Hr|]. split; [reflexivity|]. split; [reflexivity|].
    split; [lia|]. cbv zeta. split; [|split; [exact Hpre|]].
    + intros j Hj. rewrite <- (Hmin j Hj). f_equal.
    + unfold w1. cbn [heap stdout]. f_equal.
      rewrite insert_app_r_alt by lia. now rewrite Nat.sub_diag.
  - destruct Hspec as (-> & [Hr|(_ & b & Hb & Hbad & _)]).
    + right. exists llast, blast. split; [reflexivity|]. split; [exact Hblast|].
      right. now repeat split.
    + assert (Some b0 = Some b) as [= <-] by (rewrite <- Hb0; exact Hb).
      unfold b0 in Hbad. rewrite encodable_block_new_block in Hbad. congruence.
  - destruct Hspec as [_ Hnone].
    assert (Some b0 = None) as [=] by (rewrite <- Hb0; exact Hnone).
  - destruct Hspec as [Hr Hnone]. exists llast, blast.
    split; [reflexivity|]. split; [exact Hblast|].
    split; [first [reflexivity | exact Henc]|].
    split; [exact Hr|]. intros j Hj.
    destruct (Hnone b0 Hb0 j Hj) as [_ Hf]. rewrite <- Hf. f_equal.
Qed.

(** ** A store that grows by one object *)

Lemma live_alloc (w : world) (self : Blockchain) (b : Block) (out : list event) :
  live w self -> live (mkWorld (heap w ++ [b]) out) self.
Proof.
  unfold live. cbn [heap]. rewrite !forallb_forall. intros H l Hl.
  specialize (H l Hl). apply Nat.ltb_lt in H. apply Nat.ltb_lt.
  rewrite length_app. lia.
Qed.

Lemma block_at_alloc (w : world) (self : Blockchain) (b : Block) (out : list event)
    (i : Z) :
  live w self ->
  block_at (mkWorld (heap w ++ [b]) out) self i = block_at w self i.
Proof.
  intros Hlive. unfold block_at. destruct (i <? 0); [reflexivity|].
  destruct (chain self !! Z.to_nat i) as [l|] eqn:Hl; [|reflexivity].
  cbn [heap]. apply lookup_app_l.
  unfold live in Hlive. rewrite forallb_forall in Hlive.
  apply Nat.ltb_lt, Hlive, list_elem_of_In, list_elem_of_lookup. eauto.
Qed.

Lemma checks_alloc (w : world) (self : Blockchain) (b : Block) (out : list event)
    (i : Z) :
  live w self ->
  block_ok (mkWorld (heap w ++ [b]) out) self i = block_ok w self i /\
  encoding_fails (mkWorld (heap w ++ [b]) out) self i = encoding_fails w self i /\
  first_failure (mkWorld (heap w ++ [b]) out) self i = first_failure w self i.
Proof.
  intros Hlive.
  destruct (checks_agree w (mkWorld (heap w ++ [b]) out) self i)
    as (_ & _ & _ & H1 & H2 & H3).
  - now apply block_at_alloc.
  - now rewrite block_at_alloc.
  - now split.
Qed.

(** ** A chain that grows by one freshly allocated block *)

Section Append.

Variables (w : world) (self : Blockchain) (b : Block) (out : list event).
Hypothesis Hlive : live w self.

Abbreviation w' := (mkWorld (heap w ++ [b]) out).
Abbreviation self' :=
  (mkBlockchain (difficulty self) (chain self ++ [length (heap w)])).

Lemma live_append : live w' self'.
Proof.
  unfold live in *. cbn [heap chain]. rewrite forallb_app. cbn [forallb].
  rewrite length_app. cbn [length]. apply andb_true_intro. split.
  - rewrite forallb_forall in *. intros l Hl. specialize (Hlive l Hl).
    apply Nat.ltb_lt in Hlive. apply Nat.ltb_lt. lia.
  - rewrite andb_true_r. apply Nat.ltb_lt. lia.
Qed.

Lemma block_at_append_old (i : Z) :
  0 <= i < Z.of_nat (length (chain self)) ->
  block_at w' self' i = block_at w self i.
Proof.
  intros Hi. destruct (live_lookup w self i Hlive Hi) as (l & bl & Hl & Hbl).
  rewrite (block_at_Some w self i l bl ltac:(lia) Hl Hbl).
  apply (block_at_Some w' self' i l bl); [lia| |].
  - cbn [chain]. rewrite lookup_app_l by lia. exact Hl.
  - cbn [heap]. rewrite lookup_app_l; [exact Hbl|]. eapply lookup_lt_Some, Hbl.
Qed.

Lemma block_at_append_new :
  block_at w' self' (Z.of_nat (length (chain self))) = Some b.
Proof.
  apply (block_at_Some w' self' _ (length (heap w))); [lia| |].
  - cbn [chain]. rewrite Nat2Z.id. apply lookup_snoc.
  - cbn [heap]. apply lookup_snoc.
Qed.

Lemma checks_append_old (i : Z) :
  1 <= i < Z.of_nat (length (chain self)) ->
  block_ok w' self' i = block_ok w self i /\
  encoding_fails w' self' i = encoding_fails w self i /\
  first_failure w' self' i = first_failure w self i.
Proof.
  intros Hi. unfold block_ok, encoding_fails, first_failure, link_ok, hash_ok,
    difficulty_ok.
  rewrite !block_at_append_old by lia. now split.
Qed.

Lemma block_ok_append_old (i : Z) :
  1 <= i < Z.of_nat (length (chain self)) ->
  block_ok w' self' i = block_ok w self i.
Proof. intros Hi. now destruct (checks_append_old i Hi). Qed.

Lemma block_ok_append_new (blast : Block) :
  block_at w self (Z.of_nat (length (chain self)) - 1) = Some blast ->
  (0 < length (chain self))%nat ->
  previous_hash b = hash blast ->
  encodable_block b = true ->
  hash b = digest_of b ->
  startswith (hash b) (target self) = true ->
  block_ok w' self' (Z.of_nat (length (chain self))) = true.
Proof.
  intros Hlast Hlen Hprev Henc Hhash Hpre.
  unfold block_ok, link_ok, hash_ok, difficulty_ok.
  rewrite block_at_append_new, block_at_append_old by lia.
  rewrite Hlast, Hprev, Henc, <- Hhash, !str_eqb_refl. cbn [andb].
  exact Hpre.
Qed.

End Append.

Lemma last_block_at (w : world) (self : Blockchain) (llast : loc) (blast : Block) :
  chain self !! (length (chain self) - 1)%nat = Some llast ->
  heap w !! llast = Some blast ->
  (0 < length (chain self))%nat /\
  block_at w self (Z.of_nat (length (chain self)) - 1) = Some blast.
Proof.
  intros Hl Hb. apply lookup_lt_Some in Hl as Hlt. split; [lia|].
  apply (block_at_Some w self _ llast); [lia| |exact Hb].
  now replace (Z.to_nat (Z.of_nat (length (chain self)) - 1))
    with (length (chain self) - 1)%nat by lia.
Qed.

(** ** What holds of every chain made by the constructor and [add_block] *)

Lemma grown_invariant (self : Blockchain) (w : world) :
  grown self w ->
  live w self /\
  (0 < length (chain self))%nat /\
  prefix_error self = None /\
  (forall i, 1 <= i < Z.of_nat (length (chain self)) -> block_ok w self i = true) /\
  (forall i b, block_at w self i = Some b ->
     hash b = digest_of b /\ encodable_block b = true).
Proof.
  induction 1 as [fuel d now w0 w self Hinit
                 |fuel payload now mined self self' w w' Hgrown IH Hadd
                 |fuel payload now e self w w' Hgrown IH Hadd].
  - unfold Blockchain_init, bind in Hinit.
    pose proof (create_genesis_block_spec fuel (mkBlockchain d []) now w0) as Hg.
    destruct (create_genesis_block fuel _ now w0) as [g w1|e w1| |]; try discriminate.
    destruct Hg as (Hr & k & -> & _ & _ & _ & ->). injection Hinit as <- <-.
    split; [|split; [cbn; lia|split; [exact Hr|split; [cbn; intros i Hi; lia|]]]].
    + unfold live. cbn [heap chain forallb]. rewrite length_app, andb_true_r.
      apply Nat.ltb_lt. cbn. lia.
    + intros i b Hat. destruct (block_at_inv _ _ _ _ Hat) as (Hi & l & Hl & Hb).
      cbn [chain length] in Hi, Hl. assert (i = 0) as -> by lia.
      cbn in Hl. injection Hl as <-. cbn [heap] in Hb.
      rewrite lookup_snoc in Hb. injection Hb as <-.
      split; [apply sealed_hash|]. rewrite encodable_block_sealed.
      apply encodable_genesis.
  - destruct IH as (Hlive & Hlen & Hr & Hall & Hseal).
    pose proof (add_block_spec fuel self payload now w) as Hs. rewrite Hadd in Hs.
    destruct Hs as (llast & blast & k & Hllast & Hblast & Henc & _ & -> & -> & Hk
                    & _ & Hpre & ->).
    destruct (last_block_at w self llast blast Hllast Hblast) as [_ Hatlast].
    split; [now apply live_append|]. cbn [chain difficulty]. rewrite length_app.
    cbn [length]. split; [lia|]. split; [exact Hr|]. split.
    + intros i Hi.
      destruct (Z.eq_dec i (Z.of_nat (length (chain self)))) as [->|Hne].
      * apply (block_ok_append_new w self _ _ Hlive blast); try assumption.
        -- reflexivity.
        -- now rewrite encodable_block_sealed, encodable_block_new_block.
        -- apply sealed_hash.
      * rewrite block_ok_append_old by (assumption || lia). apply Hall. lia.
    + intros i b Hat. destruct (block_at_inv _ _ _ _ Hat) as [Hi _].
      cbn [chain] in Hi. rewrite length_app in Hi. cbn [length] in Hi.
      destruct (Z.eq_dec i (Z.of_nat (length (chain self)))) as [->|Hne].
      * rewrite block_at_append_new in Hat by assumption. injection Hat as <-.
        split; [apply sealed_hash|].
        now rewrite encodable_block_sealed, encodable_block_new_block.
      * rewrite block_at_append_old in Hat by (assumption || lia).
        exact (Hseal i b Hat).
  - destruct IH as (Hlive & Hlen & Hr & Hall & Hseal).
    pose proof (add_block_spec fuel self payload now w) as Hs. rewrite Hadd in Hs.
    destruct Hs as [(Hnil & _)|(llast & blast & _ & _ & Hcase)].
    { rewrite Hnil in Hlen. cbn in Hlen. lia. }
    assert (Hw' : exists b, w' = mkWorld (heap w ++ [b]) (stdout w)).
    { destruct Hcase as [(_ & _ & ->)|(_ & _ & ->)]; eexists; reflexivity. }
    destruct Hw' as (b & ->).
    split; [now apply live_alloc|]. split; [exact Hlen|]. split; [exact Hr|]. split.
    + intros i Hi. destruct (checks_alloc w self b (stdout w) i Hlive) as [-> _].
      now apply Hall.
    + intros i c Hat. rewrite block_at_alloc in Hat by assumption.
      exact (Hseal i c Hat).
Qed.

Lemma built_grown (self : Blockchain) (w : world) : built self w -> grown self w.
Proof.
  induction 1 as [fuel d now w0 w self Hinit
                 |fuel payload now mined self self' w w' Hbuilt IH Hadd].
  - exact (grown_init str_float capacity fuel d now w0 w self Hinit).
  - exact (grown_add str_float capacity fuel payload now mined self self' w w' IH Hadd).
Qed.

Lemma grown_valid (self : Blockchain) (w : world) :
  grown self w -> is_chain_valid self w = Ok true w.
Proof.
  intros Hg. destruct (grown_invariant self w Hg) as (Hlive & _ & Hr & Hall & _).
  now apply is_chain_valid_all_ok.
Qed.

(** ** Stores in which validation cannot raise *)

Lemma encoding_fails_false (w : world) (self : Blockchain) (i : Z) (c : Block) :
  block_at w self i = Some c -> encodable_block c = true ->
  encoding_fails w self i = false.
Proof.
  intros Hat Henc. unfold encoding_fails. rewrite Hat, Henc. apply andb_false_r.
Qed.

Lemma write_keeps_encodable (w : world) (self : Blockchain) (l : loc) (b b' : Block)
    (out : list event) :
  live w self ->
  (forall i, 1 <= i < Z.of_nat (length (chain self)) -> block_ok w self i = true) ->
  heap w !! l = Some b ->
  encodable_block b' = true ->
  forall i, 1 <= i < Z.of_nat (length (chain self)) ->
    encoding_fails (mkWorld (<[l := b']> (heap w)) out) self i = false.
Proof.
  intros Hlive Hall Hb Henc i Hi.
  destruct (live_lookup w self i Hlive ltac:(lia)) as (li & ci & Hli & Hci).
  destruct (Nat.eq_dec li l) as [->|Hne].
  - apply (encoding_fails_false _ _ _ b'); [|exact Henc].
    apply (block_at_insert_eq w self i l b b'); [lia|exact Hli|exact Hb].
  - apply (encoding_fails_false _ _ _ ci).
    + rewrite block_at_insert_ne by (rewrite Hli; congruence).
      apply (block_at_Some w self i li ci); [lia|exact Hli|exact Hci].
    + pose proof (block_at_Some w self i li ci ltac:(lia) Hli Hci) as Hat.
      destruct (block_ok_parts w self i (Hall i Hi)) as (_ & Hh & _).
      now destruct (hash_ok_eq w self i ci Hat Hh).
Qed.

Lemma invalid_returns_false (self : Blockchain) (w : world) (j : Z) :
  live w self ->
  prefix_error self = None ->
  (forall i, 1 <= i < Z.of_nat (length (chain self)) ->
     encoding_fails w self i = false) ->
  1 <= j < Z.of_nat (length (chain self)) ->
  block_ok w self j = false ->
  exists i, 1 <= i <= j /\
    (forall k, 1 <= k < i -> block_ok w self k = true) /\
    block_ok w self i = false /\
    is_chain_valid self w
    = Ok false (mkWorld (heap w) (stdout w ++ [first_failure w self i])).
Proof.
  intros Hlive Hr Hnofail Hj Hbad.
  destruct (is_chain_valid_outcome self w Hlive Hr)
    as [[_ Hall]|(i & Hi & Hbefore & Hbadi & Hrun)].
  { rewrite (Hall j Hj) in Hbad. discriminate. }
  exists i. rewrite (Hnofail i Hi) in Hrun.
  split; [|now split]. split; [lia|].
  destruct (Z_le_gt_dec i j) as [Hle|Hgt]; [exact Hle|].
  rewrite (Hbefore j) in Hbad by lia. discriminate.
Qed.

(** ** Mining *)

(** C1 (as amended).  When [proof_of_work(block)] returns, it returns the
    reference it was given; the object behind it was updated in place
    (every other object of the store is as before, and so are the index,
    timestamp, data and previous_hash of the block); the stored hash has
    the prefix ["0" * difficulty], hence at least [difficulty] leading
    zero characters; and the stored hash is what [calculate_hash] returns
    on the final attributes. *)
Theorem proof_of_work_postcondition
    (fuel : nat) (self : Blockchain) (block r : loc) (w w' : world) :
  proof_of_work fuel self block w = Ok r w' ->
  r = block /\
  exists b b',
    heap w !! block = Some b /\
    heap w' = <[block := b']> (heap w) /\
    heap w' !! block = Some b' /\
    (forall l, l <> block -> heap w' !! l = heap w !! l) /\
    index b' = index b /\ timestamp b' = timestamp b /\
    data b' = data b /\ previous_hash b' = previous_hash b /\
    startswith (hash b') (repeat_str (py "0") (difficulty self)) = true /\
    (Z.to_nat (difficulty self) <= leading_zeros (hash b'))%nat /\
    calculate_hash block w' = Ok (hash b') w'.
Proof.
  intros Hrun.
  pose proof (proof_of_work_spec fuel self block w) as Hspec.
  rewrite Hrun in Hspec.
  destruct Hspec as (_ & b & k & Hb & Henc & -> & Hk & _ & Hpre & ->).
  split; [reflexivity|]. exists b, (sealed b k). cbn [heap].
  pose proof (lookup_insert_same _ _ _ (sealed b k) Hb) as Hb'.
  repeat (split; [first [assumption | reflexivity]|]).
  split; [intros l Hne; now apply list_lookup_insert_ne|].
  repeat (split; [first [assumption | reflexivity]|]).
  split; [now apply startswith_repeat_zeros|].
  rewrite (calculate_hash_Some _ (sealed b k)) by exact Hb'.
  now rewrite encodable_block_sealed, Henc, <- sealed_hash.
Qed.

(** C8.  With difficulty 0 the loop of [proof_of_work] ends in its first
    iteration on every block of the store: one unit of fuel is enough.
    When the text of the block can be encoded the call returns, the hash
    is computed once, the attempt counter printed is 0 and the nonce is
    left as it was; otherwise that first computation raises
    [UnicodeEncodeError].  The call returns in this way on every block that
    [Block(...)] has built, whose nonce is 0, and on every block of a
    chain made by the constructor and [add_block]. *)
Theorem proof_of_work_difficulty_zero (fuel : nat) (self : Blockchain) (w : world) :
  difficulty self = 0 ->
  (forall (block : loc) (b : Block),
     heap w !! block = Some b ->
     proof_of_work (S fuel) self block w
     = (if encodable_block b
        then Ok block
               (mkWorld (<[block := with_hash (digest_of b) b]> (heap w))
                  (stdout w ++ [Mined (index b) (nonce b) (digest_of b) 0]))
        else Raise UnicodeEncodeError w) /\
     nonce (with_hash (digest_of b) b) = nonce b) /\
  (forall (idx : Z) (ts : float) (d prev : pystr) (l : loc) (w1 : world),
     Block_init idx ts d prev w = Ok l w1 ->
     exists w' b',
       proof_of_work (S fuel) self l w1 = Ok l w' /\
       heap w' !! l = Some b' /\ nonce b' = 0 /\
       List.last (stdout w') (Mined 0 0 [] 1) = Mined idx 0 (hash b') 0) /\
  (grown self w ->
   forall (block : loc) (b : Block),
     In block (chain self) ->
     heap w !! block = Some b ->
     proof_of_work (S fuel) self block w
     = Ok block
         (mkWorld (<[block := with_hash (digest_of b) b]> (heap w))
            (stdout w ++ [Mined (index b) (nonce b) (digest_of b) 0]))).
Proof.
  intros Hd.
  assert (Hone : forall (l : loc) (bl : Block) (w1 : world),
    heap w1 !! l = Some bl ->
    proof_of_work (S fuel) self l w1
    = if encodable_block bl
      then Ok l (mkWorld (<[l := with_hash (digest_of bl) bl]> (heap w1))
                   (stdout w1 ++ [Mined (index bl) (nonce bl) (digest_of bl) 0]))
      else Raise UnicodeEncodeError w1).
  { intros l bl w1. apply proof_of_work_empty_prefix. lia. }
  split; [|split].
  - intros block b Hb. split; [now apply Hone|reflexivity].
  - intros idx ts d prev l w1 Hinit. rewrite Block_init_spec in Hinit.
    destruct (encodable d && encodable prev) eqn:Henc; [|discriminate].
    injection Hinit as <- <-.
    set (w1 := mkWorld _ _).
    assert (Hl : heap w1 !! length (heap w) = Some (new_block idx ts d prev))
      by apply lookup_snoc.
    rewrite (Hone _ _ _ Hl), encodable_block_new_block, Henc.
    eexists _, _. split; [reflexivity|]. cbn [heap stdout].
    split; [apply (lookup_insert_same _ _ _ _ Hl)|].
    split; [reflexivity|].
    rewrite last_last. cbn [hash with_hash index nonce new_block]. reflexivity.
  - intros Hgrown block b Hin Hb. rewrite (Hone _ _ _ Hb).
    destruct (grown_invariant self w Hgrown) as (_ & _ & _ & _ & Hseal).
    apply list_elem_of_In, list_elem_of_lookup in Hin as [i Hi].
    assert (Hat : block_at w self (Z.of_nat i) = Some b).
    { apply (block_at_Some w self _ block); [lia| |exact Hb]. now rewrite Nat2Z.id. }
    destruct (Hseal _ _ Hat) as [_ ->]. reflexivity.
Qed.

(** ** Hashing *)

(** C2 (as amended).  [calculate_hash] joins [str(index)],
    [str(timestamp)], [data], [previous_hash] and [str(nonce)], in that
    order and with nothing between them.  When data and previous_hash hold
    no surrogate it returns the SHA-256 digest of the UTF-8 bytes of that
    text, as 64 lowercase hexadecimal digits; otherwise it raises
    [UnicodeEncodeError].  Either way it leaves the store (so every
    attribute of the block, the nonce included) and the output as they
    were, and any call on an object with the same five attributes, in any
    store, has the same outcome.  The digest function takes the values
    that FIPS 180-4 gives for its test messages, and the value that
    SHA-256 has on the UTF-8 bytes of U+00E9 U+20AC U+1F600. *)
Theorem calculate_hash_deterministic_pure (self : loc) (b : Block) (w : world) :
  heap w !! self = Some b ->
  let text :=
    str_int (index b) ++ py (str_float (timestamp b)) ++ data b
    ++ previous_hash b ++ str_int (nonce b) in
  calculate_hash self w
  = (if encodable (data b) && encodable (previous_hash b)
     then Ok (sha256_hexdigest (utf8 text)) w
     else Raise UnicodeEncodeError w) /\
  length (sha256_hexdigest (utf8 text)) = 64%nat /\
  forallb is_lower_hex (sha256_hexdigest (utf8 text)) = true /\
  (forall (self' : loc) (b' : Block) (w' : world),
     heap w' !! self' = Some b' ->
     index b' = index b -> timestamp b' = timestamp b -> data b' = data b ->
     previous_hash b' = previous_hash b -> nonce b' = nonce b ->
     calculate_hash self' w'
     = if encodable (data b) && encodable (previous_hash b)
       then Ok (sha256_hexdigest (utf8 text)) w'
       else Raise UnicodeEncodeError w') /\
  sha256_hexdigest (utf8 (py "abc"))
  = py "ba7816bf8f01cfea414140de5dae2223b00361a396177a9cb410ff61f20015ad" /\
  sha256_hexdigest (utf8 [])
  = py "e3b0c44298fc1c149afbf4c8996fb92427ae41e4649b934ca495991b7852b855" /\
  sha256_hexdigest
    (utf8 (py "abcdbcdecdefdefgefghfghighijhijkijkljklmklmnlmnomnopnopq"))
  = py "248d6a61d20638b8e5c026930c3e6039a33ce45964ff2167f6ecedd419db06c1" /\
  sha256_hexdigest (utf8 [0xE9; 0x20AC; 0x1F600]%N)
  = py "df9226927fd572c1ee66eec85de1bb139497614899f36e4e90474cb71f6ef9d0".
Proof.
  intros Hb text.
  split; [|split; [apply sha256_hexdigest_length|split; [apply sha256_hexdigest_lower|]]].
  { rewrite (calculate_hash_Some _ _ _ Hb), encodable_block_eq. reflexivity. }
  split.
  { intros self' b' w' Hb' Hi Ht Hd Hp Hn.
    rewrite (calculate_hash_Some _ _ _ Hb'), encodable_block_eq, Hd, Hp.
    rewrite (digest_of_ext b' b) by assumption. reflexivity. }
  repeat split; vm_compute; reflexivity.
Qed.

(** ** Validation of a chain that holds the genesis block only *)

(** C10 (as amended).  On a chain of length 1, [is_chain_valid] first
    builds the prefix ["0" * difficulty].  When the difficulty fits an
    index-sized integer and the prefix fits the memory, it then returns
    [True] and prints nothing, whatever the store holds, because the loop
    over [range(1, 1)] has no iteration and no attribute of the genesis
    block is read.  Otherwise it raises [OverflowError], for a difficulty
    that does not fit, or [MemoryError], for a prefix that is too long. *)
Theorem is_chain_valid_genesis_only (self : Blockchain) (w : world) :
  length (chain self) = 1%nat ->
  is_chain_valid self w
  = (match prefix_error self with Some e => Raise e w | None => Ok true w end) /\
  (- 2 ^ 63 <= difficulty self < 2 ^ 63 ->
   difficulty self <= 0 \/ difficulty self <= capacity ->
   is_chain_valid self w = Ok true w) /\
  (difficulty self < - 2 ^ 63 \/ 2 ^ 63 <= difficulty self ->
   is_chain_valid self w = Raise overflow w) /\
  (0 < difficulty self < 2 ^ 63 -> capacity < difficulty self ->
   is_chain_valid self w = Raise MemoryError w).
Proof.
  intros Hlen. rewrite is_chain_valid_unfold, Hlen. cbn [is_chain_valid_loop range].
  split; [reflexivity|]. split; [|split].
  - intros Hd Hc. now rewrite prefix_error_fits.
  - intros Hd. now rewrite prefix_error_overflow.
  - intros Hd Hc. now rewrite prefix_error_memory.
Qed.

(** ** Validation in general *)

(** C4 (as amended).  On a chain whose references are all in the store,
    [is_chain_valid] first builds the prefix: it raises [OverflowError]
    when the difficulty does not fit an index-sized integer, and
    [MemoryError] when the prefix does not fit the memory.  Otherwise it
    returns [True], printing nothing, exactly when every position [i] from
    1 to [len(chain) - 1] passes the previous-hash check, the
    recomputed-hash check and the difficulty check; and when some position
    fails, it stops at the smallest one: it raises [UnicodeEncodeError]
    when that block passes the previous-hash check and its text cannot be
    encoded, and otherwise returns [False] after printing one line, for the
    first check (in the order above) that fails there.  The genesis block
    takes part through its stored hash, as the predecessor of block 1, and
    through nothing else: replacing its other attributes changes neither
    the outcome nor the line printed. *)
Theorem is_chain_valid_characterization (self : Blockchain) (w : world) :
  live w self ->
  (difficulty self < - 2 ^ 63 \/ 2 ^ 63 <= difficulty self ->
   is_chain_valid self w = Raise overflow w) /\
  (0 < difficulty self < 2 ^ 63 -> capacity < difficulty self ->
   is_chain_valid self w = Raise MemoryError w) /\
  (- 2 ^ 63 <= difficulty self < 2 ^ 63 ->
   difficulty self <= 0 \/ difficulty self <= capacity ->
   (is_chain_valid self w = Ok true w <->
    forall i, 1 <= i < Z.of_nat (length (chain self)) ->
      link_ok w self i = true /\ hash_ok w self i = true /\
      difficulty_ok w self i = true) /\
   (forall i, 1 <= i < Z.of_nat (length (chain self)) ->
      (forall j, 1 <= j < i -> block_ok w self j = true) ->
      block_ok w self i = false ->
      is_chain_valid self w
      = if encoding_fails w self i then Raise UnicodeEncodeError w
        else Ok false (mkWorld (heap w) (stdout w ++ [first_failure w self i]))) /\
   ((forall i, 1 <= i < Z.of_nat (length (chain self)) -> block_ok w self i = true) \/
    (exists i, 1 <= i < Z.of_nat (length (chain self)) /\
       (forall j, 1 <= j < i -> block_ok w self j = true) /\
       block_ok w self i = false))) /\
  (forall (l0 : loc) (b0 b0' : Block),
     chain self !! 0%nat = Some l0 ->
     (forall k, (1 <= k)%nat -> chain self !! k <> Some l0) ->
     heap w !! l0 = Some b0 ->
     hash b0' = hash b0 ->
     (forall v out,
        is_chain_valid self w = Ok v (mkWorld (heap w) (stdout w ++ out)) ->
        is_chain_valid self (mkWorld (<[l0 := b0']> (heap w)) (stdout w))
        = Ok v (mkWorld (<[l0 := b0']> (heap w)) (stdout w ++ out))) /\
     (forall e,
        is_chain_valid self w = Raise e w ->
        is_chain_valid self (mkWorld (<[l0 := b0']> (heap w)) (stdout w))
        = Raise e (mkWorld (<[l0 := b0']> (heap w)) (stdout w)))).
Proof.
  intros Hlive. split; [|split; [|split]].
  - intros Hd. now rewrite is_chain_valid_unfold, prefix_error_overflow.
  - intros Hd Hc. now rewrite is_chain_valid_unfold, prefix_error_memory.
  - intros Hd Hc. pose proof (prefix_error_fits self Hd Hc) as Hr.
    split; [|split].
    + split.
      * intros Hrun i Hi.
        destruct (is_chain_valid_true self w w Hlive Hrun) as [_ Hall].
        now apply block_ok_parts, Hall.
      * intros Hall. apply is_chain_valid_all_ok; [assumption..|].
        intros i Hi. destruct (Hall i Hi) as (H1 & H2 & H3).
        unfold block_ok. now rewrite H1, H2, H3.
    + intros i Hi Hbefore Hbad. now apply is_chain_valid_first_bad.
    + destruct (is_chain_valid_outcome self w Hlive Hr)
        as [[_ Hall]|(i & Hi & Hbefore & Hbad & _)]; [now left|].
      right. now exists i.
  - intros l0 b0 b0' Hl0 Hothers Hb0 Hhash.
    set (w' := mkWorld (<[l0 := b0']> (heap w)) (stdout w)).
    apply (is_chain_valid_agree self w w' Hlive); [now apply live_insert|].
    intros i Hi.
    assert (Hat : block_at w' self i = block_at w self i).
    { apply block_at_insert_ne, Hothers. lia. }
    assert (Hprev : hash <$> block_at w' self (i - 1) = hash <$> block_at w self (i - 1)).
    { unfold w'. destruct (Z.eq_dec i 1) as [->|Hne].
      - change (1 - 1) with 0.
        rewrite (block_at_insert_eq w self 0 l0 b0 b0' _ ltac:(lia) Hl0 Hb0).
        rewrite (block_at_Some w self 0 l0 b0 ltac:(lia) Hl0 Hb0).
        cbn. now rewrite Hhash.
      - rewrite block_at_insert_ne; [reflexivity|]. apply Hothers. lia. }
    destruct (checks_agree w w' self i Hat Hprev) as (_ & _ & _ & H1 & H2 & H3).
    now split.
Qed.

(** ** Tampering: errors and frame *)

(** C6 (as amended).  [tamper_with_block(index, new_data)] raises
    [IndexError] when [index] is 0 or is not a position of the chain (the
    length of the chain included), and only then; the store and the
    output are then as before the call, so the chain reads and validates
    as before.  The only other error is [UnicodeEncodeError], at a
    position of the chain other than 0, when the text of the block with
    its new data cannot be encoded: the new data is then already written
    and the stored hash is the old one.  On a chain whose references are
    all in the store, a call at such a position returns or raises
    according to that test. *)
Theorem tamper_out_of_range
    (self : Blockchain) (index : Z) (new_data : pystr) (w : world) :
  (index = 0 \/ ~ (0 <= index < Z.of_nat (length (chain self))) ->
   tamper_with_block self index new_data w = Raise out_of_range w) /\
  (forall e w',
     tamper_with_block self index new_data w = Raise e w' ->
     (e = out_of_range /\
      (index = 0 \/ ~ (0 <= index < Z.of_nat (length (chain self)))) /\
      w' = w) \/
     (e = UnicodeEncodeError /\
      0 < index < Z.of_nat (length (chain self)) /\
      exists l b,
        chain self !! Z.to_nat index = Some l /\
        heap w !! l = Some b /\
        encodable new_data && encodable (previous_hash b) = false /\
        w' = mkWorld (<[l := with_data new_data b]> (heap w)) (stdout w))) /\
  (live w self ->
   0 < index < Z.of_nat (length (chain self)) ->
   exists l b,
     chain self !! Z.to_nat index = Some l /\
     heap w !! l = Some b /\
     tamper_with_block self index new_data w
     = if encodable new_data && encodable (previous_hash b)
       then Ok tt (mkWorld (<[l := tampered new_data b]> (heap w)) (stdout w))
       else Raise UnicodeEncodeError
              (mkWorld (<[l := with_data new_data b]> (heap w)) (stdout w))).
Proof.
  split; [|split].
  - intros H. apply tamper_guard_true. lia.
  - intros e w' Hrun.
    destruct (Z.le_gt_cases index 0) as [H0|H0].
    { rewrite tamper_guard_true in Hrun by lia. injection Hrun as <- <-.
      left. repeat split. lia. }
    destruct (Z.le_gt_cases (Z.of_nat (length (chain self))) index) as [H1|H1].
    { rewrite tamper_guard_true in Hrun by lia. injection Hrun as <- <-.
      left. repeat split. lia. }
    destruct (lookup_lt_is_Some_2 (chain self) (Z.to_nat index) ltac:(lia)) as [l Hl].
    destruct (heap w !! l) as [b|] eqn:Hb.
    + rewrite (tamper_run self index new_data w l b) in Hrun by (lia || assumption).
      rewrite encodable_block_eq in Hrun. cbn [data previous_hash with_data] in Hrun.
      destruct (encodable new_data && encodable (previous_hash b)) eqn:Henc;
        [discriminate|].
      injection Hrun as <- <-. right. split; [reflexivity|]. split; [lia|].
      now exists l, b.
    + rewrite (tamper_dangling self index new_data w l) in Hrun by (lia || assumption).
      discriminate.
  - intros Hlive Hin.
    destruct (live_lookup w self index Hlive ltac:(lia)) as (l & b & Hl & Hb).
    exists l, b. split; [exact Hl|]. split; [exact Hb|].
    rewrite (tamper_run self index new_data w l b) by (lia || assumption).
    now rewrite encodable_block_eq.
Qed.

(** C9 (as amended).  On a chain whose references are all in the store
    and for a position [index] with [0 < index < len(chain)],
    [tamper_with_block] writes the new data and then recomputes the hash.
    When the new data and the previous_hash of the block hold no
    surrogate, it returns and the stored hash is the digest of the new
    attributes (the nonce is not searched again); otherwise it raises
    [UnicodeEncodeError] and the stored hash is the old one.  Either way
    the block keeps its index, timestamp, previous_hash and nonce, its
    data is [new_data], and every other object of the store, the size of
    the store and the output are unchanged, so every position of the chain
    that holds another object reads as before.  The chain object itself
    (its difficulty and its list) is not assigned to by the method. *)
Theorem tamper_frame
    (self : Blockchain) (idx : Z) (new_data : pystr) (w : world) :
  live w self ->
  0 < idx < Z.of_nat (length (chain self)) ->
  exists l b b' w',
    chain self !! Z.to_nat idx = Some l /\
    heap w !! l = Some b /\
    tamper_with_block self idx new_data w
    = (if encodable new_data && encodable (previous_hash b)
       then Ok tt w' else Raise UnicodeEncodeError w') /\
    heap w' !! l = Some b' /\
    index b' = index b /\ timestamp b' = timestamp b /\
    previous_hash b' = previous_hash b /\ nonce b' = nonce b /\
    data b' = new_data /\
    hash b' = (if encodable new_data && encodable (previous_hash b)
               then digest_of b' else hash b) /\
    (forall l', l' <> l -> heap w' !! l' = heap w !! l') /\
    length (heap w') = length (heap w) /\
    stdout w' = stdout w /\
    (forall j, chain self !! Z.to_nat j <> Some l ->
       block_at w' self j = block_at w self j).
Proof.
  intros Hlive Hi.
  destruct (live_lookup w self idx Hlive ltac:(lia)) as (l & b & Hl & Hb).
  pose proof (tamper_run self idx new_data w l b Hi Hl Hb) as Hrun.
  rewrite encodable_block_eq in Hrun. cbn [data previous_hash with_data] in Hrun.
  destruct (encodable new_data && encodable (previous_hash b)) eqn:Henc.
  - exists l, b, (tampered new_data b),
      (mkWorld (<[l := tampered new_data b]> (heap w)) (stdout w)).
    rewrite Henc.
    split; [exact Hl|]. split; [exact Hb|]. split; [exact Hrun|]. cbn [heap stdout].
    split; [now apply (lookup_insert_same _ _ b)|].
    do 5 (split; [reflexivity|]).
    split; [apply tampered_hash|].
    split; [intros l' Hne; now apply list_lookup_insert_ne|].
    split; [apply length_insert|]. split; [reflexivity|].
    intros j Hj. now apply block_at_insert_ne.
  - exists l, b, (with_data new_data b),
      (mkWorld (<[l := with_data new_data b]> (heap w)) (stdout w)).
    rewrite Henc.
    split; [exact Hl|]. split; [exact Hb|]. split; [exact Hrun|]. cbn [heap stdout].
    split; [now apply (lookup_insert_same _ _ b)|].
    do 6 (split; [reflexivity|]).
    split; [intros l' Hne; now apply list_lookup_insert_ne|].
    split; [apply length_insert|]. split; [reflexivity|].
    intros j Hj. now apply block_at_insert_ne.
Qed.

(** ** Chains made by the constructor and [add_block] *)

(** C3 (as amended).  On every chain made by the constructor followed by
    any number of calls to [add_block], whether they returned or raised:
    [is_chain_valid] returns [True], and every block after the first
    stores as previous_hash the hash of the block before it.  A further
    [add_block] with a payload that holds a surrogate raises
    [UnicodeEncodeError] and leaves the chain as it was, still valid.  With
    any other payload it raises nothing: it returns as soon as mining
    reaches a nonce whose digest has the prefix (at once when the
    difficulty is 0 or less), and is still mining while no nonce tried so
    far has one; when it returns, it returns the mined block, which it has
    appended as the one new element of the chain, with index equal to the
    length before the call and previous_hash equal to the hash of the
    block that was last, the earlier blocks and the difficulty being as
    before. *)
Theorem grown_chain_valid (self : Blockchain) (w : world) :
  grown self w ->
  is_chain_valid self w = Ok true w /\
  (forall i current previous,
     1 <= i ->
     block_at w self i = Some current ->
     block_at w self (i - 1) = Some previous ->
     previous_hash current = hash previous) /\
  (forall (fuel : nat) (payload : pystr) (now : float),
     match add_block fuel self payload now w with
     | Ok (mined, self') w' =>
         encodable payload = true /\
         chain self' = chain self ++ [mined] /\
         difficulty self' = difficulty self /\
         (forall i, 0 <= i < Z.of_nat (length (chain self)) ->
            block_at w' self' i = block_at w self i) /\
         (exists b blast,
            heap w' !! mined = Some b /\
            block_at w' self' (Z.of_nat (length (chain self))) = Some b /\
            block_at w self (Z.of_nat (length (chain self)) - 1) = Some blast /\
            index b = Z.of_nat (length (chain self)) /\
            timestamp b = now /\ data b = payload /\
            previous_hash b = hash blast /\
            hash b = digest_of b /\
            startswith (hash b) (repeat_str (py "0") (difficulty self)) = true) /\
         grown self' w' /\
         is_chain_valid self' w' = Ok true w'
     | Raise e w' =>
         e = UnicodeEncodeError /\ encodable payload = false /\
         (forall i, block_at w' self i = block_at w self i) /\
         grown self w' /\
         is_chain_valid self w' = Ok true w'
     | Dangling => False
     | OutOfFuel =>
         encodable payload = true /\
         exists blast,
           block_at w self (Z.of_nat (length (chain self)) - 1) = Some blast /\
           forall j, 0 <= j < Z.of_nat fuel ->
             startswith
               (digest_of (with_nonce j (new_block (Z.of_nat (length (chain self)))
                                           now payload (hash blast))))
               (repeat_str (py "0") (difficulty self)) = false
     end) /\
  (forall (fuel : nat) (payload : pystr) (now : float) (blast : Block) (k : Z),
     encodable payload = true ->
     block_at w self (Z.of_nat (length (chain self)) - 1) = Some blast ->
     0 <= k < Z.of_nat fuel ->
     startswith
       (digest_of (with_nonce k (new_block (Z.of_nat (length (chain self))) now
                                   payload (hash blast))))
       (repeat_str (py "0") (difficulty self)) = true ->
     exists mined self' w', add_block fuel self payload now w = Ok (mined, self') w') /\
  (forall (fuel : nat) (payload : pystr) (now : float),
     encodable payload = true ->
     difficulty self <= 0 ->
     exists mined self' w',
       add_block (S fuel) self payload now w = Ok (mined, self') w').
Proof.
  intros Hgrown.
  destruct (grown_invariant self w Hgrown) as (Hlive & Hlen & Hr & Hall & Hseal).
  assert (Hlastenc : forall blast,
    block_at w self (Z.of_nat (length (chain self)) - 1) = Some blast ->
    encodable (hash blast) = true).
  { intros blast Hat. destruct (Hseal _ _ Hat) as [-> _]. apply encodable_digest. }
  assert (Hreturns :
    forall (fuel : nat) (payload : pystr) (now : float) (blast : Block) (k : Z),
     encodable payload = true ->
     block_at w self (Z.of_nat (length (chain self)) - 1) = Some blast ->
     0 <= k < Z.of_nat fuel ->
     startswith
       (digest_of (with_nonce k (new_block (Z.of_nat (length (chain self))) now
                                   payload (hash blast))))
       (target self) = true ->
     exists mined self' w', add_block fuel self payload now w = Ok (mined, self') w').
  { intros fuel payload now blast k Hpay Hat Hk Hpre.
    pose proof (add_block_spec fuel self payload now w) as Hs.
    destruct (add_block fuel self payload now w) as [[mined self'] w'|e w'| |].
    - now exists mined, self', w'.
    - destruct Hs as [(Hnil & _)|(llast & blast' & Hll & Hbl & Hcase)].
      { rewrite Hnil in Hlen. cbn in Hlen. lia. }
      destruct (last_block_at w self llast blast' Hll Hbl) as [_ Hat'].
      assert (blast' = blast) as -> by congruence.
      rewrite Hpay, (Hlastenc blast Hat) in Hcase.
      destruct Hcase as [(Hbad & _)|(_ & Hbad & _)]; [discriminate|congruence].
    - destruct Hs as (llast & Hll & Hnone).
      destruct (live_lookup w self (Z.of_nat (length (chain self)) - 1) Hlive ltac:(lia))
        as (l & b & Hl & Hb).
      replace (Z.to_nat (Z.of_nat (length (chain self)) - 1))
        with (length (chain self) - 1)%nat in Hl by lia.
      congruence.
    - destruct Hs as (llast & blast' & Hll & Hbl & _ & _ & Hnone).
      destruct (last_block_at w self llast blast' Hll Hbl) as [_ Hat'].
      assert (blast' = blast) as -> by congruence.
      rewrite (Hnone k Hk) in Hpre. discriminate. }
  split; [now apply grown_valid|]. split; [|split; [|split; [exact Hreturns|]]].
  - intros i current previous Hi Hcur Hprev.
    destruct (block_at_inv _ _ _ _ Hcur) as [Hlt _].
    destruct (block_ok_parts w self i (Hall i ltac:(lia))) as (Hlink & _ & _).
    exact (link_ok_eq w self i current previous Hcur Hprev Hlink).
  - intros fuel payload now.
    pose proof (add_block_spec fuel self payload now w) as Hs.
    destruct (add_block fuel self payload now w) as [[mined self'] w'|e w'| |] eqn:Hadd.
    + pose proof (grown_add str_float capacity fuel payload now _ self _ w _ Hgrown Hadd)
        as Hgrown'.
      destruct Hs as (llast & blast & k & Hllast & Hblast & Henc & _ & -> & -> & Hk
                      & _ & Hpre & ->).
      destruct (last_block_at w self llast blast Hllast Hblast) as [_ Hatlast].
      apply andb_prop in Henc as [Hpay _].
      split; [exact Hpay|]. split; [reflexivity|]. split; [reflexivity|].
      split; [intros i Hi; now apply block_at_append_old|].
      split; [|split; [exact Hgrown'|now apply grown_valid]].
      eexists _, blast. cbn [heap].
      split; [apply lookup_snoc|].
      split; [now apply block_at_append_new|].
      split; [exact Hatlast|].
      do 4 (split; [reflexivity|]). split; [apply sealed_hash | exact Hpre].
    + pose proof (grown_raise str_float capacity fuel payload now e self w w' Hgrown Hadd)
        as Hgrown'.
      destruct Hs as [(Hnil & _)|(llast & blast & Hll & Hbl & Hcase)].
      { rewrite Hnil in Hlen. cbn in Hlen. lia. }
      destruct (last_block_at w self llast blast Hll Hbl) as [_ Hat].
      rewrite (Hlastenc blast Hat), andb_true_r in Hcase.
      destruct Hcase as [(Hpay & -> & ->)|(_ & Hbad & _)]; [|congruence].
      split; [reflexivity|]. split; [exact Hpay|].
      split; [intros i; now apply block_at_alloc|].
      split; [exact Hgrown'|now apply grown_valid].
    + destruct Hs as (llast & Hllast & Hnone).
      destruct (live_lookup w self (Z.of_nat (length (chain self)) - 1) Hlive ltac:(lia))
        as (l & b & Hl & Hb).
      replace (Z.to_nat (Z.of_nat (length (chain self)) - 1))
        with (length (chain self) - 1)%nat in Hl by lia.
      congruence.
    + destruct Hs as (llast & blast & Hll & Hbl & Henc & _ & Hnone).
      destruct (last_block_at w self llast blast Hll Hbl) as [_ Hat].
      apply andb_prop in Henc as [Hpay _].
      split; [exact Hpay|]. now exists blast.
  - intros fuel payload now Hpay Hd.
    destruct (live_lookup w self (Z.of_nat (length (chain self)) - 1) Hlive ltac:(lia))
      as (l & blast & Hl & Hb).
    assert (Hat : block_at w self (Z.of_nat (length (chain self)) - 1) = Some blast)
      by (apply (block_at_Some w self _ l blast); [lia|exact Hl|exact Hb]).
    apply (Hreturns (S fuel) payload now blast 0 Hpay Hat); [lia|].
    rewrite target_nonpos by exact Hd. reflexivity.
Qed.

(** ** The constructor and the difficulty *)

(** C7 (as amended).  The constructor does not check the difficulty.  For
    a negative difficulty that fits an index-sized integer it raises
    nothing and, with one iteration of the mining loop, returns a chain
    object that stores that difficulty and holds the genesis block, sealed
    at nonce 0 because the prefix ["0" * difficulty] is empty.  Below
    that range, building the prefix raises [OverflowError], once the
    genesis block has been built. *)
Theorem Blockchain_init_negative_difficulty
    (fuel : nat) (d : Z) (now : float) (w : world) :
  d < 0 ->
  Blockchain_init (S fuel) d now w
  = (if in_index_range d
     then Ok (mkBlockchain d [length (heap w)])
            (mkWorld (heap w ++ [new_block 0 now (py "Genesis Block") (py "0")])
               (stdout w ++
                [Mined 0 0 (hash (new_block 0 now (py "Genesis Block") (py "0"))) 0]))
     else Raise overflow
            (mkWorld (heap w ++ [new_block 0 now (py "Genesis Block") (py "0")])
               (stdout w))) /\
  (- 2 ^ 63 <= d ->
   in_index_range d = true /\
   forall (fuel' : nat) (e : exn) (w' : world),
     Blockchain_init fuel' d now w <> Raise e w').
Proof.
  intros Hd. split.
  - unfold Blockchain_init, create_genesis_block.
    unfold bind at 1 2. rewrite Block_init_spec, !encodable_py. cbn [andb].
    set (b0 := new_block 0 now (py "Genesis Block") (py "0")).
    assert (Hb0 : heap (mkWorld (heap w ++ [b0]) (stdout w)) !! length (heap w) = Some b0)
      by apply lookup_snoc.
    unfold bind.
    destruct (in_index_range d) eqn:Hr.
    + apply in_index_range_spec in Hr.
      rewrite (proof_of_work_empty_prefix fuel (mkBlockchain d []) _ b0 _
                 ltac:(cbn; lia) Hb0).
      unfold b0 at 1. rewrite encodable_genesis.
      unfold ret. cbn [heap stdout]. f_equal. f_equal.
      rewrite insert_app_r_alt by lia. now rewrite Nat.sub_diag.
    + rewrite proof_of_work_unfold, prefix_error_overflow; [reflexivity|].
      cbn [difficulty]. destruct (Z_lt_le_dec d (- 2 ^ 63)) as [Hl|Hl]; [now left|].
      rewrite (proj2 (in_index_range_spec d)) in Hr by lia. discriminate.
  - intros Hlo. assert (Hr : in_index_range d = true)
      by (apply in_index_range_spec; lia).
    split; [exact Hr|].
    intros fuel' e w' Hrun. unfold Blockchain_init, bind in Hrun.
    pose proof (create_genesis_block_spec fuel' (mkBlockchain d []) now w) as Hg.
    destruct (create_genesis_block fuel' _ now w); try discriminate.
    destruct Hg as (Hbad & _).
    rewrite prefix_error_nonpos in Hbad by (cbn [difficulty]; lia). discriminate.
Qed.

(** ** Tampering is detected *)

(** C5 (as amended).  Take a chain of at least three blocks on which
    [is_chain_valid] returns [True], call [tamper_with_block(1, new_data)]
    and suppose it returns and the hash recomputed for block 1 differs from
    the one it had (as it does when the data changes, short of a SHA-256
    collision).  Then [is_chain_valid] returns [False].  When block 1 is
    not the genesis object, what it reports is the difficulty check on
    block 1 if the new hash lacks the prefix ["0" * difficulty], and the
    previous-hash check on block 2 if the new hash happens to have it. *)
Theorem tamper_detected
    (self : Blockchain) (new_data : pystr) (w w1 : world) (l0 l1 : loc)
    (b1 b1' : Block) :
  live w self ->
  (3 <= length (chain self))%nat ->
  is_chain_valid self w = Ok true w ->
  tamper_with_block self 1 new_data w = Ok tt w1 ->
  chain self !! 0%nat = Some l0 ->
  chain self !! 1%nat = Some l1 ->
  heap w !! l1 = Some b1 ->
  heap w1 !! l1 = Some b1' ->
  hash b1' <> hash b1 ->
  exists out,
    is_chain_valid self w1 = Ok false (mkWorld (heap w1) (stdout w1 ++ out)) /\
    (l0 <> l1 ->
     out = if startswith (hash b1') (repeat_str (py "0") (difficulty self))
           then [PreviousHashMismatch 2]
           else [DifficultyNotSatisfied 1 (repeat_str (py "0") (difficulty self))]).
Proof.
  intros Hlive Hlen Hvalid Htamper Hl0 Hl1 Hb1 Hb1' Hneq.
  (* the store after the call *)
  destruct (tamper_returned self 1 new_data w w1 l1 b1 ltac:(lia) Hl1 Hb1 Htamper)
    as [Henc ->].
  cbn [heap] in Hb1'.
  rewrite (lookup_insert_same _ _ _ _ Hb1) in Hb1'. injection Hb1' as <-.
  set (b1' := tampered new_data b1) in *.
  set (w1 := mkWorld (<[l1 := b1']> (heap w)) (stdout w)).
  assert (Hlive1 : live w1 self) by now apply live_insert.
  (* the chain was valid *)
  destruct (is_chain_valid_true self w w Hlive Hvalid) as [Hr Hall].
  assert (Hnofail : forall i, 1 <= i < Z.of_nat (length (chain self)) ->
            encoding_fails w1 self i = false)
    by exact (write_keeps_encodable w self l1 b1 b1' (stdout w) Hlive Hall Hb1 Henc).
  destruct (live_lookup w self 0 Hlive ltac:(lia)) as (l0' & b0 & Hl0' & Hb0).
  change (Z.to_nat 0) with 0%nat in Hl0'. rewrite Hl0 in Hl0'. injection Hl0' as <-.
  destruct (live_lookup w self 2 Hlive ltac:(lia)) as (l2 & b2 & Hl2 & Hb2).
  pose proof (block_at_Some w self 0 l0 b0 ltac:(lia) Hl0 Hb0) as Hat0.
  pose proof (block_at_Some w self 1 l1 b1 ltac:(lia) Hl1 Hb1) as Hat1.
  pose proof (block_at_Some w self 2 l2 b2 ltac:(lia) Hl2 Hb2) as Hat2.
  assert (Hlink1 : previous_hash b1 = hash b0).
  { destruct (block_ok_parts w self 1 (Hall 1 ltac:(lia))) as (Hlink & _ & _).
    exact (link_ok_eq w self 1 b1 b0 Hat1 Hat0 Hlink). }
  assert (Hlink2 : previous_hash b2 = hash b1).
  { destruct (block_ok_parts w self 2 (Hall 2 ltac:(lia))) as (Hlink & _ & _).
    exact (link_ok_eq w self 2 b2 b1 Hat2 Hat1 Hlink). }
  (* block 2 no longer points at the hash of block 1 *)
  assert (Hat1' : block_at w1 self 1 = Some b1')
    by now apply (block_at_insert_eq w self 1 l1 b1).
  assert (Hat2' : exists c, block_at w1 self 2 = Some c /\ previous_hash c = hash b1).
  { destruct (Nat.eq_dec l2 l1) as [->|Hne].
    - exists b1'. split; [now apply (block_at_insert_eq w self 2 l1 b1)|].
      assert (b2 = b1) as -> by congruence. exact Hlink2.
    - exists b2. split; [|exact Hlink2]. unfold w1.
      rewrite block_at_insert_ne; [exact Hat2|]. rewrite Hl2. congruence. }
  destruct Hat2' as (c & Hat2' & Hc).
  assert (Hbad2 : link_ok w1 self 2 = false).
  { unfold link_ok. change (2 - 1) with 1. rewrite Hat2', Hat1', Hc.
    apply str_eqb_neq. congruence. }
  assert (Hbad2' : block_ok w1 self 2 = false).
  { unfold block_ok. now rewrite Hbad2. }
  (* the verdict *)
  destruct (invalid_returns_false self w1 2 Hlive1 Hr Hnofail ltac:(lia) Hbad2')
    as (i & Hi & Hbefore & Hbad & Hrun).
  exists [first_failure w1 self i]. split; [exact Hrun|]. intros Hdistinct.
  assert (Hat0' : block_at w1 self 0 = Some b0).
  { unfold w1. rewrite block_at_insert_ne; [exact Hat0|].
    change (Z.to_nat 0) with 0%nat. rewrite Hl0. congruence. }
  assert (Hlink1' : link_ok w1 self 1 = true).
  { unfold link_ok. change (1 - 1) with 0. rewrite Hat1', Hat0'.
    apply str_eqb_eq. exact Hlink1. }
  assert (Hhash1' : hash_ok w1 self 1 = true).
  { unfold hash_ok. rewrite Hat1', Henc. apply str_eqb_eq, tampered_hash. }
  assert (Hdiff1' : difficulty_ok w1 self 1
                    = startswith (hash b1') (repeat_str (py "0") (difficulty self))).
  { unfold difficulty_ok. now rewrite Hat1'. }
  destruct (startswith (hash b1') (repeat_str (py "0") (difficulty self))) eqn:Hpre.
  - assert (Hok1 : block_ok w1 self 1 = true).
    { unfold block_ok. now rewrite Hlink1', Hhash1', Hdiff1'. }
    assert (i = 2) as ->.
    { destruct (Z.eq_dec i 1) as [->|]; [congruence|]. lia. }
    unfold first_failure. now rewrite Hbad2.
  - assert (Hbad1 : block_ok w1 self 1 = false).
    { unfold block_ok. now rewrite Hlink1', Hhash1', Hdiff1'. }
    assert (i = 1) as ->.
    { destruct (Z_lt_le_dec 1 i) as [Hgt|]; [|lia].
      specialize (Hbefore 1 ltac:(lia)). congruence. }
    unfold first_failure. now rewrite Hlink1', Hhash1'.
Qed.

(** * Further properties of the methods *)

(** ** More on mining *)

(** X1.  The nonce on which [proof_of_work] settles is the first one, counting
    up from the nonce the block had, whose digest has the prefix: every
    smaller nonce from there gives a digest without it.  The attempt counter
    that is printed is the number of nonces that were rejected. *)
Theorem proof_of_work_least_nonce
    (fuel : nat) (self : Blockchain) (block r : loc) (w w' : world) :
  proof_of_work fuel self block w = Ok r w' ->
  exists b b' k,
    heap w !! block = Some b /\
    heap w' !! block = Some b' /\
    0 <= k < Z.of_nat fuel /\
    nonce b' = nonce b + k /\
    (forall j, 0 <= j < k ->
       startswith (digest_of (with_nonce (nonce b + j) b))
         (repeat_str (py "0") (difficulty self)) = false) /\
    startswith (digest_of (with_nonce (nonce b + k) b))
      (repeat_str (py "0") (difficulty self)) = true /\
    stdout w' = stdout w ++ [Mined (index b) (nonce b') (hash b') k].
Proof.
  intros Hrun.
  pose proof (proof_of_work_spec fuel self block w) as Hspec.
  rewrite Hrun in Hspec.
  destruct Hspec as (_ & b & k & Hb & _ & -> & Hk & Hmin & Hpre & ->).
  exists b, (sealed b k), k. cbn [heap stdout].
  split; [exact Hb|]. split; [now apply (lookup_insert_same _ _ b)|].
  split; [exact Hk|]. split; [reflexivity|]. split; [exact Hmin|].
  split; [exact Hpre|]. reflexivity.
Qed.

(** X2.  On a block of the store, [proof_of_work] first builds the prefix,
    which raises [OverflowError] when the difficulty does not fit an
    index-sized integer and [MemoryError] when the prefix does not fit the
    memory; its first iteration then raises [UnicodeEncodeError] when the
    text of the block cannot be encoded.  Otherwise it raises nothing: it
    returns within [fuel] iterations exactly when one of the first [fuel]
    nonces, counting up from the nonce of the block, gives a digest with
    the prefix, and is still running exactly when none does. *)
Theorem proof_of_work_returns_iff
    (fuel : nat) (self : Blockchain) (block : loc) (b : Block) (w : world) :
  heap w !! block = Some b ->
  (difficulty self < - 2 ^ 63 \/ 2 ^ 63 <= difficulty self ->
   proof_of_work fuel self block w = Raise overflow w) /\
  (0 < difficulty self < 2 ^ 63 -> capacity < difficulty self ->
   proof_of_work fuel self block w = Raise MemoryError w) /\
  (- 2 ^ 63 <= difficulty self < 2 ^ 63 ->
   difficulty self <= 0 \/ difficulty self <= capacity ->
   (encodable_block b = false ->
    proof_of_work (S fuel) self block w = Raise UnicodeEncodeError w) /\
   (encodable_block b = true ->
    ((exists w', proof_of_work fuel self block w = Ok block w') <->
     (exists k, 0 <= k < Z.of_nat fuel /\
        startswith (digest_of (with_nonce (nonce b + k) b))
          (repeat_str (py "0") (difficulty self)) = true)) /\
    (proof_of_work fuel self block w = OutOfFuel <->
     (forall k, 0 <= k < Z.of_nat fuel ->
        startswith (digest_of (with_nonce (nonce b + k) b))
          (repeat_str (py "0") (difficulty self)) = false)) /\
    (forall e w', proof_of_work fuel self block w <> Raise e w'))).
Proof.
  intros Hb. split; [|split].
  - intros Hd. now rewrite proof_of_work_unfold, prefix_error_overflow.
  - intros Hd Hc. now rewrite proof_of_work_unfold, prefix_error_memory.
  - intros Hd Hc. pose proof (prefix_error_fits self Hd Hc) as Hr. split.
    { intros Henc. rewrite proof_of_work_unfold, Hr. cbn [proof_of_work_loop].
      now rewrite (run_calculate_hash_raise _ _ _ _ Hb Henc). }
    intros Henc.
    pose proof (proof_of_work_spec fuel self block w) as Hspec.
    destruct (proof_of_work fuel self block w) as [r w'|e w'| |].
    + destruct Hspec as (_ & b0 & k & Hb0 & _ & -> & Hk & Hmin & Hpre & ->).
      assert (b0 = b) as -> by congruence.
      split; [|split].
      * split; [intros _; now exists k|]. intros _. eexists. reflexivity.
      * split; [discriminate|]. intros Hnone.
        rewrite sealed_digest in Hpre. unfold target in Hpre.
        rewrite (Hnone k Hk) in Hpre. discriminate.
      * discriminate.
    + destruct Hspec as (_ & [Hbad|(_ & b' & Hb' & Hbad & _)]); congruence.
    + destruct Hspec; congruence.
    + destruct Hspec as [_ Hspec]. split; [|split].
      * split; [intros [w' [=]]|]. intros (k & Hk & Hpre).
        destruct (Hspec b Hb k Hk) as [_ Hf]. unfold target in Hf.
        rewrite Hf in Hpre. discriminate.
      * split; [|reflexivity]. intros _ k Hk. now destruct (Hspec b Hb k Hk).
      * discriminate.
Qed.

(** X3.  A digest has 64 characters, so with a difficulty above 64 no digest
    has the prefix and [proof_of_work] never returns, on any block of any
    store.  When the prefix can be built (the difficulty is below 2^63 and
    within the memory) it is still running after any number of iterations
    on every block whose text can be encoded, and so is the constructor,
    from any store; when it cannot, both raise the error of the prefix,
    [OverflowError] from 2^63 on and [MemoryError] below. *)
Theorem proof_of_work_never_returns (fuel : nat) (self : Blockchain) (now : float) :
  64 < difficulty self ->
  (forall (block r : loc) (w w' : world),
     proof_of_work fuel self block w <> Ok r w') /\
  (forall (block : loc) (b : Block) (w : world),
     heap w !! block = Some b -> encodable_block b = true ->
     proof_of_work fuel self block w
     = match prefix_error self with Some e => Raise e w | None => OutOfFuel end) /\
  (forall w : world,
     Blockchain_init fuel (difficulty self) now w
     = match prefix_error self with
       | Some e =>
           Raise e (mkWorld (heap w ++ [new_block 0 now (py "Genesis Block") (py "0")])
                      (stdout w))
       | None => OutOfFuel
       end) /\
  prefix_error self
  = (if 2 ^ 63 <=? difficulty self then Some overflow
     else if capacity <? difficulty self then Some MemoryError else None).
Proof.
  intros Hd.
  assert (Hnever : forall (d : Z) (c : Block), 64 < d ->
    startswith (digest_of c) (repeat_str (py "0") d) = false).
  { intros d c Hd'. destruct (startswith _ _) eqn:E; [|reflexivity].
    apply startswith_length in E.
    rewrite repeat_str_zeros_length, digest_of_length in E. lia. }
  split; [|split; [|split]].
  - intros block r w w' Hrun.
    pose proof (proof_of_work_spec fuel self block w) as Hspec. rewrite Hrun in Hspec.
    destruct Hspec as (_ & b & k & _ & _ & _ & _ & _ & Hpre & _).
    rewrite sealed_digest in Hpre. unfold target in Hpre.
    rewrite Hnever in Hpre by exact Hd. discriminate.
  - intros block b w Hb Henc.
    destruct (prefix_error self) as [e|] eqn:Hr.
    + now rewrite proof_of_work_unfold, Hr.
    + apply (proof_of_work_out_of_fuel fuel self block b w Hr Hb Henc).
      intros k _. now apply Hnever.
  - intros w. unfold Blockchain_init, bind.
    pose proof (create_genesis_block_spec fuel (mkBlockchain (difficulty self) [])
                  now w) as Hg.
    assert (Hsame : prefix_error (mkBlockchain (difficulty self) []) = prefix_error self)
      by reflexivity.
    rewrite Hsame in Hg.
    destruct (create_genesis_block fuel _ now w) as [g w1|e w1| |].
    + destruct Hg as (_ & k & _ & _ & Hpre & _).
      rewrite sealed_digest in Hpre. unfold target in Hpre. cbn [difficulty] in Hpre.
      rewrite Hnever in Hpre by exact Hd. discriminate.
    + destruct Hg as (-> & ->). reflexivity.
    + destruct Hg.
    + destruct Hg as [-> _]. reflexivity.
  - rewrite prefix_error_eq. unfold in_index_range.
    destruct (Z.leb_spec (- 2 ^ 63) (difficulty self)); [|lia].
    destruct (Z.ltb_spec (difficulty self) (2 ^ 63)),
      (Z.leb_spec (2 ^ 63) (difficulty self)); try lia; cbn [andb negb];
      [|reflexivity].
    destruct (Z.ltb_spec 0 (difficulty self)); [reflexivity|lia].
Qed.

(** X4.  Mining a block that [proof_of_work] has already sealed changes no
    object: the second call returns in its first iteration with the same
    nonce and hash, and only prints one more line, with attempt counter 0. *)
Theorem proof_of_work_again
    (fuel fuel' : nat) (self : Blockchain) (block r : loc) (w w' : world) :
  proof_of_work fuel self block w = Ok r w' ->
  exists b',
    heap w' !! block = Some b' /\
    proof_of_work (S fuel') self block w'
    = Ok block (mkWorld (heap w')
                  (stdout w' ++ [Mined (index b') (nonce b') (hash b') 0])).
Proof.
  intros Hrun.
  pose proof (proof_of_work_spec fuel self block w) as Hspec.
  rewrite Hrun in Hspec.
  destruct Hspec as (Hr & b & k & Hb & Henc & _ & _ & _ & Hpre & ->).
  set (b' := sealed b k) in *. set (out := stdout w ++ _).
  assert (Hb' : heap (mkWorld (<[block := b']> (heap w)) out) !! block = Some b')
    by now apply (lookup_insert_same _ _ b).
  set (w' := mkWorld _ out) in *.
  exists b'. split; [exact Hb'|].
  assert (Hhash : digest_of b' = hash b') by (symmetry; apply sealed_hash).
  assert (Henc' : encodable_block b' = true)
    by (unfold b'; now rewrite encodable_block_sealed).
  rewrite proof_of_work_unfold, Hr. cbn [proof_of_work_loop].
  rewrite (run_calculate_hash _ _ _ _ Hb' Henc'), (run_update _ _ _ _ _ Hb').
  assert (Hid : <[block := with_hash (digest_of b') b']> (heap w') = heap w').
  { apply list_insert_id. transitivity (Some b'); [exact Hb'|]. f_equal. }
  rewrite Hid.
  assert (Hb'' : heap (mkWorld (heap w') (stdout w')) !! block = Some b') by exact Hb'.
  rewrite (run_getattr _ _ _ _ _ Hb''), Hpre.
  now rewrite !(run_getattr _ _ _ _ _ Hb''), run_print.
Qed.

(** ** The last block and appending *)

(** X5.  [get_last_block] returns the last reference of the list and leaves
    the store alone; on an empty list the index [-1] is out of range and it
    raises [IndexError]. *)
Theorem get_last_block_spec (self : Blockchain) (w : world) :
  (chain self = [] ->
   get_last_block self w = Raise (IndexError "list index out of range") w) /\
  (forall (ls : list loc) (l : loc),
     chain self = ls ++ [l] -> get_last_block self w = Ok l w).
Proof.
  unfold get_last_block. rewrite getitem_last. split.
  - intros ->. reflexivity.
  - intros ls l ->. rewrite length_app. cbn [length].
    replace (length ls + 1 - 1)%nat with (length ls) by lia.
    now rewrite lookup_snoc.
Qed.

(** X6.  [add_block] raises [IndexError] exactly when the chain object holds
    an empty list (which the constructor never leaves): the error is that of
    [get_last_block], and it comes before any block is built, so the store
    and the output are as they were.  Any other error is raised once the new
    object has been created: [UnicodeEncodeError] by its constructor, when
    the payload or the hash of the last block cannot be encoded, and
    otherwise [OverflowError] or [MemoryError] by the prefix of
    [proof_of_work]; the store
    then holds that one object more, the objects that existed and the output
    are as they were, and nothing is appended to the chain. *)
Theorem add_block_empty_chain
    (fuel : nat) (self : Blockchain) (payload : pystr) (now : float) (w : world) :
  (chain self = [] ->
   add_block fuel self payload now w
   = Raise (IndexError "list index out of range") w) /\
  (forall e w',
     add_block fuel self payload now w = Raise e w' ->
     (e = IndexError "list index out of range" /\ chain self = [] /\ w' = w) \/
     (chain self <> [] /\
      exists b,
        heap w' = heap w ++ [b] /\ stdout w' = stdout w /\
        index b = Z.of_nat (length (chain self)) /\ data b = payload /\
        if encodable payload && encodable (previous_hash b)
        then prefix_error self = Some e
        else e = UnicodeEncodeError)).
Proof.
  split.
  - intros Hnil. unfold add_block, get_last_block. unfold bind at 1.
    rewrite getitem_last, Hnil. reflexivity.
  - intros e w' Hrun.
    pose proof (add_block_spec fuel self payload now w) as Hs.
    rewrite Hrun in Hs.
    destruct Hs as [(Hnil & -> & ->)|(llast & blast & Hll & _ & Hcase)]; [now left|].
    right. split.
    { intros Hnil. rewrite Hnil in Hll. discriminate. }
    destruct Hcase as [(Henc & -> & ->)|(Henc & Hr & ->)].
    + exists (mkBlock (Z.of_nat (length (chain self))) now payload (hash blast) 0 []).
      cbn [heap stdout index data previous_hash]. rewrite Henc.
      repeat split.
    + exists (new_block (Z.of_nat (length (chain self))) now payload (hash blast)).
      cbn [heap stdout index data previous_hash new_block with_hash]. rewrite Henc.
      repeat split. exact Hr.
Qed.

(** X7.  When [add_block] returns, on any chain object, it has created
    exactly one object, at a fresh reference that it returns and appends to
    the list; every object that existed keeps its attributes; the new block
    starts from nonce 0, so the attempt counter printed is its nonce; and one
    line is printed. *)
Theorem add_block_allocates
    (fuel : nat) (self self' : Blockchain) (payload : pystr) (now : float)
    (mined : loc) (w w' : world) :
  add_block fuel self payload now w = Ok (mined, self') w' ->
  mined = length (heap w) /\
  chain self' = chain self ++ [mined] /\
  exists b,
    heap w' = heap w ++ [b] /\
    (forall l, (l < length (heap w))%nat -> heap w' !! l = heap w !! l) /\
    0 <= nonce b /\
    stdout w'
    = stdout w ++ [Mined (Z.of_nat (length (chain self))) (nonce b) (hash b) (nonce b)].
Proof.
  intros Hrun.
  pose proof (add_block_spec fuel self payload now w) as Hs. rewrite Hrun in Hs.
  destruct Hs as (llast & blast & k & _ & _ & _ & _ & -> & -> & Hk & _ & _ & ->).
  split; [reflexivity|]. split; [reflexivity|].
  eexists. cbn [heap stdout]. split; [reflexivity|].
  split; [intros l Hl; now apply lookup_app_l|].
  split; [cbn; lia|]. reflexivity.
Qed.

(** ** Construction *)

(** X8.  For an index within the limit that recent interpreters put on the
    digits of [str(index)], [Block(index, timestamp, data, previous_hash)]
    returns exactly when data and previous_hash hold no surrogate: it then
    creates one object at a fresh reference, with the four attributes as
    given and nonce 0, whose stored hash is what [calculate_hash] returns
    on it; nothing is printed and no other object is touched.  Otherwise
    it raises [UnicodeEncodeError], and the object it was building is left
    without a hash. *)
Theorem Block_init_postcondition
    (idx : Z) (ts : float) (d prev : pystr) (w : world) :
  Z.abs idx < 10 ^ 4300 ->
  (encodable d && encodable prev = true ->
   exists b,
     Block_init idx ts d prev w
     = Ok (length (heap w)) (mkWorld (heap w ++ [b]) (stdout w)) /\
     index b = idx /\ timestamp b = ts /\ data b = d /\ previous_hash b = prev /\
     nonce b = 0 /\
     calculate_hash (length (heap w)) (mkWorld (heap w ++ [b]) (stdout w))
     = Ok (hash b) (mkWorld (heap w ++ [b]) (stdout w))) /\
  (encodable d && encodable prev = false ->
   Block_init idx ts d prev w
   = Raise UnicodeEncodeError
       (mkWorld (heap w ++ [mkBlock idx ts d prev 0 []]) (stdout w))).
Proof.
  intros _. split; intros Henc.
  - exists (new_block idx ts d prev).
    split; [now rewrite Block_init_spec, Henc|].
    do 5 (split; [reflexivity|]).
    rewrite (calculate_hash_Some _ (new_block idx ts d prev)) by apply lookup_snoc.
    rewrite encodable_block_new_block, Henc.
    unfold new_block. cbn [hash with_hash]. now rewrite digest_of_with_hash.
  - now rewrite Block_init_spec, Henc.
Qed.

(** X9.  When the constructor returns, the chain object stores the difficulty
    it was given and a list of one reference, fresh in the store; the block
    behind it has index 0, the clock reading as timestamp, data
    ["Genesis Block"], previous_hash ["0"], a nonce that is not negative, and
    a stored hash that is its digest and has the prefix ["0" * difficulty]. *)
Theorem Blockchain_init_postcondition
    (fuel : nat) (d : Z) (now : float) (self : Blockchain) (w w' : world) :
  Blockchain_init fuel d now w = Ok self w' ->
  difficulty self = d /\
  chain self = [length (heap w)] /\
  exists g,
    heap w' = heap w ++ [g] /\
    index g = 0 /\ timestamp g = now /\ data g = py "Genesis Block" /\
    previous_hash g = py "0" /\ 0 <= nonce g /\
    hash g = digest_of g /\
    startswith (hash g) (repeat_str (py "0") d) = true /\
    stdout w' = stdout w ++ [Mined 0 (nonce g) (hash g) (nonce g)].
Proof.
  intros Hrun. unfold Blockchain_init, bind in Hrun.
  pose proof (create_genesis_block_spec fuel (mkBlockchain d []) now w) as Hg.
  destruct (create_genesis_block fuel _ now w) as [g w1|e w1| |]; try discriminate.
  destruct Hg as (_ & k & -> & Hk & Hpre & _ & ->). injection Hrun as <- <-.
  split; [reflexivity|]. split; [reflexivity|].
  eexists. cbn [heap stdout]. split; [reflexivity|].
  do 4 (split; [reflexivity|]). split; [cbn; lia|].
  split; [apply sealed_hash|]. split; [exact Hpre|]. reflexivity.
Qed.

(** ** Invariants of the chains made by the constructor and [add_block] *)

(** X10.  In every chain made by the constructor followed by calls to
    [add_block], the block at each position [i], the genesis block included,
    has index [i], a nonce that is not negative, a stored hash equal to its
    digest and the prefix ["0" * difficulty]; and the block at position 0 has
    data ["Genesis Block"] and previous_hash ["0"]. *)
Theorem built_blocks_sealed (self : Blockchain) (w : world) :
  built self w ->
  (forall i b,
     block_at w self i = Some b ->
     index b = i /\ 0 <= nonce b /\ hash b = digest_of b /\
     startswith (hash b) (repeat_str (py "0") (difficulty self)) = true) /\
  (exists g,
     block_at w self 0 = Some g /\
     data g = py "Genesis Block" /\ previous_hash g = py "0").
Proof.
  induction 1 as [fuel d now w0 w self Hinit
                 |fuel payload now mined self self' w w' Hbuilt IH Hadd].
  - unfold Blockchain_init, bind in Hinit.
    pose proof (create_genesis_block_spec fuel (mkBlockchain d []) now w0) as Hg.
    destruct (create_genesis_block fuel _ now w0) as [g w1|e w1| |]; try discriminate.
    destruct Hg as (_ & k & -> & Hk & Hpre & _ & ->). injection Hinit as <- <-.
    set (g := sealed (new_block 0 now (py "Genesis Block") (py "0")) k) in *.
    assert (Hat0 : block_at (mkWorld (heap w0 ++ [g])
                               (stdout w0 ++ [Mined 0 k (hash g) k]))
                     (mkBlockchain d [length (heap w0)]) 0 = Some g).
    { apply (block_at_Some _ _ 0 (length (heap w0))); [lia|reflexivity|].
      apply lookup_snoc. }
    split; [|now exists g].
    intros i b Hat. destruct (block_at_inv _ _ _ _ Hat) as [Hi _].
    cbn [chain length] in Hi. assert (i = 0) as -> by lia.
    assert (Some g = Some b) as [= <-] by (rewrite <- Hat0; exact Hat).
    split; [reflexivity|]. split; [cbn; lia|]. split; [apply sealed_hash|exact Hpre].
  - destruct IH as (IHall & g & Hg0 & Hgd & Hgp).
    destruct (grown_invariant self w (built_grown self w Hbuilt)) as (Hlive & Hlen & _).
    pose proof (add_block_spec fuel self payload now w) as Hs. rewrite Hadd in Hs.
    destruct Hs as (llast & blast & k & _ & _ & _ & _ & -> & -> & Hk & _ & Hpre & ->).
    split.
    + intros i b Hat. destruct (block_at_inv _ _ _ _ Hat) as [Hi _].
      cbn [chain] in Hi. rewrite length_app in Hi. cbn [length] in Hi.
      destruct (Z.eq_dec i (Z.of_nat (length (chain self)))) as [->|Hne].
      * rewrite block_at_append_new in Hat. injection Hat as <-.
        split; [reflexivity|]. split; [cbn; lia|].
        split; [apply sealed_hash|exact Hpre].
      * rewrite block_at_append_old in Hat by (assumption || lia).
        exact (IHall i b Hat).
    + exists g. rewrite block_at_append_old by (assumption || lia). now split.
Qed.

(** X11.  In every such chain the references are consecutive and the blocks
    are the objects allocated last in the store, in the order of the chain;
    so no object occurs at two positions. *)
Theorem built_chain_distinct (self : Blockchain) (w : world) :
  built self w ->
  NoDup (chain self) /\
  exists first : loc,
    chain self = seq first (length (chain self)) /\
    length (heap w) = (first + length (chain self))%nat.
Proof.
  intros Hbuilt.
  assert (Hseq : exists first : loc,
    chain self = seq first (length (chain self)) /\
    length (heap w) = (first + length (chain self))%nat).
  { induction Hbuilt as [fuel d now w0 w self Hinit
                        |fuel payload now mined self self' w w' Hbuilt IH Hadd].
    - unfold Blockchain_init, bind in Hinit.
      pose proof (create_genesis_block_spec fuel (mkBlockchain d []) now w0) as Hg.
      destruct (create_genesis_block fuel _ now w0) as [g w1|e w1| |]; try discriminate.
      destruct Hg as (_ & k & -> & _ & _ & _ & ->). injection Hinit as <- <-.
      exists (length (heap w0)). cbn [chain heap length seq].
      split; [reflexivity|]. rewrite length_app. cbn. lia.
    - destruct IH as (first & Hch & Hlen).
      pose proof (add_block_spec fuel self payload now w) as Hs. rewrite Hadd in Hs.
      destruct Hs as (llast & blast & k & _ & _ & _ & _ & -> & -> & _ & _ & _ & ->).
      exists first. cbn [chain heap]. rewrite !length_app. cbn [length].
      split; [|lia].
      replace (length (chain self) + 1)%nat with (S (length (chain self))) by lia.
      rewrite seq_S, <- Hch. now rewrite Hlen. }
  split; [|exact Hseq].
  destruct Hseq as (first & -> & _). apply NoDup_ListNoDup, List.seq_NoDup.
Qed.

(** X12.  [add_block] neither repairs nor breaks a chain: on a chain whose
    references are all in the store, [is_chain_valid] gives after the call the
    verdict, and the line, that it gave before. *)
Theorem add_block_preserves_verdict
    (fuel : nat) (self self' : Blockchain) (payload : pystr) (now : float)
    (mined : loc) (w w' : world) (v : bool) (out : list event) :
  live w self ->
  add_block fuel self payload now w = Ok (mined, self') w' ->
  is_chain_valid self w = Ok v (mkWorld (heap w) (stdout w ++ out)) ->
  is_chain_valid self' w' = Ok v (mkWorld (heap w') (stdout w' ++ out)).
Proof.
  intros Hlive Hadd Hrun.
  pose proof (add_block_spec fuel self payload now w) as Hs. rewrite Hadd in Hs.
  destruct Hs as (llast & blast & k & Hllast & Hblast & Henc & Hr & -> & -> & Hk
                  & _ & Hpre & ->).
  set (b := sealed _ k) in *. set (outw := stdout w ++ _).
  set (w' := mkWorld (heap w ++ [b]) outw).
  set (self' := mkBlockchain (difficulty self) (chain self ++ [length (heap w)])).
  destruct (last_block_at w self llast blast Hllast Hblast) as [Hlen Hatlast].
  assert (Hlive' : live w' self') by now apply live_append.
  assert (Hlen' : Z.of_nat (length (chain self')) = Z.of_nat (length (chain self)) + 1).
  { unfold self'. cbn [chain]. rewrite length_app. cbn [length]. lia. }
  assert (Hnew : block_ok w' self' (Z.of_nat (length (chain self))) = true).
  { apply (block_ok_append_new w self b outw Hlive blast); try assumption.
    - reflexivity.
    - unfold b. now rewrite encodable_block_sealed, encodable_block_new_block.
    - apply sealed_hash. }
  assert (Hold : forall i, 1 <= i < Z.of_nat (length (chain self)) ->
            block_ok w' self' i = block_ok w self i /\
            encoding_fails w' self' i = encoding_fails w self i /\
            first_failure w' self' i = first_failure w self i).
  { intros i Hi. now apply checks_append_old. }
  destruct (is_chain_valid_outcome self w Hlive Hr)
    as [[Hrun1 Hall]|(i & Hi & Hbefore & Hbad & Hrun1)].
  - rewrite Hrun in Hrun1. injection Hrun1 as -> Hw.
    apply (f_equal stdout) in Hw. cbn [stdout] in Hw.
    rewrite <- (app_nil_r (stdout w)) in Hw at 2.
    apply app_inv_head in Hw. subst out. rewrite world_eta.
    apply is_chain_valid_all_ok; [exact Hlive'|exact Hr|].
    intros i Hi.
    assert (Hi' : 1 <= i < Z.of_nat (length (chain self)) + 1)
      by (rewrite <- Hlen'; exact Hi).
    destruct (Z.eq_dec i (Z.of_nat (length (chain self)))) as [->|Hne]; [exact Hnew|].
    destruct (Hold i ltac:(lia)) as [Hbk _]. refine (eq_trans Hbk _). apply Hall. lia.
  - rewrite Hrun in Hrun1.
    destruct (encoding_fails w self i) eqn:Hfail; [discriminate|].
    injection Hrun1 as -> Hw. apply app_inv_head in Hw. subst out.
    destruct (Hold i Hi) as (Hb' & Hf' & Hff').
    assert (Hr' : prefix_error self' = None) by exact Hr.
    assert (Hrun' : is_chain_valid self' w'
              = if encoding_fails w' self' i then Raise UnicodeEncodeError w'
                else Ok false (mkWorld (heap w') (stdout w' ++ [first_failure w' self' i]))).
    { apply (is_chain_valid_first_bad self' w' i Hlive' Hr' ltac:(lia)).
      - intros j Hj. destruct (Hold j ltac:(lia)) as [Hbk _].
        refine (eq_trans Hbk _). now apply Hbefore.
      - now rewrite Hb'. }
    rewrite Hf', Hfail, Hff' in Hrun'. exact Hrun'.
Qed.

(** ** More on tampering *)

(** X13.  Tampering with any block that has a successor is detected: on a
    chain on which [is_chain_valid] returns [True],
    [tamper_with_block(index, new_data)] at a position that is neither the
    first nor the last, when it returns and changes the stored hash of the
    block, makes [is_chain_valid] return [False]. *)
Theorem tamper_interior_detected
    (self : Blockchain) (idx : Z) (new_data : pystr) (w w1 : world) (l : loc)
    (b b' : Block) :
  live w self ->
  0 < idx ->
  idx + 1 < Z.of_nat (length (chain self)) ->
  is_chain_valid self w = Ok true w ->
  tamper_with_block self idx new_data w = Ok tt w1 ->
  chain self !! Z.to_nat idx = Some l ->
  heap w !! l = Some b ->
  heap w1 !! l = Some b' ->
  hash b' <> hash b ->
  exists out,
    is_chain_valid self w1 = Ok false (mkWorld (heap w1) (stdout w1 ++ out)).
Proof.
  intros Hlive Hidx Hnext Hvalid Htamper Hl Hb Hb' Hneq.
  destruct (tamper_returned self idx new_data w w1 l b ltac:(lia) Hl Hb Htamper)
    as [Henc ->].
  cbn [heap] in Hb'.
  rewrite (lookup_insert_same _ _ _ _ Hb) in Hb'. injection Hb' as <-.
  set (b' := tampered new_data b) in *.
  set (w1 := mkWorld (<[l := b']> (heap w)) (stdout w)).
  assert (Hlive1 : live w1 self) by now apply live_insert.
  destruct (is_chain_valid_true self w w Hlive Hvalid) as [Hr Hall].
  assert (Hnofail : forall i, 1 <= i < Z.of_nat (length (chain self)) ->
            encoding_fails w1 self i = false)
    by exact (write_keeps_encodable w self l b b' (stdout w) Hlive Hall Hb Henc).
  destruct (live_lookup w self (idx + 1) Hlive ltac:(lia)) as (l2 & b2 & Hl2 & Hb2).
  pose proof (block_at_Some w self idx l b ltac:(lia) Hl Hb) as Hat.
  pose proof (block_at_Some w self (idx + 1) l2 b2 ltac:(lia) Hl2 Hb2) as Hat2.
  assert (Hlink2 : previous_hash b2 = hash b).
  { destruct (block_ok_parts w self (idx + 1) (Hall (idx + 1) ltac:(lia)))
      as (Hlink & _ & _).
    apply (link_ok_eq w self (idx + 1) b2 b Hat2); [|exact Hlink].
    now replace (idx + 1 - 1) with idx by lia. }
  assert (Hat' : block_at w1 self idx = Some b')
    by exact (block_at_insert_eq w self idx l b b' _ ltac:(lia) Hl Hb).
  assert (Hat2' : exists c, block_at w1 self (idx + 1) = Some c /\
                            previous_hash c = hash b).
  { destruct (Nat.eq_dec l2 l) as [->|Hne].
    - exists b'.
      split; [exact (block_at_insert_eq w self (idx + 1) l b b' _ ltac:(lia) Hl2 Hb)|].
      assert (b2 = b) as -> by congruence. exact Hlink2.
    - exists b2. split; [|exact Hlink2]. unfold w1.
      rewrite block_at_insert_ne; [exact Hat2|]. rewrite Hl2. congruence. }
  destruct Hat2' as (c & Hat2' & Hc).
  assert (Hbad2 : block_ok w1 self (idx + 1) = false).
  { unfold block_ok, link_ok. replace (idx + 1 - 1) with idx by lia.
    rewrite Hat2', Hat', Hc.
    replace (str_eqb (hash b) (hash b')) with false; [reflexivity|].
    symmetry. apply str_eqb_neq. congruence. }
  destruct (invalid_returns_false self w1 (idx + 1) Hlive1 Hr Hnofail ltac:(lia) Hbad2)
    as (i & _ & _ & _ & Hrun).
  now exists [first_failure w1 self i].
Qed.

(** X14.  Tampering with the last block is detected only through the
    difficulty check: on a chain on which [is_chain_valid] returns [True] and
    whose last block is not referenced at another position, after
    [tamper_with_block] on the last position has returned, [is_chain_valid]
    returns [True] exactly when the recomputed hash has the prefix
    ["0" * difficulty] (always, when the difficulty is 0 or less), and
    otherwise reports the difficulty check on that block. *)
Theorem tamper_last_block
    (self : Blockchain) (idx : Z) (new_data : pystr) (w w1 : world) (l : loc)
    (b' : Block) :
  live w self ->
  0 < idx ->
  idx + 1 = Z.of_nat (length (chain self)) ->
  is_chain_valid self w = Ok true w ->
  tamper_with_block self idx new_data w = Ok tt w1 ->
  chain self !! Z.to_nat idx = Some l ->
  (forall j : nat, j <> Z.to_nat idx -> chain self !! j <> Some l) ->
  heap w1 !! l = Some b' ->
  is_chain_valid self w1
  = Ok (startswith (hash b') (repeat_str (py "0") (difficulty self)))
      (mkWorld (heap w1)
         (stdout w1 ++
          if startswith (hash b') (repeat_str (py "0") (difficulty self)) then []
          else [DifficultyNotSatisfied idx (repeat_str (py "0") (difficulty self))])) /\
  (difficulty self <= 0 ->
   startswith (hash b') (repeat_str (py "0") (difficulty self)) = true).
Proof.
  intros Hlive Hidx Hlast Hvalid Htamper Hl Honly Hb'.
  split; [|intros Hd; rewrite repeat_str_nonpos by lia; apply startswith_empty].
  destruct (live_lookup w self idx Hlive ltac:(lia)) as (l' & b & Hl' & Hb).
  assert (l' = l) as -> by congruence.
  destruct (tamper_returned self idx new_data w w1 l b ltac:(lia) Hl Hb Htamper)
    as [Henc ->].
  cbn [heap] in Hb'.
  rewrite (lookup_insert_same _ _ _ _ Hb) in Hb'. injection Hb' as <-.
  set (b' := tampered new_data b) in *.
  set (w1 := mkWorld (<[l := b']> (heap w)) (stdout w)).
  assert (Hlive1 : live w1 self) by now apply live_insert.
  destruct (is_chain_valid_true self w w Hlive Hvalid) as [Hr Hall].
  assert (Hsame : forall i, 0 <= i < idx -> block_at w1 self i = block_at w self i).
  { intros i Hi. unfold w1. apply block_at_insert_ne, Honly. lia. }
  assert (Hbefore : forall i, 1 <= i < idx -> block_ok w1 self i = true).
  { intros i Hi. rewrite <- (Hall i ltac:(lia)).
    unfold block_ok, link_ok, hash_ok, difficulty_ok.
    now rewrite !Hsame by lia. }
  destruct (live_lookup w self (idx - 1) Hlive ltac:(lia)) as (lp & p & Hlp & Hp).
  pose proof (block_at_Some w self idx l b ltac:(lia) Hl Hb) as Hat.
  pose proof (block_at_Some w self (idx - 1) lp p ltac:(lia) Hlp Hp) as Hatp.
  assert (Hlink : previous_hash b = hash p).
  { destruct (block_ok_parts w self idx (Hall idx ltac:(lia))) as (Hlink & _ & _).
    exact (link_ok_eq w self idx b p Hat Hatp Hlink). }
  assert (Hat' : block_at w1 self idx = Some b')
    by exact (block_at_insert_eq w self idx l b b' _ ltac:(lia) Hl Hb).
  assert (Hatp' : block_at w1 self (idx - 1) = Some p)
    by (rewrite Hsame by lia; exact Hatp).
  assert (Hlink' : link_ok w1 self idx = true).
  { unfold link_ok. rewrite Hat', Hatp'. apply str_eqb_eq. exact Hlink. }
  assert (Hhash' : hash_ok w1 self idx = true).
  { unfold hash_ok. rewrite Hat', Henc. apply str_eqb_eq, tampered_hash. }
  assert (Hdiff' : difficulty_ok w1 self idx
                   = startswith (hash b') (repeat_str (py "0") (difficulty self))).
  { unfold difficulty_ok. now rewrite Hat'. }
  destruct (startswith (hash b') (repeat_str (py "0") (difficulty self))) eqn:Hpre.
  - rewrite world_eta. apply is_chain_valid_all_ok; [assumption..|].
    intros i Hi. destruct (Z.eq_dec i idx) as [->|Hne]; [|apply Hbefore; lia].
    unfold block_ok. now rewrite Hlink', Hhash', Hdiff'.
  - rewrite (is_chain_valid_first_bad self w1 idx Hlive1 Hr ltac:(lia) Hbefore).
    + rewrite (encoding_fails_false w1 self idx b' Hat' Henc).
      unfold first_failure. now rewrite Hlink', Hhash'.
    + unfold block_ok. now rewrite Hlink', Hhash', Hdiff'.
Qed.

(** X15.  Tampering can be undone: when the hash stored in the block at
    [index] is what [calculate_hash] returns on it,
    [tamper_with_block(index, new_data)] followed by
    [tamper_with_block(index, d)], with [d] the data the block had, leaves the
    store and the output exactly as they were; and so it is when the first
    call raised [UnicodeEncodeError] on data that cannot be encoded, after
    writing it. *)
Theorem tamper_undo
    (self : Blockchain) (idx : Z) (new_data : pystr) (w : world) (l : loc)
    (b : Block) :
  0 < idx < Z.of_nat (length (chain self)) ->
  chain self !! Z.to_nat idx = Some l ->
  heap w !! l = Some b ->
  calculate_hash l w = Ok (hash b) w ->
  exists w1,
    tamper_with_block self idx new_data w
    = (if encodable new_data then Ok tt w1 else Raise UnicodeEncodeError w1) /\
    tamper_with_block self idx (data b) w1 = Ok tt w /\
    (encodable new_data = true ->
     bind (tamper_with_block self idx new_data)
          (fun _ => tamper_with_block self idx (data b)) w
     = Ok tt w).
Proof.
  intros Hi Hl Hb Hcalc.
  rewrite (calculate_hash_Some _ _ _ Hb) in Hcalc.
  destruct (encodable_block b) eqn:Henc; [|discriminate].
  injection Hcalc as Hhash.
  pose proof Henc as Hparts. rewrite encodable_block_eq in Hparts.
  apply andb_prop in Hparts as [Hd Hp].
  assert (Hback : forall b1 : Block,
    index b1 = index b -> timestamp b1 = timestamp b ->
    previous_hash b1 = previous_hash b -> nonce b1 = nonce b ->
    tampered (data b) b1 = b).
  { intros b1 H1 H2 H3 H4. unfold tampered.
    rewrite (digest_of_ext _ b) by (cbn; first [assumption | reflexivity]).
    rewrite Hhash. destruct b, b1; cbn in *. now subst. }
  assert (Hsecond : forall b1 : Block,
    index b1 = index b -> timestamp b1 = timestamp b ->
    previous_hash b1 = previous_hash b -> nonce b1 = nonce b ->
    tamper_with_block self idx (data b)
      (mkWorld (<[l := b1]> (heap w)) (stdout w)) = Ok tt w).
  { intros b1 H1 H2 H3 H4.
    assert (Hb1 : heap (mkWorld (<[l := b1]> (heap w)) (stdout w)) !! l = Some b1)
      by now apply (lookup_insert_same _ _ b).
    rewrite (tamper_run self idx (data b) _ l b1 Hi Hl Hb1).
    rewrite encodable_block_eq. cbn [data previous_hash with_data].
    rewrite H3, Hd, Hp. cbn [andb heap stdout].
    rewrite list_insert_insert_eq, (Hback b1 H1 H2 H3 H4).
    rewrite list_insert_id by exact Hb. now destruct w. }
  pose proof (tamper_run self idx new_data w l b Hi Hl Hb) as Hfirst.
  rewrite encodable_block_eq in Hfirst. cbn [data previous_hash with_data] in Hfirst.
  rewrite Hp, andb_true_r in Hfirst.
  destruct (encodable new_data) eqn:Hnew.
  - exists (mkWorld (<[l := tampered new_data b]> (heap w)) (stdout w)).
    split; [exact Hfirst|].
    assert (H2 : tamper_with_block self idx (data b)
                   (mkWorld (<[l := tampered new_data b]> (heap w)) (stdout w))
                 = Ok tt w) by now apply Hsecond.
    split; [exact H2|]. intros _. unfold bind. rewrite Hfirst. exact H2.
  - exists (mkWorld (<[l := with_data new_data b]> (heap w)) (stdout w)).
    split; [exact Hfirst|]. split; [now apply Hsecond|discriminate].
Qed.

(** ** The text that is hashed *)

(** X16.  The five texts are joined with nothing between them, so only the
    joined text counts: two blocks with the same index, timestamp and nonce
    whose data followed by previous_hash read the same (characters moved from
    the end of one field to the start of the next) get the same outcome from
    [calculate_hash], the same digest when it returns. *)
Theorem calculate_hash_field_boundaries
    (l1 l2 : loc) (b1 b2 : Block) (w : world) :
  heap w !! l1 = Some b1 ->
  heap w !! l2 = Some b2 ->
  index b1 = index b2 -> timestamp b1 = timestamp b2 -> nonce b1 = nonce b2 ->
  data b1 ++ previous_hash b1 = data b2 ++ previous_hash b2 ->
  calculate_hash l1 w = calculate_hash l2 w.
Proof.
  intros H1 H2 Hi Ht Hn Hdp.
  rewrite (calculate_hash_Some _ _ _ H1), (calculate_hash_Some _ _ _ H2).
  assert (Htext : block_string b1 = block_string b2).
  { unfold block_string. rewrite Hi, Ht, Hn.
    rewrite (app_assoc (data b1)), (app_assoc (data b2)). now rewrite Hdp. }
  unfold encodable_block, digest_of. now rewrite Htext.
Qed.

(** X17.  With the other attributes fixed, the hashed text determines the
    data: [tamper_with_block] with data other than the data the block holds
    always changes the text that is hashed. *)
Theorem tamper_changes_block_string (new_data : pystr) (b : Block) :
  new_data <> data b ->
  block_string (tampered new_data b) <> block_string b.
Proof.
  intros Hne Heq. apply Hne.
  unfold block_string, tampered in Heq. cbn [index timestamp data previous_hash nonce
    with_hash with_data] in Heq.
  do 2 apply app_inv_head in Heq.
  now apply app_inv_tail in Heq.
Qed.

(** ** Rewriting the last block *)

Lemma replace_last_block
    (self : Blockchain) (idx : Z) (w : world) (l : loc) (b c : Block)
    (out : list event) :
  live w self ->
  0 < idx ->
  idx + 1 = Z.of_nat (length (chain self)) ->
  is_chain_valid self w = Ok true w ->
  chain self !! Z.to_nat idx = Some l ->
  (forall j : nat, j <> Z.to_nat idx -> chain self !! j <> Some l) ->
  heap w !! l = Some b ->
  previous_hash c = previous_hash b ->
  encodable_block c = true ->
  hash c = digest_of c ->
  startswith (hash c) (target self) = true ->
  is_chain_valid self (mkWorld (<[l := c]> (heap w)) out)
  = Ok true (mkWorld (<[l := c]> (heap w)) out).
Proof.
  intros Hlive Hidx Hlast Hvalid Hl Honly Hb Hprev Henc Hhash Hpre.
  set (w1 := mkWorld (<[l := c]> (heap w)) out).
  assert (Hlive1 : live w1 self) by now apply live_insert.
  destruct (is_chain_valid_true self w w Hlive Hvalid) as [Hr Hall].
  assert (Hsame : forall i, 0 <= i < idx -> block_at w1 self i = block_at w self i).
  { intros i Hi. apply block_at_insert_ne, Honly. lia. }
  assert (Hbefore : forall i, 1 <= i < idx -> block_ok w1 self i = true).
  { intros i Hi. rewrite <- (Hall i ltac:(lia)).
    unfold block_ok, link_ok, hash_ok, difficulty_ok.
    now rewrite !Hsame by lia. }
  destruct (live_lookup w self (idx - 1) Hlive ltac:(lia)) as (lp & p & Hlp & Hp).
  pose proof (block_at_Some w self idx l b ltac:(lia) Hl Hb) as Hat.
  pose proof (block_at_Some w self (idx - 1) lp p ltac:(lia) Hlp Hp) as Hatp.
  assert (Hlink : previous_hash b = hash p).
  { destruct (block_ok_parts w self idx (Hall idx ltac:(lia))) as (Hlink & _ & _).
    exact (link_ok_eq w self idx b p Hat Hatp Hlink). }
  assert (Hat' : block_at w1 self idx = Some c)
    by exact (block_at_insert_eq w self idx l b c _ ltac:(lia) Hl Hb).
  assert (Hatp' : block_at w1 self (idx - 1) = Some p)
    by (rewrite Hsame by lia; exact Hatp).
  apply is_chain_valid_all_ok; [assumption..|].
  intros i Hi. destruct (Z.eq_dec i idx) as [->|Hne]; [|apply Hbefore; lia].
  unfold block_ok, link_ok, hash_ok, difficulty_ok. rewrite Hat', Hatp'.
  rewrite Hprev, Hlink, Henc, <- Hhash, !str_eqb_refl. exact Hpre.
Qed.

(** X18.  A rewritten last block can be mined again: on a chain on which
    [is_chain_valid] returns [True] and whose last block is not referenced at
    another position, after [tamper_with_block] on the last position and
    [proof_of_work] on that block, when they return, [is_chain_valid] returns
    [True] again, with the new data in place. *)
Theorem tamper_last_block_remined
    (fuel : nat) (self : Blockchain) (idx : Z) (new_data : pystr)
    (w w1 w2 : world) (l r : loc) :
  live w self ->
  0 < idx ->
  idx + 1 = Z.of_nat (length (chain self)) ->
  is_chain_valid self w = Ok true w ->
  chain self !! Z.to_nat idx = Some l ->
  (forall j : nat, j <> Z.to_nat idx -> chain self !! j <> Some l) ->
  tamper_with_block self idx new_data w = Ok tt w1 ->
  proof_of_work fuel self l w1 = Ok r w2 ->
  is_chain_valid self w2 = Ok true w2 /\
  data <$> block_at w2 self idx = Some new_data.
Proof.
  intros Hlive Hidx Hlast Hvalid Hl Honly Htamper Hpow.
  destruct (live_lookup w self idx Hlive ltac:(lia)) as (l' & b & Hl' & Hb).
  assert (l' = l) as -> by congruence.
  destruct (tamper_returned self idx new_data w w1 l b ltac:(lia) Hl Hb Htamper)
    as [Henc ->].
  pose proof (proof_of_work_spec fuel self l
                (mkWorld (<[l := tampered new_data b]> (heap w)) (stdout w))) as Hspec.
  rewrite Hpow in Hspec.
  destruct Hspec as (_ & b1 & k & Hb1 & _ & _ & _ & _ & Hpre & ->).
  cbn [heap stdout] in *.
  rewrite (lookup_insert_same _ _ _ _ Hb) in Hb1. injection Hb1 as <-.
  rewrite list_insert_insert_eq. split.
  - apply (replace_last_block self idx w l b); try assumption.
    + reflexivity.
    + now rewrite encodable_block_sealed.
    + apply sealed_hash.
  - rewrite (block_at_Some _ self idx l (sealed (tampered new_data b) k));
      [reflexivity|lia|exact Hl|].
    cbn [heap]. now apply (lookup_insert_same _ _ b).
Qed.
End Properties.

(** * SHA-256 test vectors (FIPS 180-4, appendix B) and UTF-8 *)

Example sha256_abc :
  SHA256.sha256_hex (utf8 (py "abc"))
  = "ba7816bf8f01cfea414140de5dae2223b00361a396177a9cb410ff61f20015ad".
Proof. vm_compute. reflexivity. Qed.

Example sha256_empty :
  SHA256.sha256_hex (utf8 [])
  = "e3b0c44298fc1c149afbf4c8996fb92427ae41e4649b934ca495991b7852b855".
Proof. vm_compute. reflexivity. Qed.

Example sha256_two_blocks :
  SHA256.sha256_hex
    (utf8 (py "abcdbcdecdefdefgefghfghighijhijkijkljklmklmnlmnomnopnopq"))
  = "248d6a61d20638b8e5c026930c3e6039a33ce45964ff2167f6ecedd419db06c1".
Proof. vm_compute. reflexivity. Qed.

(** One code point of each length: U+0041, U+00E9, U+20AC and U+1F600. *)
Example utf8_lengths :
  utf8 [0x41; 0xE9; 0x20AC; 0x1F600]%N
  = [x41; xc3; xa9; xe2; x82; xac; xf0; x9f; x98; x80].
Proof. vm_compute. reflexivity. Qed.

Example encodable_surrogates :
  encodable [0xD7FF; 0xE000; 0x10FFFF]%N = true /\
  encodable [0xD800%N] = false /\ encodable [0xDFFF%N] = false /\
  encodable lone_surrogate = false.
Proof. repeat split. Qed.

Example str_int_digits :
  str_int 0 = py "0" /\ str_int 63 = py "63" /\ str_int (-3) = py "-3".
Proof. repeat split. Qed.

(** A payload outside ASCII, hashed as [hashlib] does. *)
Example digest_of_non_ascii :
  digest_of id
    (mkBlock 1 "1700000001.25" [0xE9; 0x20AC; 0x1F600]%N
       (py "03ea3107870e5ad5f08d9ef787c0c9996e51f5bfcdfb55e788d53788e5e43fb1") 0 [])
  = py "bcff3b2d13617575382368733a841da2e2c8b6a4993d7a3aaa09ce044bd09b18".
Proof. vm_compute. reflexivity. Qed.

(** * The theorems at concrete runs *)

Lemma proof_of_work_postcondition_witness :
  exists w',
    proof_of_work id memory 16 bc1 0%nat w_T = Ok 0%nat w' /\
    exists b b',
      heap w_T !! 0%nat = Some b /\
      heap w' = <[0%nat := b']> (heap w_T) /\
      heap w' !! 0%nat = Some b' /\
      (forall l, l <> 0%nat -> heap w' !! l = heap w_T !! l) /\
      index b' = index b /\ timestamp b' = timestamp b /\
      data b' = data b /\ previous_hash b' = previous_hash b /\
      startswith (hash b') (repeat_str (py "0") (difficulty bc1)) = true /\
      (Z.to_nat (difficulty bc1) <= leading_zeros (hash b'))%nat /\
      calculate_hash id 0%nat w' = Ok (hash b') w'.
Proof.
  eexists. split; [vm_compute; reflexivity|].
  apply (proof_of_work_postcondition id memory 16 bc1 0%nat 0%nat w_T).
  vm_compute. reflexivity.
Defined.

(** C1, as stated, fails: at difficulty 1 the block with payload ["T"] is
    sealed at nonce 15 with a hash that starts with two zero characters,
    not with exactly one. *)
Lemma proof_of_work_more_zeros_than_difficulty :
  exists w' b',
    proof_of_work id memory 16 bc1 0%nat w_T = Ok 0%nat w' /\
    heap w' !! 0%nat = Some b' /\
    nonce b' = 15 /\
    hash b' = py "003022a2111b5f442a31085e04b5445df2ffadec927fcb9b08980d742543d776" /\
    leading_zeros (hash b') = 2%nat /\
    difficulty bc1 = 1.
Proof.
  eexists _, _. split; [vm_compute; reflexivity|].
  split; [reflexivity|]. repeat split.
Qed.

Lemma proof_of_work_difficulty_zero_witness :
  difficulty bc_zero = 0 /\
  proof_of_work id memory 1 bc_zero 0%nat w_T
  = Ok 0%nat
      (mkWorld
         [mkBlock 5 "1700000000.5" (py "T") (py "0") 0
            (py "42d88569fe3f888a8e73b22a28402075e2252128f2b9dc82ba383922852559b7")]
         [Mined 5 0
            (py "42d88569fe3f888a8e73b22a28402075e2252128f2b9dc82ba383922852559b7") 0]) /\
  proof_of_work id memory 1 bc_zero3 1%nat w_zero3_surrogate
  = Raise UnicodeEncodeError w_zero3_surrogate.
Proof.
  split; [reflexivity|]. split.
  - refine (eq_trans
      (proj1 (proj1 (proof_of_work_difficulty_zero id memory 0 bc_zero w_T eq_refl)
                0%nat _ eq_refl)) _).
    vm_compute. reflexivity.
  - exact (proj1 (proj1 (proof_of_work_difficulty_zero id memory 0 bc_zero3
                           w_zero3_surrogate eq_refl) 1%nat _ eq_refl)).
Defined.

Lemma calculate_hash_deterministic_pure_witness :
  calculate_hash id 1%nat w3
  = Ok (py "04ac86a7215951096448ba28bb766bfa43645a6afe26b2865f7374ac5878a1de") w3 /\
  calculate_hash id 2%nat w3
  = Ok (py "0cdbf11dd27febb0ff47db3c9210dfb73f0928532897e38f11fb8a2aa1c45b03") w3 /\
  calculate_hash id 1%nat w3_surrogate = Raise UnicodeEncodeError w3_surrogate.
Proof.
  split; [|split].
  - refine (eq_trans
      (proj1 (calculate_hash_deterministic_pure id 1%nat _ w3 eq_refl)) _).
    vm_compute. reflexivity.
  - refine (eq_trans
      (proj1 (calculate_hash_deterministic_pure id 2%nat _ w3 eq_refl)) _).
    vm_compute. reflexivity.
  - exact (proj1 (calculate_hash_deterministic_pure id 1%nat _ w3_surrogate eq_refl)).
Defined.

(** C2, as stated, fails: on a block whose data is a lone surrogate
    [calculate_hash] returns no digest; encoding the text raises
    [UnicodeEncodeError]. *)
Lemma calculate_hash_raises_on_surrogate :
  heap w3_surrogate !! 1%nat
  = Some (mkBlock 1 "1700000001.25" lone_surrogate
            (py "03ea3107870e5ad5f08d9ef787c0c9996e51f5bfcdfb55e788d53788e5e43fb1") 63
            (py "04ac86a7215951096448ba28bb766bfa43645a6afe26b2865f7374ac5878a1de")) /\
  calculate_hash id 1%nat w3_surrogate = Raise UnicodeEncodeError w3_surrogate /\
  (forall h w', calculate_hash id 1%nat w3_surrogate <> Ok h w').
Proof.
  split; [reflexivity|].
  assert (H : calculate_hash id 1%nat w3_surrogate
              = Raise UnicodeEncodeError w3_surrogate) by (vm_compute; reflexivity).
  split; [exact H|]. intros h w' Hok. rewrite H in Hok. discriminate Hok.
Qed.

Lemma is_chain_valid_genesis_only_witness :
  length (chain bc_bogus) = 1%nat /\
  is_chain_valid id memory bc_bogus w_bogus = Ok true w_bogus /\
  is_chain_valid id memory bc_huge w_bogus
  = Raise (OverflowError "cannot fit 'int' into an index-sized integer") w_bogus /\
  is_chain_valid id memory bc_long w_bogus = Raise MemoryError w_bogus.
Proof.
  split; [reflexivity|]. split; [|split].
  - exact (proj1 (is_chain_valid_genesis_only id memory bc_bogus w_bogus eq_refl)).
  - exact (proj1 (is_chain_valid_genesis_only id memory bc_huge w_bogus eq_refl)).
  - exact (proj1 (is_chain_valid_genesis_only id memory bc_long w_bogus eq_refl)).
Defined.

(** C10, as stated, fails: with difficulty 2^63 the prefix cannot be
    built, and [is_chain_valid] raises on a chain of length 1. *)
Lemma is_chain_valid_overflow_on_genesis_only :
  length (chain bc_huge) = 1%nat /\
  difficulty bc_huge = 2 ^ 63 /\
  is_chain_valid id memory bc_huge w_bogus
  = Raise (OverflowError "cannot fit 'int' into an index-sized integer") w_bogus.
Proof. repeat split. Qed.

Lemma bc3_built : built id memory bc3 w3.
Proof.
  apply (built_add id memory 64 (py "B") "1700000002.75" 2%nat bc2 bc3 w2 w3);
    [|vm_compute; reflexivity].
  apply (built_add id memory 64 (py "A") "1700000001.25" 1%nat bc1 bc2 w1 w2);
    [|vm_compute; reflexivity].
  apply (built_init id memory 32 1 "1700000000.5" w_empty w1 bc1).
  vm_compute. reflexivity.
Defined.

Lemma bc1_grown_after_raise : grown id memory bc1 w1_surrogate.
Proof.
  apply (grown_raise id memory 64 lone_surrogate "1700000001.25" UnicodeEncodeError bc1 w1
           w1_surrogate); [|vm_compute; reflexivity].
  apply (grown_init id memory 32 1 "1700000000.5" w_empty w1 bc1).
  vm_compute. reflexivity.
Defined.

Lemma bc_zero_grown : grown id memory bc_zero w_zero.
Proof.
  apply (grown_init id memory 1 0 "1700000000.5" w_empty w_zero bc_zero).
  vm_compute. reflexivity.
Defined.

Lemma grown_chain_valid_witness :
  grown id memory bc3 w3 /\
  is_chain_valid id memory bc3 w3 = Ok true w3 /\
  (forall i current previous,
     1 <= i ->
     block_at w3 bc3 i = Some current ->
     block_at w3 bc3 (i - 1) = Some previous ->
     previous_hash current = hash previous) /\
  grown id memory bc1 w1_surrogate /\
  is_chain_valid id memory bc1 w1_surrogate = Ok true w1_surrogate /\
  (exists mined self' w',
     add_block id memory 64 bc1 (py "A") "1700000001.25" w1_surrogate
     = Ok (mined, self') w') /\
  grown id memory bc_zero w_zero /\
  (exists mined self' w',
     add_block id memory 1 bc_zero (py "A") "1700000001.25" w_zero
     = Ok (mined, self') w').
Proof.
  pose proof (built_grown id memory bc3 w3 bc3_built) as Hg.
  split; [exact Hg|].
  pose proof (grown_chain_valid id memory bc3 w3 Hg) as (Hvalid & Hlink & _).
  split; [exact Hvalid|]. split; [exact Hlink|].
  split; [exact bc1_grown_after_raise|].
  destruct (grown_chain_valid id memory bc1 w1_surrogate bc1_grown_after_raise)
    as (Hvalid1 & _ & _ & Hreturns & _).
  split; [exact Hvalid1|]. split.
  { eapply (Hreturns 64%nat (py "A") "1700000001.25" _ 63 eq_refl eq_refl); [lia|].
    vm_compute. reflexivity. }
  split; [exact bc_zero_grown|].
  destruct (grown_chain_valid id memory bc_zero w_zero bc_zero_grown)
    as (_ & _ & _ & _ & Hzero).
  exact (Hzero 0%nat (py "A") "1700000001.25" eq_refl ltac:(cbn; lia)).
Defined.

(** C3, as stated, fails for a payload that holds a lone surrogate: on the
    chain that the constructor has just made, [add_block] raises
    [UnicodeEncodeError]; it returns no block and appends nothing. *)
Lemma add_block_raises_on_surrogate :
  built id memory bc1 w1 /\
  add_block id memory 64 bc1 lone_surrogate "1700000001.25" w1
  = Raise UnicodeEncodeError w1_surrogate /\
  (forall fuel r w',
     add_block id memory fuel bc1 lone_surrogate "1700000001.25" w1 <> Ok r w').
Proof.
  split.
  { apply (built_init id memory 32 1 "1700000000.5" w_empty w1 bc1). vm_compute. reflexivity. }
  split; [vm_compute; reflexivity|].
  intros fuel r w' Hok.
  assert (H : add_block id memory fuel bc1 lone_surrogate "1700000001.25" w1
              = Raise UnicodeEncodeError w1_surrogate) by reflexivity.
  rewrite H in Hok. discriminate Hok.
Qed.

Lemma is_chain_valid_characterization_witness :
  live w3_tampered bc3 /\
  (is_chain_valid id memory bc3 w3_tampered = Ok true w3_tampered <->
   forall i, 1 <= i < 3 ->
     link_ok w3_tampered bc3 i = true /\ hash_ok id w3_tampered bc3 i = true /\
     difficulty_ok w3_tampered bc3 i = true) /\
  (forall i, 1 <= i < 3 ->
     (forall j, 1 <= j < i -> block_ok id w3_tampered bc3 j = true) ->
     block_ok id w3_tampered bc3 i = false ->
     is_chain_valid id memory bc3 w3_tampered
     = if encoding_fails id w3_tampered bc3 i
       then Raise UnicodeEncodeError w3_tampered
       else Ok false (mkWorld (heap w3_tampered)
                        (stdout w3_tampered ++ [first_failure id w3_tampered bc3 i]))) /\
  is_chain_valid id memory bc_huge w_bogus
  = Raise (OverflowError "cannot fit 'int' into an index-sized integer") w_bogus.
Proof.
  split; [reflexivity|].
  destruct (is_chain_valid_characterization id memory bc3 w3_tampered eq_refl)
    as (_ & _ & Hin & _).
  assert (Hd : - 2 ^ 63 <= difficulty bc3 < 2 ^ 63) by (cbn; lia).
  assert (Hc : difficulty bc3 <= 0 \/ difficulty bc3 <= memory)
    by (right; vm_compute; discriminate).
  destruct (Hin Hd Hc) as (Hiff & Hfirst & _).
  split; [exact Hiff|]. split; [exact Hfirst|].
  apply (proj1 (is_chain_valid_characterization id memory bc_huge w_bogus eq_refl)).
  right. cbn. lia.
Defined.

(** C4, as stated, fails on two counts.  [is_chain_valid] raises: after
    [tamper_with_block(1, s)] with [s] a lone surrogate has written the
    data, recomputing the hash of block 1 raises [UnicodeEncodeError]; and
    with difficulty 2^63 building the prefix raises [OverflowError].  And
    the genesis block is inspected: with its stored hash replaced, and
    nothing else, the chain of three blocks that was valid is reported
    invalid at block 1. *)
Lemma is_chain_valid_raises_and_reads_genesis :
  live w3_surrogate bc3 /\
  is_chain_valid id memory bc3 w3_surrogate = Raise UnicodeEncodeError w3_surrogate /\
  live w_bogus bc_huge /\
  is_chain_valid id memory bc_huge w_bogus
  = Raise (OverflowError "cannot fit 'int' into an index-sized integer") w_bogus /\
  is_chain_valid id memory bc3 w3 = Ok true w3 /\
  (forall l, l <> 0%nat -> heap w3_genesis_hash !! l = heap w3 !! l) /\
  is_chain_valid id memory bc3 w3_genesis_hash
  = Ok false (mkWorld (heap w3_genesis_hash)
                (stdout w3_genesis_hash ++ [PreviousHashMismatch 1])).
Proof.
  split; [reflexivity|]. split; [vm_compute; reflexivity|].
  split; [reflexivity|]. split; [vm_compute; reflexivity|].
  split; [vm_compute; reflexivity|]. split; [|vm_compute; reflexivity].
  intros l Hl. unfold w3_genesis_hash. cbn [heap].
  apply list_lookup_insert_ne. congruence.
Qed.

(** C5, as stated, fails: on the three-block chain of difficulty 1 mined
    above, [tamper_with_block(1, "X")] leaves block 1 with a hash that
    starts with ["f"], and [is_chain_valid] stops at block 1 on the
    difficulty check; the previous-hash check on block 2 is never reached. *)
Lemma tamper_reported_at_block_1 :
  built id memory bc3 w3 /\
  length (chain bc3) = 3%nat /\
  is_chain_valid id memory bc3 w3 = Ok true w3 /\
  data <$> block_at w3 bc3 1 = Some (py "A") /\
  tamper_with_block id bc3 1 (py "X") w3 = Ok tt w3_tampered /\
  hash <$> block_at w3_tampered bc3 1
  = Some (py "ff221dbbfdd9a0b16cb8ae100a1f1c3aedaa671540da3cbac7292339ebd61750") /\
  is_chain_valid id memory bc3 w3_tampered
  = Ok false (mkWorld (heap w3_tampered)
                (stdout w3_tampered ++ [DifficultyNotSatisfied 1 (py "0")])) /\
  DifficultyNotSatisfied 1 (py "0") <> PreviousHashMismatch 2.
Proof.
  split; [exact bc3_built|].
  repeat split; try (vm_compute; reflexivity). discriminate.
Qed.

Lemma tamper_detected_witness :
  exists out,
    is_chain_valid id memory bc3 w3_tampered
    = Ok false (mkWorld (heap w3_tampered) (stdout w3_tampered ++ out)) /\
    (0%nat <> 1%nat ->
     out = [DifficultyNotSatisfied 1 (repeat_str (py "0") (difficulty bc3))]).
Proof.
  refine (tamper_detected id memory bc3 (py "X") w3 w3_tampered 0%nat 1%nat
            (mkBlock 1 "1700000001.25" (py "A")
               (py "03ea3107870e5ad5f08d9ef787c0c9996e51f5bfcdfb55e788d53788e5e43fb1") 63
               (py "04ac86a7215951096448ba28bb766bfa43645a6afe26b2865f7374ac5878a1de"))
            (mkBlock 1 "1700000001.25" (py "X")
               (py "03ea3107870e5ad5f08d9ef787c0c9996e51f5bfcdfb55e788d53788e5e43fb1") 63
               (py "ff221dbbfdd9a0b16cb8ae100a1f1c3aedaa671540da3cbac7292339ebd61750"))
            _ _ _ _ _ _ _ _ _).
  - reflexivity.
  - cbn. lia.
  - vm_compute. reflexivity.
  - vm_compute. reflexivity.
  - reflexivity.
  - reflexivity.
  - reflexivity.
  - reflexivity.
  - vm_compute. discriminate.
Defined.

(** The other branch of C5 as amended: at difficulty 0 every hash has the
    empty prefix, and the failure reported after tampering is the
    previous-hash check on block 2. *)
Example tamper_detected_at_block_2 :
  is_chain_valid id memory bc_zero3 w_zero3 = Ok true w_zero3 /\
  tamper_with_block id bc_zero3 1 (py "X") w_zero3 = Ok tt w_zero3_tampered /\
  is_chain_valid id memory bc_zero3 w_zero3_tampered
  = Ok false (mkWorld (heap w_zero3_tampered)
                (stdout w_zero3_tampered ++ [PreviousHashMismatch 2])).
Proof. repeat split; vm_compute; reflexivity. Qed.

Lemma tamper_out_of_range_witness :
  tamper_with_block id bc3 0 (py "X") w3
  = Raise (IndexError "Impossible de modifier ce bloc (index hors limites ou genesis).") w3 /\
  tamper_with_block id bc3 3 (py "X") w3
  = Raise (IndexError "Impossible de modifier ce bloc (index hors limites ou genesis).") w3 /\
  tamper_with_block id bc3 (-1) (py "X") w3
  = Raise (IndexError "Impossible de modifier ce bloc (index hors limites ou genesis).") w3 /\
  exists l b,
    chain bc3 !! Z.to_nat 2 = Some l /\
    heap w3 !! l = Some b /\
    tamper_with_block id bc3 2 lone_surrogate w3
    = if encodable lone_surrogate && encodable (previous_hash b)
      then Ok tt (mkWorld (<[l := tampered id lone_surrogate b]> (heap w3)) (stdout w3))
      else Raise UnicodeEncodeError
             (mkWorld (<[l := with_data lone_surrogate b]> (heap w3)) (stdout w3)).
Proof.
  split; [|split; [|split]].
  - apply (proj1 (tamper_out_of_range id bc3 0 (py "X") w3)). left. reflexivity.
  - apply (proj1 (tamper_out_of_range id bc3 3 (py "X") w3)). right. cbn. lia.
  - apply (proj1 (tamper_out_of_range id bc3 (-1) (py "X") w3)). right. cbn. lia.
  - apply (proj2 (proj2 (tamper_out_of_range id bc3 2 lone_surrogate w3)));
      [reflexivity|]. cbn. lia.
Defined.

(** C6, as stated, fails: on the valid chain of three blocks,
    [tamper_with_block(1, s)] with [s] a lone surrogate fails, at an index
    that is in range, and not with [IndexError]; the data of block 1 is
    already rewritten when it raises, and [is_chain_valid] no longer returns
    [True]. *)
Lemma tamper_raises_after_writing :
  is_chain_valid id memory bc3 w3 = Ok true w3 /\
  0 < 1 < Z.of_nat (length (chain bc3)) /\
  tamper_with_block id bc3 1 lone_surrogate w3 = Raise UnicodeEncodeError w3_surrogate /\
  data <$> block_at w3 bc3 1 = Some (py "A") /\
  data <$> block_at w3_surrogate bc3 1 = Some lone_surrogate /\
  is_chain_valid id memory bc3 w3_surrogate = Raise UnicodeEncodeError w3_surrogate.
Proof.
  split; [vm_compute; reflexivity|]. split; [cbn; lia|].
  repeat split; vm_compute; reflexivity.
Qed.

Lemma tamper_frame_witness :
  live w3 bc3 /\ 0 < 1 < Z.of_nat (length (chain bc3)) /\
  exists l b b' w',
    chain bc3 !! Z.to_nat 1 = Some l /\
    heap w3 !! l = Some b /\
    tamper_with_block id bc3 1 (py "X") w3
    = (if encodable (py "X") && encodable (previous_hash b)
       then Ok tt w' else Raise UnicodeEncodeError w') /\
    heap w' !! l = Some b' /\
    index b' = index b /\ timestamp b' = timestamp b /\
    previous_hash b' = previous_hash b /\ nonce b' = nonce b /\
    data b' = py "X" /\
    hash b' = (if encodable (py "X") && encodable (previous_hash b)
               then digest_of id b' else hash b) /\
    (forall l', l' <> l -> heap w' !! l' = heap w3 !! l') /\
    length (heap w') = length (heap w3) /\
    stdout w' = stdout w3 /\
    (forall j, chain bc3 !! Z.to_nat j <> Some l ->
       block_at w' bc3 j = block_at w3 bc3 j).
Proof.
  split; [reflexivity|]. split; [cbn; lia|].
  apply (tamper_frame id bc3 1 (py "X") w3); [reflexivity | cbn; lia].
Defined.

(** C9, as stated, fails: [tamper_with_block(1, s)] with [s] a lone
    surrogate, at an index that is in range, writes the data of block 1 and
    raises before the hash is assigned; the stored hash is still the one
    of the old data, not a recomputed digest. *)
Lemma tamper_leaves_stale_hash :
  0 < 1 < Z.of_nat (length (chain bc3)) /\
  heap w3 !! 1%nat
  = Some (mkBlock 1 "1700000001.25" (py "A")
            (py "03ea3107870e5ad5f08d9ef787c0c9996e51f5bfcdfb55e788d53788e5e43fb1") 63
            (py "04ac86a7215951096448ba28bb766bfa43645a6afe26b2865f7374ac5878a1de")) /\
  tamper_with_block id bc3 1 lone_surrogate w3 = Raise UnicodeEncodeError w3_surrogate /\
  heap w3_surrogate !! 1%nat
  = Some (mkBlock 1 "1700000001.25" lone_surrogate
            (py "03ea3107870e5ad5f08d9ef787c0c9996e51f5bfcdfb55e788d53788e5e43fb1") 63
            (py "04ac86a7215951096448ba28bb766bfa43645a6afe26b2865f7374ac5878a1de")).
Proof.
  split; [cbn; lia|]. split; [reflexivity|].
  split; [vm_compute; reflexivity|reflexivity].
Qed.

(** C7, as stated, fails: with difficulty -1 the constructor returns a
    chain object. *)
Lemma Blockchain_init_accepts_negative_difficulty :
  Blockchain_init id memory 1 (-1) "1700000000.5" w_empty
  = Ok (mkBlockchain (-1) [0%nat])
      (mkWorld
         [mkBlock 0 "1700000000.5" (py "Genesis Block") (py "0") 0
            (py "c108329666b96c3421763adc63f2b6e50ec5e10c2c6004c38340a9d23759bcd4")]
         [Mined 0 0
            (py "c108329666b96c3421763adc63f2b6e50ec5e10c2c6004c38340a9d23759bcd4") 0]).
Proof. vm_compute. reflexivity. Qed.

Lemma Blockchain_init_negative_difficulty_witness :
  -1 < 0 /\
  Blockchain_init id memory 1 (-1) "1700000000.5" w_empty = Ok bc_negative w_negative /\
  (forall fuel' e w', Blockchain_init id memory fuel' (-1) "1700000000.5" w_empty <> Raise e w') /\
  - 2 ^ 63 < 0 /\
  (exists w',
     Blockchain_init id memory 1 (- 2 ^ 63) "1700000000.5" w_empty
     = Ok (mkBlockchain (- 2 ^ 63) [0%nat]) w') /\
  - 2 ^ 63 - 1 < 0 /\
  (exists w',
     Blockchain_init id memory 1 (- 2 ^ 63 - 1) "1700000000.5" w_empty
     = Raise (OverflowError "cannot fit 'int' into an index-sized integer") w').
Proof.
  split; [lia|].
  pose proof (Blockchain_init_negative_difficulty id memory 0 (-1) "1700000000.5" w_empty
                ltac:(lia)) as [Hrun Hnever].
  split; [refine (eq_trans Hrun _); vm_compute; reflexivity|].
  split; [exact (proj2 (Hnever ltac:(lia)))|]. split; [lia|]. split.
  { eexists.
    exact (proj1 (Blockchain_init_negative_difficulty id memory 0 (- 2 ^ 63)
                    "1700000000.5" w_empty ltac:(lia))). }
  split; [lia|]. eexists.
  exact (proj1 (Blockchain_init_negative_difficulty id memory 0 (- 2 ^ 63 - 1) "1700000000.5"
                  w_empty ltac:(lia))).
Defined.

(** * The further properties at concrete runs *)

Lemma proof_of_work_least_nonce_witness :
  proof_of_work id memory 16 bc1 0%nat w_T = Ok 0%nat w_T_mined /\
  exists b b' k,
    heap w_T !! 0%nat = Some b /\
    heap w_T_mined !! 0%nat = Some b' /\
    0 <= k < 16 /\
    nonce b' = nonce b + k /\
    (forall j, 0 <= j < k ->
       startswith (digest_of id (with_nonce (nonce b + j) b))
         (repeat_str (py "0") (difficulty bc1)) = false).
Proof.
  assert (Hrun : proof_of_work id memory 16 bc1 0%nat w_T = Ok 0%nat w_T_mined)
    by (vm_compute; reflexivity).
  split; [exact Hrun|].
  destruct (proof_of_work_least_nonce id memory 16 bc1 0%nat 0%nat w_T w_T_mined Hrun)
    as (b & b' & k & Hb & Hb' & Hk & Hn & Hmin & _ & _).
  exists b, b', k.
  split; [exact Hb|]. split; [exact Hb'|]. split; [exact Hk|].
  split; [exact Hn | exact Hmin].
Defined.

Lemma proof_of_work_returns_iff_witness :
  heap w_T !! 0%nat
  = Some (mkBlock 5 "1700000000.5" (py "T") (py "0") 0
            (py "42d88569fe3f888a8e73b22a28402075e2252128f2b9dc82ba383922852559b7")) /\
  proof_of_work id memory 15 bc1 0%nat w_T = OutOfFuel /\
  (exists w', proof_of_work id memory 16 bc1 0%nat w_T = Ok 0%nat w') /\
  proof_of_work id memory 1 bc3 1%nat w3_surrogate = Raise UnicodeEncodeError w3_surrogate /\
  proof_of_work id memory 16 bc_huge 0%nat w_T
  = Raise (OverflowError "cannot fit 'int' into an index-sized integer") w_T.
Proof.
  split; [reflexivity|].
  assert (Hd : - 2 ^ 63 <= 1 < 2 ^ 63) by lia.
  assert (Hc : 1 <= 0 \/ 1 <= memory) by (right; vm_compute; discriminate).
  pose proof (proof_of_work_returns_iff id memory 16 bc1 0%nat _ w_T eq_refl) as (_ & _ & Hin).
  destruct (Hin Hd Hc) as (_ & Henc).
  destruct (Henc eq_refl) as (Hiff & _ & _).
  split; [vm_compute; reflexivity|]. split.
  { apply Hiff. exists 15. split; [lia|]. vm_compute. reflexivity. }
  split.
  - exact (proj1 (proj2 (proj2 (proof_of_work_returns_iff id memory 0 bc3 1%nat _
                                  w3_surrogate eq_refl)) Hd Hc) eq_refl).
  - apply (proj1 (proof_of_work_returns_iff id memory 16 bc_huge 0%nat _ w_T eq_refl)).
    right. cbn. lia.
Defined.

Lemma proof_of_work_never_returns_witness :
  64 < difficulty (mkBlockchain 65 [0%nat]) /\
  proof_of_work id memory 1000 (mkBlockchain 65 [0%nat]) 0%nat w_T = OutOfFuel /\
  Blockchain_init id memory 1000 65 "1700000000.5" w_empty = OutOfFuel /\
  64 < difficulty bc_huge /\
  exists w',
    Blockchain_init id memory 1000 (2 ^ 63) "1700000000.5" w_empty
    = Raise (OverflowError "cannot fit 'int' into an index-sized integer") w'.
Proof.
  assert (H65 : 64 < difficulty (mkBlockchain 65 [0%nat])) by (cbn; lia).
  assert (Hhuge : 64 < difficulty bc_huge) by (cbn; lia).
  split; [exact H65|].
  destruct (proof_of_work_never_returns id memory 1000 (mkBlockchain 65 [0%nat])
              "1700000000.5" H65) as (_ & Hpow & Hinit & _).
  split; [exact (Hpow 0%nat _ w_T eq_refl eq_refl)|].
  split; [exact (Hinit w_empty)|]. split; [exact Hhuge|].
  eexists.
  exact (proj1 (proj2 (proj2 (proof_of_work_never_returns id memory 1000 bc_huge
                                "1700000000.5" Hhuge))) w_empty).
Defined.

Lemma proof_of_work_again_witness :
  proof_of_work id memory 16 bc1 0%nat w_T = Ok 0%nat w_T_mined /\
  exists b',
    heap w_T_mined !! 0%nat = Some b' /\
    proof_of_work id memory 1 bc1 0%nat w_T_mined
    = Ok 0%nat (mkWorld (heap w_T_mined)
                  (stdout w_T_mined ++ [Mined (index b') (nonce b') (hash b') 0])).
Proof.
  assert (Hmined : proof_of_work id memory 16 bc1 0%nat w_T = Ok 0%nat w_T_mined)
    by (vm_compute; reflexivity).
  split; [exact Hmined|].
  exact (proof_of_work_again id memory 16 0 bc1 0%nat 0%nat w_T w_T_mined Hmined).
Defined.

Lemma add_block_allocates_witness :
  add_block id memory 64 bc2 (py "B") "1700000002.75" w2 = Ok (2%nat, bc3) w3 /\
  exists b,
    heap w3 = heap w2 ++ [b] /\
    (forall l, (l < length (heap w2))%nat -> heap w3 !! l = heap w2 !! l) /\
    0 <= nonce b /\
    stdout w3 = stdout w2 ++ [Mined 2 (nonce b) (hash b) (nonce b)].
Proof.
  assert (Hrun : add_block id memory 64 bc2 (py "B") "1700000002.75" w2 = Ok (2%nat, bc3) w3)
    by (vm_compute; reflexivity).
  split; [exact Hrun|].
  exact (proj2 (proj2 (add_block_allocates id memory 64 bc2 bc3 (py "B") "1700000002.75" 2%nat
                         w2 w3 Hrun))).
Defined.

Lemma Block_init_postcondition_witness :
  Z.abs 5 < 10 ^ 4300 /\
  (exists b,
     Block_init id 5 "1700000000.5" (py "T") (py "0") w_empty
     = Ok (length (heap w_empty)) (mkWorld (heap w_empty ++ [b]) (stdout w_empty)) /\
     index b = 5 /\ timestamp b = "1700000000.5" /\ data b = py "T" /\
     previous_hash b = py "0" /\ nonce b = 0 /\
     calculate_hash id (length (heap w_empty))
       (mkWorld (heap w_empty ++ [b]) (stdout w_empty))
     = Ok (hash b) (mkWorld (heap w_empty ++ [b]) (stdout w_empty))) /\
  Block_init id 5 "1700000000.5" lone_surrogate (py "0") w_empty
  = Raise UnicodeEncodeError
      (mkWorld (heap w_empty ++ [mkBlock 5 "1700000000.5" lone_surrogate (py "0") 0 []])
         (stdout w_empty)).
Proof.
  assert (H : Z.abs 5 < 10 ^ 4300) by (vm_compute; reflexivity).
  split; [exact H|]. split.
  - exact (proj1 (Block_init_postcondition id 5 "1700000000.5" (py "T") (py "0")
                    w_empty H) eq_refl).
  - exact (proj2 (Block_init_postcondition id 5 "1700000000.5" lone_surrogate (py "0")
                    w_empty H) eq_refl).
Defined.

Lemma Blockchain_init_postcondition_witness :
  Blockchain_init id memory 32 1 "1700000000.5" w_empty = Ok bc1 w1 /\
  exists g,
    heap w1 = heap w_empty ++ [g] /\
    index g = 0 /\ timestamp g = "1700000000.5" /\ data g = py "Genesis Block" /\
    previous_hash g = py "0" /\ 0 <= nonce g /\
    hash g = digest_of id g /\
    startswith (hash g) (repeat_str (py "0") 1) = true /\
    stdout w1 = stdout w_empty ++ [Mined 0 (nonce g) (hash g) (nonce g)].
Proof.
  assert (Hrun : Blockchain_init id memory 32 1 "1700000000.5" w_empty = Ok bc1 w1)
    by (vm_compute; reflexivity).
  split; [exact Hrun|].
  exact (proj2 (proj2 (Blockchain_init_postcondition id memory 32 1 "1700000000.5" bc1
                         w_empty w1 Hrun))).
Defined.

Lemma built_blocks_sealed_witness :
  built id memory bc3 w3 /\
  (forall i b,
     block_at w3 bc3 i = Some b ->
     index b = i /\ 0 <= nonce b /\ hash b = digest_of id b /\
     startswith (hash b) (repeat_str (py "0") (difficulty bc3)) = true) /\
  (exists g,
     block_at w3 bc3 0 = Some g /\
     data g = py "Genesis Block" /\ previous_hash g = py "0").
Proof. split; [exact bc3_built|]. exact (built_blocks_sealed id memory bc3 w3 bc3_built). Defined.

Lemma built_chain_distinct_witness :
  built id memory bc3 w3 /\ NoDup (chain bc3) /\
  exists first : loc,
    chain bc3 = seq first (length (chain bc3)) /\
    length (heap w3) = (first + length (chain bc3))%nat.
Proof. split; [exact bc3_built|]. exact (built_chain_distinct id memory bc3 w3 bc3_built). Defined.

(** A chain that was tampered with stays invalid when a block is added. *)
Lemma add_block_preserves_verdict_witness :
  add_block id memory 64 bc3 (py "C") "1700000003.5" w3_tampered = Ok (3%nat, bc4) w4_tampered /\
  is_chain_valid id memory bc4 w4_tampered
  = Ok false (mkWorld (heap w4_tampered)
                (stdout w4_tampered ++ [DifficultyNotSatisfied 1 (py "0")])).
Proof.
  assert (Hadd : add_block id memory 64 bc3 (py "C") "1700000003.5" w3_tampered
                 = Ok (3%nat, bc4) w4_tampered) by (vm_compute; reflexivity).
  split; [exact Hadd|].
  refine (add_block_preserves_verdict id memory 64 bc3 bc4 (py "C") "1700000003.5" 3%nat
            w3_tampered w4_tampered false [DifficultyNotSatisfied 1 (py "0")]
            eq_refl Hadd _).
  vm_compute. reflexivity.
Defined.

Lemma tamper_interior_detected_witness :
  exists out,
    is_chain_valid id memory bc3 w3_tampered
    = Ok false (mkWorld (heap w3_tampered) (stdout w3_tampered ++ out)).
Proof.
  refine (tamper_interior_detected id memory bc3 1 (py "X") w3 w3_tampered 1%nat
            (mkBlock 1 "1700000001.25" (py "A")
               (py "03ea3107870e5ad5f08d9ef787c0c9996e51f5bfcdfb55e788d53788e5e43fb1") 63
               (py "04ac86a7215951096448ba28bb766bfa43645a6afe26b2865f7374ac5878a1de"))
            (mkBlock 1 "1700000001.25" (py "X")
               (py "03ea3107870e5ad5f08d9ef787c0c9996e51f5bfcdfb55e788d53788e5e43fb1") 63
               (py "ff221dbbfdd9a0b16cb8ae100a1f1c3aedaa671540da3cbac7292339ebd61750"))
            _ _ _ _ _ _ _ _ _).
  - reflexivity.
  - lia.
  - cbn. lia.
  - vm_compute. reflexivity.
  - vm_compute. reflexivity.
  - reflexivity.
  - reflexivity.
  - reflexivity.
  - vm_compute. discriminate.
Defined.

(** At difficulty 0, rewriting the last block goes unnoticed. *)
Lemma tamper_last_block_witness :
  tamper_with_block id bc_zero3 2 (py "X") w_zero3 = Ok tt w_zero3_last_tampered /\
  exists b',
    heap w_zero3_last_tampered !! 2%nat = Some b' /\ data b' = py "X" /\
    is_chain_valid id memory bc_zero3 w_zero3_last_tampered
    = Ok (startswith (hash b') (repeat_str (py "0") (difficulty bc_zero3)))
        (mkWorld (heap w_zero3_last_tampered)
           (stdout w_zero3_last_tampered ++
            if startswith (hash b') (repeat_str (py "0") (difficulty bc_zero3)) then []
            else [DifficultyNotSatisfied 2 (repeat_str (py "0") (difficulty bc_zero3))])) /\
    startswith (hash b') (repeat_str (py "0") (difficulty bc_zero3)) = true.
Proof.
  assert (Honly : forall j : nat, j <> Z.to_nat 2 -> chain bc_zero3 !! j <> Some 2%nat).
  { intros j Hj. destruct j as [|[|[|j]]]; cbn; try discriminate.
    exfalso. apply Hj. reflexivity. }
  assert (Htamper : tamper_with_block id bc_zero3 2 (py "X") w_zero3
                    = Ok tt w_zero3_last_tampered) by (vm_compute; reflexivity).
  split; [exact Htamper|].
  eexists. split; [reflexivity|]. split; [reflexivity|].
  assert (Hvalid : is_chain_valid id memory bc_zero3 w_zero3 = Ok true w_zero3)
    by (vm_compute; reflexivity).
  destruct (tamper_last_block id memory bc_zero3 2 (py "X") w_zero3 w_zero3_last_tampered
              2%nat _ eq_refl ltac:(lia) eq_refl Hvalid Htamper eq_refl Honly eq_refl)
    as [Hrun Hzero].
  split; [exact Hrun|]. apply Hzero. cbn. lia.
Defined.

Lemma tamper_undo_witness :
  (exists w1,
     tamper_with_block id bc3 1 (py "X") w3
     = (if encodable (py "X") then Ok tt w1 else Raise UnicodeEncodeError w1) /\
     tamper_with_block id bc3 1 (py "A") w1 = Ok tt w3) /\
  (exists w1,
     tamper_with_block id bc3 1 lone_surrogate w3
     = (if encodable lone_surrogate then Ok tt w1 else Raise UnicodeEncodeError w1) /\
     tamper_with_block id bc3 1 (py "A") w1 = Ok tt w3).
Proof.
  assert (Hcalc : calculate_hash id 1%nat w3
                  = Ok (py "04ac86a7215951096448ba28bb766bfa43645a6afe26b2865f7374ac5878a1de")
                      w3) by (vm_compute; reflexivity).
  assert (Hi : 0 < 1 < Z.of_nat (length (chain bc3))) by (cbn; lia).
  split.
  - destruct (tamper_undo id bc3 1 (py "X") w3 1%nat
                (mkBlock 1 "1700000001.25" (py "A")
                   (py "03ea3107870e5ad5f08d9ef787c0c9996e51f5bfcdfb55e788d53788e5e43fb1")
                   63
                   (py "04ac86a7215951096448ba28bb766bfa43645a6afe26b2865f7374ac5878a1de"))
                Hi eq_refl eq_refl Hcalc) as (w1 & H1 & H2 & _).
    exists w1. split; [exact H1|exact H2].
  - destruct (tamper_undo id bc3 1 lone_surrogate w3 1%nat
                (mkBlock 1 "1700000001.25" (py "A")
                   (py "03ea3107870e5ad5f08d9ef787c0c9996e51f5bfcdfb55e788d53788e5e43fb1")
                   63
                   (py "04ac86a7215951096448ba28bb766bfa43645a6afe26b2865f7374ac5878a1de"))
                Hi eq_refl eq_refl Hcalc) as (w1 & H1 & H2 & _).
    exists w1. split; [exact H1|exact H2].
Defined.

Lemma calculate_hash_field_boundaries_witness :
  calculate_hash id 0%nat
    (mkWorld [mkBlock 1 "1700000001.25" (py "pay Bob 1") (py "0abc") 7 [];
              mkBlock 1 "1700000001.25" (py "pay Bob 10") (py "abc") 7 []] [])
  = calculate_hash id 1%nat
      (mkWorld [mkBlock 1 "1700000001.25" (py "pay Bob 1") (py "0abc") 7 [];
                mkBlock 1 "1700000001.25" (py "pay Bob 10") (py "abc") 7 []] []).
Proof.
  exact (calculate_hash_field_boundaries id 0%nat 1%nat
           (mkBlock 1 "1700000001.25" (py "pay Bob 1") (py "0abc") 7 [])
           (mkBlock 1 "1700000001.25" (py "pay Bob 10") (py "abc") 7 [])
           (mkWorld [mkBlock 1 "1700000001.25" (py "pay Bob 1") (py "0abc") 7 [];
                     mkBlock 1 "1700000001.25" (py "pay Bob 10") (py "abc") 7 []] [])
           eq_refl eq_refl eq_refl eq_refl eq_refl eq_refl).
Defined.

Lemma tamper_changes_block_string_witness :
  block_string id
    (tampered id (py "X")
       (mkBlock 1 "1700000001.25" (py "A")
          (py "03ea3107870e5ad5f08d9ef787c0c9996e51f5bfcdfb55e788d53788e5e43fb1") 63
          (py "04ac86a7215951096448ba28bb766bfa43645a6afe26b2865f7374ac5878a1de")))
  <> block_string id
       (mkBlock 1 "1700000001.25" (py "A")
          (py "03ea3107870e5ad5f08d9ef787c0c9996e51f5bfcdfb55e788d53788e5e43fb1") 63
          (py "04ac86a7215951096448ba28bb766bfa43645a6afe26b2865f7374ac5878a1de")).
Proof.
  apply (tamper_changes_block_string id (py "X")). vm_compute. discriminate.
Defined.

Lemma tamper_last_block_remined_witness :
  tamper_with_block id bc3 2 (py "X") w3 = Ok tt w3_last_tampered /\
  is_chain_valid id memory bc3 w3_last_tampered
  = Ok false (mkWorld (heap w3_last_tampered)
                (stdout w3_last_tampered ++ [DifficultyNotSatisfied 2 (py "0")])) /\
  proof_of_work id memory 64 bc3 2%nat w3_last_tampered = Ok 2%nat w3_last_remined /\
  is_chain_valid id memory bc3 w3_last_remined = Ok true w3_last_remined /\
  data <$> block_at w3_last_remined bc3 2 = Some (py "X").
Proof.
  assert (Honly : forall j : nat, j <> Z.to_nat 2 -> chain bc3 !! j <> Some 2%nat).
  { intros j Hj. destruct j as [|[|[|j]]]; cbn; try discriminate.
    exfalso. apply Hj. reflexivity. }
  assert (Hvalid : is_chain_valid id memory bc3 w3 = Ok true w3) by (vm_compute; reflexivity).
  assert (Htamper : tamper_with_block id bc3 2 (py "X") w3 = Ok tt w3_last_tampered)
    by (vm_compute; reflexivity).
  assert (Hpow : proof_of_work id memory 64 bc3 2%nat w3_last_tampered
                 = Ok 2%nat w3_last_remined) by (vm_compute; reflexivity).
  split; [exact Htamper|]. split; [vm_compute; reflexivity|]. split; [exact Hpow|].
  exact (tamper_last_block_remined id memory 64 bc3 2 (py "X") w3 w3_last_tampered
           w3_last_remined 2%nat 2%nat eq_refl ltac:(lia) eq_refl Hvalid eq_refl
           Honly Htamper Hpow).
Defined.
